(** * go-bot: a retrieval-augmented question answering service

    A shallow embedding of the core of the repository (vector store client,
    embedder, generator client, ingestion pipeline and query pipeline), of
    the ingestion command and of the server's handlers, and the proofs of the
    properties its specification states about them and of further properties
    of the code.

    Conventions of the embedding:
    - a Go [string] is a sequence of bytes: Rocq's [string], whose characters
      are 8-bit; [String.length] is Go's [len];
    - [uint64] is a [Z] with the wrap-around modulo [2^64] written out;
    - [map[string]interface{}] is a [gmap string Value];
    - an [error] is its message; [fmt.Errorf("ctx: %w", err)] puts the
      context in front of the wrapped message;
    - code that talks to an external service runs in a state-and-error monad
      over a [World]: the state of the services, the requests sent so far and
      the lines logged so far;
    - the services answer as they please: every exchange is a step of an
      arbitrary transition function on their state, and a call cut short by
      its [context.Context] is one of the exchanges that fail;
    - the library functions the code calls on data it does not control
      ([encoding/json], [net/url], [bufio], the formatting of floats) are
      parameters, given as type classes. *)

From Stdlib Require Import ZArith Ascii String List Lia DecimalString.
From stdpp Require Import base option list strings gmap.
From Equations Require Import Equations.

Set Warnings "-register-all".

Local Open Scope string_scope.
Local Open Scope Z_scope.

(** ** Strings as Go sees them *)

Definition nl : string := String "010"%char EmptyString.

(** [fmt]'s verb [%d] on an [int]. *)
Definition fmt_d (n : Z) : string := NilZero.string_of_int (Z.to_int n).

(** [text[:n]]: the first [n] bytes, for [n <= len(text)]. *)
Fixpoint str_take (n : nat) (s : string) : string :=
  match n, s with
  | S k, String c r => String c (str_take k r)
  | _, _ => EmptyString
  end.

(** [strings.HasPrefix(s, p)] *)
Fixpoint HasPrefix (s p : string) : bool :=
  match p, s with
  | EmptyString, _ => true
  | String a p', String b s' => if ascii_dec a b then HasPrefix s' p' else false
  | String _ _, EmptyString => false
  end.

(** [strings.TrimPrefix(s, p)]: [s] without the leading [p] when it has it. *)
Definition TrimPrefix (s p : string) : string :=
  if HasPrefix s p
  then String.substring (String.length p) (String.length s - String.length p) s
  else s.

(** [strings.Join(elems, sep)] *)
Fixpoint Join (elems : list string) (sep : string) : string :=
  match elems with
  | [] => ""
  | [e] => e
  | e :: rest => e +:+ sep +:+ Join rest sep
  end.

(** The bytes of a string, as [[]byte(s)] gives them. *)
Definition bytes_of (s : string) : list Z :=
  map (fun c => Z.of_N (N_of_ascii c)) (list_ascii_of_string s).

(** Number of code points of a UTF-8 text ([utf8.RuneCountInString] on valid
    UTF-8): the bytes that are not continuation bytes [10xxxxxx]. *)
Definition is_continuation (b : Z) : bool := (128 <=? b) && (b <? 192).

Definition rune_count (s : string) : nat :=
  length (filter (fun b => is_continuation b = false) (bytes_of s)).

(** ** Package hash/fnv: the 64-bit FNV-1a hasher *)

Module fnv.

Definition offset64 : Z := 14695981039346656037.
Definition prime64 : Z := 1099511628211.
Definition wrap64 (x : Z) : Z := x mod 2 ^ 64.

(** The hasher is its running sum, a [uint64]. *)
Definition sum64a := Z.

Definition New64a : sum64a := offset64.

(** [Write]: for each byte, xor it in, then multiply by the prime. *)
Definition Write (s : sum64a) (data : list Z) : sum64a :=
  fold_left (fun hash c => wrap64 (Z.lxor hash c * prime64)) data s.

Definition Sum64 (s : sum64a) : Z := s.

End fnv.

(** ** Package vector: identifiers *)

(** [stringToNumericID] converts a string ID to a numeric ID using FNV hash. *)
Definition stringToNumericID (s : string) : Z :=
  let h := fnv.New64a in
  let h := fnv.Write h (bytes_of s) in
  fnv.Sum64 h.

(** FNV-1a as its definition reads, byte after byte from the offset basis:
    the hash of the empty sequence is the offset basis, and the hash of a
    sequence extended by one byte is (hash xor byte) times the prime,
    modulo [2^64]. *)
Inductive fnv1a64 : list Z -> Z -> Prop :=
| fnv1a64_empty : fnv1a64 [] 14695981039346656037
| fnv1a64_snoc bs b h :
    fnv1a64 bs h ->
    fnv1a64 (bs ++ [b]) ((Z.lxor h b * 1099511628211) mod 18446744073709551616).

(** ** Results and errors *)

(** A Go call that returns [(value, error)]: the value, or the error's
    message. *)
Inductive result (A : Type) : Type :=
| Ok (a : A)
| Err (msg : string).
Arguments Ok {A} a.
Arguments Err {A} msg.

(** [fmt.Errorf(ctx + ": %w", err)] *)
Definition wrap_err (ctx msg : string) : string := ctx +:+ ": " +:+ msg.

(** ** The slice idiom [out := make([]B, len(l)); for i, x := range l { out[i] = f(i, x) }] *)

Definition fill {A B : Type} (zero : B) (f : nat -> A -> B) (l : list A) : list B :=
  fold_left (fun out ix => <[ix.1 := f ix.1 ix.2]> out)
            (imap pair l) (replicate (length l) zero).

(** ** Values of the program *)

(** The floating point types are kept abstract: the program stores,
    converts, formats and forwards them, and never computes with them. *)
Class Floats := {
  float32 : Type;
  float64 : Type;
  float32_zero : float32;                      (* the zero value of float32 *)
  float32_of_float64 : float64 -> float32;      (* the conversion float32(v) *)
  float64_0_7 : float64;                        (* the constant 0.7 *)
  fmt_2f : float32 -> string;                   (* fmt's verb %.2f *)
}.

Section Values.
Context `{FL : Floats}.

(** A dynamically typed value, [interface{}], with the dynamic types the
    program puts into one or gets out of a decoded JSON document. *)
Inductive Value :=
| VNil
| VBool (b : bool)
| VInt (n : Z)                          (* int, uint64 *)
| VFloat64 (x : float64)                (* a decoded JSON number *)
| VString (s : string)
| VStrings (l : list string)            (* []string *)
| VFloats32 (v : list float32)          (* []float32 *)
| VMaps (l : list (gmap string Value))  (* []map[string]interface{} *)
| VSlice (l : list Value)               (* []interface{} *)
| VMap (m : gmap string Value).         (* map[string]interface{} *)

(** [v, ok := m[k].(string)]: [Some v] when [ok]; a missing key gives the
    nil interface, on which the assertion fails like on any non-string. *)
Definition get_string (m : gmap string Value) (k : string) : option string :=
  match m !! k with
  | Some (VString s) => Some s
  | _ => None
  end.

(** [v, _ := m[k].(string)]: the zero value [""] when the assertion fails. *)
Definition get_string_or_zero (m : gmap string Value) (k : string) : string :=
  default "" (get_string m k).

End Values.

(** [fmt]'s verb [%v] on an [interface{}]. *)
Class Fmt `{FL : Floats} := { fmt_v : Value -> string }.

(** ** net/http, net/url, io, bufio, encoding/json, os *)

Record Request := {
  method : string;
  url : string;
  header : list (string * string);
  body : string;
}.

(** [req.Header.Set(k, v)] *)
Definition Header_Set (req : Request) (k v : string) : Request :=
  {| method := method req; url := url req;
     header := filter (fun kv => bool_decide (kv.1 <> k)) (header req) ++ [(k, v)];
     body := body req |}.

(** A response body is a reader: the bytes it delivers, then end of file or a
    read error. *)
Record Body := { data : string; read_error : option string }.

Record Response := { StatusCode : Z; resp_Body : Body }.

Definition StatusOK : Z := 200.
Definition StatusNotFound : Z := 404.
Definition StatusConflict : Z := 409.

(** [io.ReadAll]: what was read, and the error that ended the reading if it
    was not the end of file. *)
Definition ReadAll (b : Body) : string * option string := (data b, read_error b).

(** A [bufio.Scanner] over a finite stream: each [Scan()] that returns true
    yields a line, and [Err()] can be asked at any point. *)
Inductive Scanner :=
| Exhausted (err : option string)
    (* Scan() is false; Err() is [err] *)
| Line (text : string) (err : option string) (rest : Scanner).
    (* Scan() is true and Text() is [text]; Err() asked now is [err] *)

Class Bufio := { NewScanner : Body -> Scanner }.

(** [url.Parse], as far as [http.NewRequest] uses it: the error, if any. *)
Class NetURL := { url_Parse_error : string -> option string }.

(** [http.NewRequestWithContext] with one of the methods GET, PUT and POST:
    it fails only when the URL does not parse. *)
Definition NewRequestWithContext `{NetURL} (meth u : string) (b : string) : result Request :=
  match url_Parse_error u with
  | Some e => Err e
  | None => Ok {| method := meth; url := u; header := []; body := b |}
  end.

(** [encoding/json] for the Go type [A]: [json.Marshal], [json.Unmarshal]
    and [json.NewDecoder(body).Decode]. *)
Class JSON (A : Type) := {
  Marshal : A -> result string;
  Unmarshal : string -> result A;
  Decode : Body -> result A;
}.

(** [body, _ := json.Marshal(v)]: no bytes when marshalling fails. *)
Definition Marshal_ignoring_error `{JSON A} (v : A) : string :=
  match Marshal v with
  | Ok b => b
  | Err _ => ""
  end.

(** [io.Writer] *)
Class Writer (W : Type) := { Write : W -> string -> option string * W }.

(** The services the program talks to and the file system it reads: an
    exchange changes their state [St] and gives a response or a transport
    error. *)
Class Remote (St : Type) := {
  http_Do : Request -> St -> result Response * St;
  os_ReadFile : string -> St -> result string * St;
}.

(** ** The monad of the effectful code *)

Record World (St : Type) := {
  services : St;
  sent : list Request;      (* the requests handed to the HTTP client, oldest first *)
  logged : list string;     (* the lines written with log.Printf, oldest first *)
}.
Arguments services {St} w.
Arguments sent {St} w.
Arguments logged {St} w.

Definition M (St A : Type) : Type := World St -> result A * World St.

Section Monad.
Context {St : Type} `{RM : Remote St}.

Definition ret {A} (a : A) : M St A := fun w => (Ok a, w).

Definition fail {A} (msg : string) : M St A := fun w => (Err msg, w).

Definition lift {A} (r : result A) : M St A := fun w => (r, w).

Definition bind {A B} (m : M St A) (k : A -> M St B) : M St B :=
  fun w => match m w with
           | (Ok a, w') => k a w'
           | (Err e, w') => (Err e, w')
           end.

(** [if err != nil { return ..., fmt.Errorf(ctx + ": %w", err) }] *)
Definition wrap {A} (ctx : string) (m : M St A) : M St A :=
  fun w => match m w with
           | (Ok a, w') => (Ok a, w')
           | (Err e, w') => (Err (wrap_err ctx e), w')
           end.

(** [log.Printf], the formatted line. *)
Definition log_Printf (line : string) : M St unit :=
  fun w => (Ok tt, {| services := services w; sent := sent w;
                      logged := logged w ++ [line] |}).

(** [httpClient.Do(req)] *)
Definition Do (req : Request) : M St Response :=
  fun w => let (r, s') := http_Do req (services w) in
           (r, {| services := s'; sent := sent w ++ [req]; logged := logged w |}).

(** [httpClient.Get(url)]: builds the GET request, then [Do]. *)
Definition Get `{NetURL} (u : string) : M St Response :=
  bind (lift (NewRequestWithContext "GET" u "")) Do.

(** [os.ReadFile] *)
Definition ReadFile (path : string) : M St string :=
  fun w => let (r, s') := os_ReadFile path (services w) in
           (r, {| services := s'; sent := sent w; logged := logged w |}).

End Monad.

Notation "x <- m ;; k" := (bind m (fun x => k))
  (at level 100, m at next level, right associativity).
Notation "m ;;; k" := (bind m (fun _ => k))
  (at level 100, right associativity).

(** ** Package vector: the Qdrant REST client *)

Module vector.
Section Vector.
Context `{FL : Floats} `{FM : !Fmt} `{NU : NetURL}.
Context {St : Type} `{RM : Remote St}.

(** Client wraps the Qdrant HTTP REST client. *)
Record Client := {
  baseURL : string;
  collectionName : string;
  vectorSize : Z;
}.

(** Point represents a vector point to upsert. *)
Record Point := {
  ID : string;
  Vector : list float32;
  Payload : gmap string Value;
}.

(** SearchResult represents a search result. *)
Record SearchResult := {
  sr_ID : string;
  Score : float32;
  sr_Payload : gmap string Value;
}.

(** One element of [searchResp.Result]. *)
Record SearchHit := {
  hit_ID : Value;
  hit_Score : float32;
  hit_Payload : gmap string Value;
}.

Record searchResp := { Result : list SearchHit }.

Context `{JM : JSON (gmap string Value)} `{JS : JSON searchResp}.

Definition collectionURL (c : Client) : string :=
  baseURL c +:+ "/collections/" +:+ collectionName c.

Definition createReq (c : Client) : gmap string Value :=
  {[ "vectors" := VMap {[ "size" := VInt (vectorSize c);
                          "distance" := VString "Cosine" ]} ]}.

Definition createCollection (c : Client) : M St unit :=
  let body := Marshal_ignoring_error (createReq c) in
  req <- wrap "create request"
           (lift (NewRequestWithContext "PUT" (collectionURL c) body)) ;;
  let req := Header_Set req "Content-Type" "application/json" in
  resp <- wrap "create collection" (Do req) ;;
  (* 200 OK or 409 Conflict (already exists) are both acceptable *)
  if (StatusCode resp =? StatusOK) || (StatusCode resp =? StatusConflict) then
    log_Printf ("Collection " +:+ collectionName c +:+ " ready") ;;;
    ret tt
  else
    let respBody := (ReadAll (resp_Body resp)).1 in
    fail ("create collection failed (status " +:+ fmt_d (StatusCode resp)
          +:+ "): " +:+ respBody).

(** EnsureCollection creates the collection if it doesn't exist. *)
Definition EnsureCollection (c : Client) : M St unit :=
  (* Check if collection exists by getting its info *)
  resp <- wrap "check collection" (Get (collectionURL c)) ;;
  (* If collection exists (200 OK), we're done *)
  if StatusCode resp =? StatusOK then
    log_Printf ("Collection " +:+ collectionName c +:+ " already exists") ;;;
    ret tt
  (* If 404, collection doesn't exist - create it *)
  else if StatusCode resp =? StatusNotFound then
    createCollection c
  (* For other status codes, log and try to create *)
  else
    let respBody := (ReadAll (resp_Body resp)).1 in
    log_Printf ("Collection check returned status " +:+ fmt_d (StatusCode resp)
                +:+ ": " +:+ respBody +:+ ", attempting to create") ;;;
    createCollection c.

Definition qdrantPoint (p : Point) : gmap string Value :=
  {[ "id" := VInt (stringToNumericID (ID p));
     "vector" := VFloats32 (Vector p);
     "payload" := VMap (Payload p) ]}.

Definition upsertReq (points : list Point) : gmap string Value :=
  let qdrantPoints := fill ∅ (fun _ p => qdrantPoint p) points in
  {[ "points" := VMaps qdrantPoints ]}.

(** UpsertPoints inserts or updates points in the collection. *)
Definition UpsertPoints (c : Client) (points : list Point) : M St unit :=
  let body := Marshal_ignoring_error (upsertReq points) in
  req <- wrap "create request"
           (lift (NewRequestWithContext "PUT"
                    (collectionURL c +:+ "/points?wait=true") body)) ;;
  let req := Header_Set req "Content-Type" "application/json" in
  resp <- wrap "upsert points" (Do req) ;;
  if negb (StatusCode resp =? StatusOK) then
    let respBody := (ReadAll (resp_Body resp)).1 in
    fail ("upsert failed (status " +:+ fmt_d (StatusCode resp)
          +:+ "): " +:+ respBody)
  else
    log_Printf ("Upserted " +:+ fmt_d (Z.of_nat (length points)) +:+ " points") ;;;
    ret tt.

Definition searchReq (vector : list float32) (topK : Z) : gmap string Value :=
  {[ "vector" := VFloats32 vector;
     "limit" := VInt topK;
     "with_payload" := VBool true ]}.

Definition zeroSearchResult : SearchResult :=
  {| sr_ID := ""; Score := float32_zero; sr_Payload := ∅ |}.

Definition toSearchResult (r : SearchHit) : SearchResult :=
  let id :=
    match get_string (hit_Payload r) "id" with
    | Some idVal => idVal
    | None => fmt_v (hit_ID r)
    end in
  {| sr_ID := id; Score := hit_Score r; sr_Payload := hit_Payload r |}.

(** Search performs a vector similarity search. *)
Definition Search (c : Client) (vector : list float32) (topK : Z)
  : M St (list SearchResult) :=
  let body := Marshal_ignoring_error (searchReq vector topK) in
  req <- wrap "create request"
           (lift (NewRequestWithContext "POST"
                    (collectionURL c +:+ "/points/search") body)) ;;
  let req := Header_Set req "Content-Type" "application/json" in
  resp <- wrap "search" (Do req) ;;
  if negb (StatusCode resp =? StatusOK) then
    let respBody := (ReadAll (resp_Body resp)).1 in
    fail ("search failed (status " +:+ fmt_d (StatusCode resp)
          +:+ "): " +:+ respBody)
  else
    sr <- wrap "decode response" (lift (Decode (A:=searchResp) (resp_Body resp))) ;;
    ret (fill zeroSearchResult (fun _ r => toSearchResult r) (Result sr)).

End Vector.
End vector.

(** ** Package llm: the Ollama embedder and the Groq chat client *)

Module llm.
Section LLM.
Context `{FL : Floats} `{NU : NetURL} `{BF : Bufio}.
Context {St : Type} `{RM : Remote St}.

(** *** The embedder *)

(** Using Ollama local embeddings *)
Definition ollamaEmbeddingURL : string := "http://localhost:11434/api/embeddings".

(** Embedder generates embeddings using Ollama locally. *)
Record Embedder := { embedder_model : string }.

(** OllamaRequest is the request format for Ollama embeddings. *)
Record OllamaRequest := { or_Model : string; Prompt : string }.

(** OllamaResponse is the response format from Ollama embeddings. *)
Record OllamaResponse := { Embedding : list float64 }.

Context `{JOQ : JSON OllamaRequest} `{JOR : JSON OllamaResponse}.

(** NewEmbedder creates a new embedder using Ollama. *)
Definition NewEmbedder (_ : string) : Embedder :=
  {| embedder_model := "nomic-embed-text:latest" |}.

Definition float64ToFloat32 (inp : list float64) : list float32 :=
  fill float32_zero (fun _ v => float32_of_float64 v) inp.

(** The text put in the request: truncated if too long. *)
Definition truncate (text : string) : string :=
  if 8000 <? Z.of_nat (String.length text)
  then str_take (Z.to_nat 8000) text
  else text.

Definition embedSingle (e : Embedder) (text : string) : M St (list float32) :=
  (* Truncate if too long *)
  let text := truncate text in
  let reqBody := {| or_Model := embedder_model e; Prompt := text |} in
  body <- wrap "marshal request" (lift (Marshal reqBody)) ;;
  req <- wrap "create request"
           (lift (NewRequestWithContext "POST" ollamaEmbeddingURL body)) ;;
  let req := Header_Set req "Content-Type" "application/json" in
  resp <- wrap "do request" (Do req) ;;
  respBody <- wrap "read response"
                (lift (match ReadAll (resp_Body resp) with
                       | (b, None) => Ok b
                       | (_, Some e) => Err e
                       end)) ;;
  if negb (StatusCode resp =? StatusOK) then
    fail ("ollama error: status " +:+ fmt_d (StatusCode resp)
          +:+ ", body: " +:+ respBody)
  else
    ollamaResp <- wrap "decode response"
                    (lift (Unmarshal (A:=OllamaResponse) respBody)) ;;
    if (length (Embedding ollamaResp) =? 0)%nat then
      fail "empty embedding returned"
    else
      ret (float64ToFloat32 (Embedding ollamaResp)).

(** The loop of [Embed] from index [i] on: [embeddings] is the slice made
    before the loop, [total] is [len(texts)]. *)
Fixpoint Embed_loop (e : Embedder) (total : nat) (texts : list string) (i : nat)
    (embeddings : list (list float32)) : M St (list (list float32)) :=
  match texts with
  | [] => ret embeddings
  | text :: rest =>
      emb <- wrap ("embed text " +:+ fmt_d (Z.of_nat i)) (embedSingle e text) ;;
      let embeddings := <[i := emb]> embeddings in
      (if (Z.of_nat i + 1) mod 10 =? 0 then
         log_Printf ("Embedded " +:+ fmt_d (Z.of_nat i + 1) +:+ "/"
                     +:+ fmt_d (Z.of_nat total) +:+ " texts")
       else ret tt) ;;;
      Embed_loop e total rest (S i) embeddings
  end.

(** Embed generates embeddings for the given texts. *)
Definition Embed (e : Embedder) (texts : list string) : M St (list (list float32)) :=
  let embeddings := replicate (length texts) [] in
  Embed_loop e (length texts) texts 0%nat embeddings.

(** EmbedSingle generates an embedding for a single text. *)
Definition EmbedSingle (e : Embedder) (text : string) : M St (list float32) :=
  embedSingle e text.

(** *** The chat client *)

Definition groqAPIURL : string := "https://api.groq.com/openai/v1/chat/completions".

(** Client is a Groq LLM client. *)
Record Client := { apiKey : string; model : string }.

(** Message represents a chat message. *)
Record Message := { Role : string; Content : string }.

(** ChatRequest is the request payload for chat completions. *)
Record ChatRequest := {
  cr_Model : string;
  Messages : list Message;
  MaxTokens : Z;
  Temperature : float64;
  Stream : bool;
}.

Record Choice := { choice_Message : Message; FinishReason : string }.

(** ChatResponse is the response payload from chat completions. *)
Record ChatResponse := { resp_ID : string; Choices : list Choice }.

Record DeltaChoice := { Delta_Content : string; delta_FinishReason : string }.

(** StreamDelta represents a streaming chunk. *)
Record StreamDelta := { delta_ID : string; delta_Choices : list DeltaChoice }.

Context `{JCQ : JSON ChatRequest} `{JCR : JSON ChatResponse} `{JSD : JSON StreamDelta}.

(** NewClient creates a new Groq client. *)
Definition NewClient (key : string) : Client :=
  {| apiKey := key; model := "meta-llama/llama-4-maverick-17b-128e-instruct" |}.

(** The request both modes send, up to the [stream] flag. *)
Definition send (c : Client) (messages : list Message) (maxTokens : Z) (stream : bool)
  : M St Response :=
  let reqBody := {| cr_Model := model c; Messages := messages; MaxTokens := maxTokens;
                    Temperature := float64_0_7; Stream := stream |} in
  body <- wrap "marshal request" (lift (Marshal reqBody)) ;;
  req <- wrap "create request"
           (lift (NewRequestWithContext "POST" groqAPIURL body)) ;;
  let req := Header_Set req "Content-Type" "application/json" in
  let req := Header_Set req "Authorization" ("Bearer " +:+ apiKey c) in
  resp <- wrap "do request" (Do req) ;;
  if negb (StatusCode resp =? StatusOK) then
    let respBody := (ReadAll (resp_Body resp)).1 in
    fail ("groq error: status " +:+ fmt_d (StatusCode resp)
          +:+ ", body: " +:+ respBody)
  else ret resp.

(** CreateChatCompletion sends a non-streaming chat request. *)
Definition CreateChatCompletion (c : Client) (messages : list Message) (maxTokens : Z)
  : M St ChatResponse :=
  resp <- send c messages maxTokens false ;;
  wrap "decode response" (lift (Decode (A:=ChatResponse) (resp_Body resp))).

Section Streaming.
Context {W : Type} `{WR : Writer W}.

(** [for _, choice := range delta.Choices]: write the non-empty contents;
    the first failed write ends the call. *)
Fixpoint write_choices (choices : list DeltaChoice) (wr : W) : result unit * W :=
  match choices with
  | [] => (Ok tt, wr)
  | choice :: rest =>
      if negb (String.eqb (Delta_Content choice) "") then
        match Write wr (Delta_Content choice) with
        | (Some e, wr') => (Err (wrap_err "write stream" e), wr')
        | (None, wr') => write_choices rest wr'
        end
      else write_choices rest wr
  end.

(** [scanner.Err()] as the function's return value. *)
Definition scanner_Err (err : option string) : result unit :=
  match err with
  | None => Ok tt
  | Some e => Err e
  end.

(** [for scanner.Scan() { ... }; return scanner.Err()] *)
Fixpoint scan_loop (sc : Scanner) (wr : W) : result unit * W :=
  match sc with
  | Exhausted err => (scanner_Err err, wr)
  | Line line err rest =>
      if negb (HasPrefix line "data: ") then scan_loop rest wr
      else
        let data := TrimPrefix line "data: " in
        if String.eqb data "[DONE]" then (scanner_Err err, wr)
        else
          match Unmarshal (A:=StreamDelta) data with
          | Err _ => scan_loop rest wr
          | Ok delta =>
              match write_choices (delta_Choices delta) wr with
              | (Err e, wr') => (Err e, wr')
              | (Ok _, wr') => scan_loop rest wr'
              end
          end
  end.

(** StreamChatCompletion sends a streaming chat request and streams content
    to the provided writer. The writer is returned as the call leaves it. *)
Definition StreamChatCompletion (c : Client) (messages : list Message)
    (maxTokens : Z) (writer : W) : World St -> (result unit * W) * World St :=
  fun w =>
    match send c messages maxTokens true w with
    | (Err e, w') => ((Err e, writer), w')
    | (Ok resp, w') => (scan_loop (NewScanner (resp_Body resp)) writer, w')
    end.

End Streaming.

End LLM.
End llm.

(** ** Package ingest: the ingestion pipeline *)

(** [strings.Builder]: the bytes written so far; [WriteString] appends. *)
Definition Builder := string.
Definition WriteString (sb : Builder) (s : string) : Builder := sb +:+ s.

Module ingest.
Section Ingest.
Context `{FL : Floats} `{NU : NetURL}.
Context {St : Type} `{RM : Remote St}.

(** KnowledgeEntry represents a single entry from Knowledgebase.json. *)
Record KnowledgeEntry := {
  ID : string;
  Module_ : string;
  Topic : string;
  Roles : list string;
  QueryVariations : list string;
  Answer : string;
}.

(** Service handles document ingestion. *)
Record Service := {
  embedder : llm.Embedder;
  vectorClient : vector.Client;
}.

Context `{JOQ : JSON llm.OllamaRequest} `{JOR : JSON llm.OllamaResponse}.
Context `{JM : JSON (gmap string Value)} `{JE : JSON (list KnowledgeEntry)}.

(** NewService creates a new ingestion service. *)
Definition NewService (e : llm.Embedder) (vc : vector.Client) : Service :=
  {| embedder := e; vectorClient := vc |}.

Definition entryToText (entry : KnowledgeEntry) : string :=
  let sb : Builder := "" in
  let sb := WriteString sb "Module: " in
  let sb := WriteString sb (Module_ entry) in
  let sb := WriteString sb (nl +:+ "Topic: ") in
  let sb := WriteString sb (Topic entry) in
  let sb := WriteString sb (nl +:+ "Questions: ") in
  let sb := WriteString sb (Join (QueryVariations entry) "; ") in
  let sb := WriteString sb (nl +:+ "Answer: ") in
  let sb := WriteString sb (Answer entry) in
  sb.

(** [s[i]] for an index the code keeps in range; the zero value stands for
    the run-time panic, which [processBatch] never reaches. *)
Definition index {A} (zero : A) (s : list A) (i : nat) : A := default zero (s !! i).

Definition zeroPoint : vector.Point :=
  {| vector.ID := ""; vector.Vector := []; vector.Payload := ∅ |}.

Definition entryPayload (entry : KnowledgeEntry) (text : string) : gmap string Value :=
  <[ "id" := VString (ID entry) ]>
  (<[ "module" := VString (Module_ entry) ]>
  (<[ "topic" := VString (Topic entry) ]>
  (<[ "roles" := VStrings (Roles entry) ]>
  (<[ "query_variations" := VStrings (QueryVariations entry) ]>
  (<[ "answer" := VString (Answer entry) ]>
  (<[ "text" := VString text ]> ∅)))))).

Definition processBatch (s : Service) (entries : list KnowledgeEntry) : M St unit :=
  (* Generate text for embedding *)
  let texts := fill "" (fun _ entry => entryToText entry) entries in
  (* Get embeddings *)
  embeddings <- wrap "embed texts" (llm.Embed (embedder s) texts) ;;
  (* Create points *)
  let points :=
    fill zeroPoint
         (fun i entry =>
            {| vector.ID := ID entry;
               vector.Vector := index [] embeddings i;
               vector.Payload := entryPayload entry (index "" texts i) |})
         entries in
  (* Upsert to Qdrant *)
  wrap "upsert points" (vector.UpsertPoints (vectorClient s) points).

Definition batchSize : nat := 10.

(** [entries[i:end]] *)
Definition slice {A} (s : list A) (i end_ : nat) : list A := take (end_ - i) (drop i s).

(** The loop of [IngestJSONFile] from index [i] on. *)
Equations? batch_loop (s : Service) (entries : list KnowledgeEntry) (i : nat)
  : M St unit by wf (length entries - i)%nat lt :=
  batch_loop s entries i with decide (i < length entries)%nat := {
    | right _ => ret tt
    | left _ =>
        let end_ := (i + batchSize)%nat in
        let end_ := if (length entries <? end_)%nat then length entries else end_ in
        let batch := slice entries i end_ in
        fun w =>
          match processBatch s batch w with
          | (Err e, w') =>
              (Err (wrap_err ("process batch " +:+ fmt_d (Z.of_nat (i / batchSize))) e), w')
          | (Ok _, w') =>
              (log_Printf ("Processed batch "
                           +:+ fmt_d (Z.of_nat (i / batchSize + 1)) +:+ "/"
                           +:+ fmt_d (Z.of_nat ((length entries + batchSize - 1) / batchSize))) ;;;
               batch_loop s entries (i + batchSize)%nat) w'
          end
  }.
Proof. unfold batchSize. lia. Qed.

(** IngestJSONFile parses and ingests a knowledge base JSON file. *)
Definition IngestJSONFile (s : Service) (filePath : string) : M St unit :=
  data <- wrap "read file" (ReadFile filePath) ;;
  entries <- wrap "unmarshal json" (lift (Unmarshal (A:=list KnowledgeEntry) data)) ;;
  log_Printf ("Loaded " +:+ fmt_d (Z.of_nat (length entries)) +:+ " entries from "
              +:+ filePath) ;;;
  (* Process in batches *)
  batch_loop s entries 0%nat.

End Ingest.
End ingest.

(** ** Package rag: the query pipeline *)

Module rag.
Section RAG.
Context `{FL : Floats} `{FM : !Fmt} `{NU : NetURL} `{BF : Bufio}.
Context {St : Type} `{RM : Remote St}.
Context `{JOQ : JSON llm.OllamaRequest} `{JOR : JSON llm.OllamaResponse}.
Context `{JM : JSON (gmap string Value)} `{JS : JSON vector.searchResp}.
Context `{JCQ : JSON llm.ChatRequest} `{JCR : JSON llm.ChatResponse}.
Context `{JSD : JSON llm.StreamDelta}.

(** Service handles RAG queries. *)
Record Service := {
  llmClient : llm.Client;
  embedder : llm.Embedder;
  vectorClient : vector.Client;
  topK : Z;
}.

(** NewService creates a new RAG service. *)
Definition NewService (lc : llm.Client) (e : llm.Embedder) (vc : vector.Client)
  : Service :=
  {| llmClient := lc; embedder := e; vectorClient := vc; topK := 5 |}.

(** Source represents a retrieved document source. *)
Record Source := {
  src_ID : string;
  src_Module : string;
  src_Topic : string;
  src_Score : float32;
}.

(** QueryResult represents the result of a RAG query. *)
Record QueryResult := { Answer : string; Sources : list Source }.

(** The system message, line by line. *)
Definition systemPrompt : string :=
  Join [
    "You are the official Support Assistant for SyntraFlow - a comprehensive employee management system.";
    "";
    "## About SyntraFlow:";
    "SyntraFlow is an all-in-one Employee Management System (EMS) designed to streamline HR operations for organizations of all sizes. Key features include:";
    "- **Authentication & Access Control**: Secure sign-in, sign-up, password management, and role-based permissions";
    "- **Employee Management**: Complete employee lifecycle management including onboarding, profiles, and document handling";
    "- **Attendance & Rota Management**: Shift scheduling, clock in/out tracking, terminals, and live attendance monitoring";
    "- **Leave Management**: Leave requests, approvals, balances, WFH requests, and policy configuration";
    "- **Payroll & Salary**: Salary elements, payroll processing, and payslip generation";
    "- **Dashboard**: Real-time performance metrics, attendance insights, meetings, and company events";
    "- **Calendar**: Meeting scheduling, time insights, and team availability";
    "- **Policy Manager**: Configure leave policies, shift policies, WFH rules, and compensation structures";
    "- **Reports**: Time & attendance reports, lateness tracking, and live tracking";
    "";
    "## Your Role:";
    "- You are the primary support resource for SyntraFlow users";
    "- Help employees and administrators navigate the platform";
    "- Provide clear, step-by-step guidance for all features";
    "";
    "## Guidelines:";
    "1. For questions about what SyntraFlow is, use the About SyntraFlow section above";
    "2. For specific feature questions, use the provided context from the knowledge base";
    "3. Be concise but thorough - include all necessary steps";
    "4. Use numbered lists for step-by-step instructions";
    "5. If the context doesn't have specific details, say so politely and offer to help with something else";
    "6. Never make up features or steps";
    "7. Be professional, friendly, and helpful";
    "";
    "## Response Format:";
    "- Start with a direct answer";
    "- Follow with step-by-step instructions if applicable";
    "- End with a helpful tip if relevant"
  ] nl.

Definition buildContext (results : list vector.SearchResult) : string :=
  fold_left
    (fun (sb : Builder) ir =>
       let i : nat := ir.1 in
       let r : vector.SearchResult := ir.2 in
       match get_string (vector.sr_Payload r) "text" with
       | None => sb
       | Some text =>
           let sb := WriteString sb
                       ("--- Document " +:+ fmt_d (Z.of_nat i + 1) +:+ " (score: "
                        +:+ fmt_2f (vector.Score r) +:+ ") ---" +:+ nl) in
           let sb := WriteString sb text in
           WriteString sb (nl +:+ nl)
       end)
    (imap pair results) "".

(** The two messages both modes send. *)
Definition messages (context_text userQuery : string) : list llm.Message :=
  [ {| llm.Role := "system"; llm.Content := systemPrompt |};
    {| llm.Role := "user";
       llm.Content := "Context from SyntraFlow Knowledge Base:" +:+ nl +:+ context_text
                      +:+ nl +:+ nl +:+ "User Question: " +:+ userQuery |} ].

Definition zeroSource : Source :=
  {| src_ID := ""; src_Module := ""; src_Topic := ""; src_Score := float32_zero |}.

Definition toSource (r : vector.SearchResult) : Source :=
  let module := get_string_or_zero (vector.sr_Payload r) "module" in
  let topic := get_string_or_zero (vector.sr_Payload r) "topic" in
  let id := get_string_or_zero (vector.sr_Payload r) "id" in
  {| src_ID := id; src_Module := module; src_Topic := topic;
     src_Score := vector.Score r |}.

(** Query performs a RAG query and returns the answer. *)
Definition Query (s : Service) (userQuery : string) : M St QueryResult :=
  (* 1. Embed the query *)
  queryEmbedding <- wrap "embed query" (llm.EmbedSingle (embedder s) userQuery) ;;
  (* 2. Search for relevant documents *)
  results <- wrap "search" (vector.Search (vectorClient s) queryEmbedding (topK s)) ;;
  (* 3. Build context from results *)
  let context_text := buildContext results in
  (* 4. Build messages *)
  let messages := messages context_text userQuery in
  (* 5. Get LLM response *)
  resp <- wrap "llm completion" (llm.CreateChatCompletion (llmClient s) messages 1024) ;;
  match llm.Choices resp with
  | [] => fail "no response from LLM"
  | choice0 :: _ =>
      (* 6. Build result *)
      let sources := fill zeroSource (fun _ r => toSource r) results in
      ret {| Answer := llm.Content (llm.choice_Message choice0); Sources := sources |}
  end.

(** StreamQuery performs a RAG query with streaming response. *)
Definition StreamQuery {W : Type} `{WR : Writer W} (s : Service) (userQuery : string)
    (writer : W) : World St -> (result unit * W) * World St :=
  fun w =>
    match wrap "embed query" (llm.EmbedSingle (embedder s) userQuery) w with
    | (Err e, w1) => ((Err e, writer), w1)
    | (Ok queryEmbedding, w1) =>
        match wrap "search"
                (vector.Search (vectorClient s) queryEmbedding (topK s)) w1 with
        | (Err e, w2) => ((Err e, writer), w2)
        | (Ok results, w2) =>
            let context_text := buildContext results in
            let messages := messages context_text userQuery in
            llm.StreamChatCompletion (llmClient s) messages 1024 writer w2
        end
    end.

End RAG.
End rag.

(** * The specification's vocabulary *)

(** ** Batch embedding, item by item *)

Section EmbedItems.
Context `{FL : Floats} `{NU : NetURL} `{BF : Bufio}.
Context {St : Type} `{RM : Remote St}.
Context `{JOQ : JSON llm.OllamaRequest} `{JOR : JSON llm.OllamaResponse}.

(** The world after item [i] of [total] was embedded: a progress line is
    logged after every tenth item. *)
Definition after_item (total i : nat) (w : World St) : World St :=
  if (Z.of_nat i + 1) mod 10 =? 0
  then {| services := services w; sent := sent w;
          logged := logged w ++ ["Embedded " +:+ fmt_d (Z.of_nat i + 1) +:+ "/"
                                 +:+ fmt_d (Z.of_nat total) +:+ " texts"] |}
  else w.

(** [embedded e total i texts w embs w']: starting in world [w], the texts,
    which are the items [i], [i+1], ... of a batch of [total], are embedded
    one after the other, each by its own successful single-text call, and
    [embs] lists the vectors in the order of the texts; [w'] is the world
    after the last one. *)
Inductive embedded (e : llm.Embedder) (total : nat)
  : nat -> list string -> World St -> list (list float32) -> World St -> Prop :=
| embedded_nil i w : embedded e total i [] w [] w
| embedded_cons i text rest w emb w1 embs w2 :
    llm.embedSingle e text w = (Ok emb, w1) ->
    embedded e total (S i) rest (after_item total i w1) embs w2 ->
    embedded e total i (text :: rest) w (emb :: embs) w2.

End EmbedItems.

(** ** Texts with multi-byte characters *)

Fixpoint str_repeat (n : nat) (s : string) : string :=
  match n with
  | O => ""
  | S k => s +:+ str_repeat k s
  end.

(** The letter e with an acute accent, U+00E9, in UTF-8: the bytes C3 A9. *)
Definition e_acute : string := String "195"%char (String "169"%char EmptyString).


(** ** The point of an entry *)

Section EntryPoint.
Context `{FL : Floats}.

(** The point ingestion builds for an entry, given the entry's embedding:
    the entry's identifier, the vector, and a payload with the entry's
    fields and its derived text. *)
Definition entryPoint (entry : ingest.KnowledgeEntry) (vec : list float32)
  : vector.Point :=
  {| vector.ID := ingest.ID entry;
     vector.Vector := vec;
     vector.Payload := ingest.entryPayload entry (ingest.entryToText entry) |}.

End EntryPoint.


(** ** Batches and upsert calls *)

Section Batches.
Context `{FL : Floats} `{NU : NetURL}.
Context {St : Type} `{RM : Remote St}.
Context `{JOQ : JSON llm.OllamaRequest} `{JOR : JSON llm.OllamaResponse}.
Context `{JM : JSON (gmap string Value)}.

(** The number of batches of a corpus of [n] entries: [n / 10], rounded up. *)
Definition batch_count (n : nat) : nat := ((n + 9) / 10)%nat.

(** The batches of a corpus: batch [k] is made of the entries [10 k] up to
    [10 k + 10], or up to the last one if there are fewer. *)
Definition batches {A} (entries : list A) : list (list A) :=
  map (fun k => take 10 (drop (10 * k) entries)) (seq 0 (batch_count (length entries))).

(** The request that upserts [points] into the collection of [c], waiting
    for the store to commit. *)
Definition upsertCall (c : vector.Client) (points : list vector.Point) : Request :=
  {| method := "PUT";
     url := vector.collectionURL c +:+ "/points?wait=true";
     header := [("Content-Type", "application/json")];
     body := Marshal_ignoring_error (vector.upsertReq points) |}.

(** Whether a request is an upsert into the collection of [c]. *)
Definition is_upsert (c : vector.Client) (req : Request) : bool :=
  String.eqb (method req) "PUT"
  && String.eqb (url req) (vector.collectionURL c +:+ "/points?wait=true").

(** The requests sent between the worlds [w] and [w']. *)
Definition sent_since (w w' : World St) : list Request :=
  drop (length (sent w)) (sent w').

(** The world after batch [k] of a corpus of [n] entries was processed: a
    progress line is logged. *)
Definition after_batch (n k : nat) (w : World St) : World St :=
  {| services := services w; sent := sent w;
     logged := logged w ++ ["Processed batch " +:+ fmt_d (Z.of_nat (k + 1)) +:+ "/"
                            +:+ fmt_d (Z.of_nat (batch_count n))] |}.

(** [batches_done s n k bs w w']: starting in world [w], the batches [bs],
    which are the batches [k], [k+1], ... of a corpus of [n] entries, are
    processed one after the other, each with success; [w'] is the world
    after the last one. *)
Inductive batches_done (s : ingest.Service) (n : nat)
  : nat -> list (list ingest.KnowledgeEntry) -> World St -> World St -> Prop :=
| batches_done_nil k w : batches_done s n k [] w w
| batches_done_cons k b rest w w1 w2 :
    ingest.processBatch s b w = (Ok tt, w1) ->
    batches_done s n (S k) rest (after_batch n k w1) w2 ->
    batches_done s n k (b :: rest) w w2.

End Batches.


Section AfterLoad.
Context {St : Type}.

(** The world after a corpus of [n] entries was loaded from [filePath]: a
    line is logged. *)
Definition after_load (n : nat) (filePath : string) (w : World St) : World St :=
  {| services := services w; sent := sent w;
     logged := logged w ++ ["Loaded " +:+ fmt_d (Z.of_nat n) +:+ " entries from "
                            +:+ filePath] |}.

End AfterLoad.


(** ** Streams of event chunks *)

Section Streams.
Context `{FL : Floats}.
Context `{JSD : JSON llm.StreamDelta}.

(** The lines a scanner yields, in order. *)
Fixpoint scanner_lines (sc : Scanner) : list string :=
  match sc with
  | Exhausted _ => []
  | Line text _ rest => text :: scanner_lines rest
  end.

(** A stream that delivers the given lines without a read error, and ends
    with [final]. *)
Definition stream_of (lines : list string) (final : option string) : Scanner :=
  foldr (fun text sc => Line text None sc) (Exhausted final) lines.

(** The event chunks of a stream: the data of the lines that start with
    "data: ". *)
Definition event_data (lines : list string) : list string :=
  map (fun text => TrimPrefix text "data: ")
      (filter (fun text => HasPrefix text "data: " = true) lines).

(** The chunks that come before the sentinel. *)
Fixpoint before_done (chunks : list string) : list string :=
  match chunks with
  | [] => []
  | chunk :: rest =>
      if String.eqb chunk "[DONE]" then [] else chunk :: before_done rest
  end.

(** The text fragments of a chunk: the non-empty contents of its choices,
    and none if the chunk does not parse. *)
Definition chunk_fragments (chunk : string) : list string :=
  match Unmarshal (A:=llm.StreamDelta) chunk with
  | Ok delta =>
      filter (fun content => content <> "")
             (map llm.Delta_Content (llm.delta_Choices delta))
  | Err _ => []
  end.

(** The fragments of a stream, in arrival order. *)
Definition fragments (lines : list string) : list string :=
  concat (map chunk_fragments (before_done (event_data lines))).

(** What [Err()] gives where the reading of a stream stops: at the
    sentinel, or when the stream is exhausted. *)
Fixpoint end_err (sc : Scanner) : option string :=
  match sc with
  | Exhausted err => err
  | Line text err rest =>
      if HasPrefix text "data: " && String.eqb (TrimPrefix text "data: ") "[DONE]"
      then err
      else end_err rest
  end.

(** A line that is no event, or an event whose data does not parse. *)
Definition skipped_line (text : string) : Prop :=
  HasPrefix text "data: " = false
  \/ (TrimPrefix text "data: " <> "[DONE]"
      /\ exists e, Unmarshal (A:=llm.StreamDelta) (TrimPrefix text "data: ") = Err e).

(** Writing fragments one after the other; the first write that fails ends
    the delivery. *)
Fixpoint deliver {W} {WR : Writer W} (frags : list string) (wr : W) : result unit * W :=
  match frags with
  | [] => (Ok tt, wr)
  | frag :: rest =>
      match Write wr frag with
      | (Some e, wr') => (Err (wrap_err "write stream" e), wr')
      | (None, wr') => deliver rest wr'
      end
  end.

End Streams.

(** A writer that keeps what is written, like [bytes.Buffer]: a write appends
    and does not fail. *)
Definition buffer_Writer : Writer string :=
  {| Write := fun buf p => (None, buf +:+ p) |}.

(** [strings.Join(frags, "")]: the fragments, concatenated. *)
Definition str_concat (frags : list string) : string := foldr String.append "" frags.


(** ** Provisioning the collection *)

Section Provisioning.
Context `{FL : Floats} `{NU : NetURL}.
Context {St : Type} `{RM : Remote St}.
Context `{JM : JSON (gmap string Value)}.

(** The request that reads the collection's metadata. *)
Definition checkCall (c : vector.Client) : Request :=
  {| method := "GET"; url := vector.collectionURL c; header := []; body := "" |}.

(** The request that creates the collection. *)
Definition createCall (c : vector.Client) : Request :=
  {| method := "PUT";
     url := vector.collectionURL c;
     header := [("Content-Type", "application/json")];
     body := Marshal_ignoring_error (vector.createReq c) |}.

(** The world after [req] was sent and the services moved to [st]. *)
Definition after_exchange (req : Request) (st : St) (w : World St) : World St :=
  {| services := st; sent := sent w ++ [req]; logged := logged w |}.

(** The world after one more line was logged. *)
Definition after_log (line : string) (w : World St) : World St :=
  {| services := services w; sent := sent w; logged := logged w ++ [line] |}.


End Provisioning.


(** ** The context block and the chat request *)

Section ContextBlock.
Context `{FL : Floats}.

(** The section of the result at index [i] (rank [i + 1]): its label and its
    stored text, if it has one. *)
Definition section_of (i : nat) (r : vector.SearchResult) : option string :=
  match get_string (vector.sr_Payload r) "text" with
  | Some text =>
      Some ("--- Document " +:+ fmt_d (Z.of_nat i + 1) +:+ " (score: "
            +:+ fmt_2f (vector.Score r) +:+ ") ---" +:+ nl +:+ text +:+ nl +:+ nl)
  | None => None
  end.

(** The sections of the results that have a stored text, in rank order. *)
Definition context_sections (results : list vector.SearchResult) : list string :=
  omap (fun ir => section_of ir.1 ir.2) (imap pair results).

(** The request that asks the generator for a completion, [body] being the
    marshalled chat request. *)
Definition chatCall (c : llm.Client) (body : string) : Request :=
  {| method := "POST";
     url := llm.groqAPIURL;
     header := [("Content-Type", "application/json");
                ("Authorization", "Bearer " +:+ llm.apiKey c)];
     body := body |}.

End ContextBlock.


(** * A test double of the environment

    Concrete floats, codecs and services, small enough to run the program
    on. Numbers stand for hundredths ([93] is 0.93); the codecs read and write
    a toy format; the store keeps whether the collection exists and how many
    points it was given. *)

Module demo.

Definition pad2 (n : Z) : string := if n <? 10 then "0" +:+ fmt_d n else fmt_d n.

Definition floats : Floats :=
  {| float32 := Z; float64 := Z;
     float32_zero := 0;
     float32_of_float64 := fun x => x;
     float64_0_7 := 70;
     fmt_2f := fun x => fmt_d (x / 100) +:+ "." +:+ pad2 (x mod 100) |}.
#[local] Existing Instance floats.

Definition fmt : Fmt :=
  {| fmt_v := fun v => match v with
                       | VInt n => fmt_d n
                       | VString s => s
                       | _ => "<nil>"
                       end |}.
#[local] Existing Instance fmt.

Definition net_url : NetURL :=
  {| url_Parse_error := fun u =>
       if HasPrefix u "http" then None
       else Some ("parse " +:+ u +:+ ": missing protocol scheme") |}.
#[local] Existing Instance net_url.

(** The lines of a text, split at the line breaks. *)
Fixpoint split_lines_from (s cur : string) : list string :=
  match s with
  | EmptyString => if String.eqb cur "" then [] else [cur]
  | String ch rest =>
      if Ascii.eqb ch "010"%char then cur :: split_lines_from rest ""
      else split_lines_from rest (cur +:+ String ch EmptyString)
  end.

Definition split_lines (s : string) : list string := split_lines_from s "".

Definition bufio : Bufio :=
  {| NewScanner := fun b => stream_of (split_lines (data b)) (read_error b) |}.
#[local] Existing Instance bufio.

Definition unsupported {A} : result A := Err "json: unsupported".

Definition json_map : JSON (gmap string Value) :=
  {| Marshal := fun m => Ok ("{" +:+ Join (map fst (map_to_list m)) "," +:+ "}");
     Unmarshal := fun _ => unsupported;
     Decode := fun _ => unsupported |}.
#[local] Existing Instance json_map.

Definition json_OllamaRequest : JSON llm.OllamaRequest :=
  {| Marshal := fun r => Ok (llm.or_Model r +:+ nl +:+ llm.Prompt r);
     Unmarshal := fun _ => unsupported;
     Decode := fun _ => unsupported |}.
#[local] Existing Instance json_OllamaRequest.

(** The embedding is sent as a text whose bytes are its components. *)
Definition json_OllamaResponse : JSON llm.OllamaResponse :=
  {| Marshal := fun _ => unsupported;
     Unmarshal := fun s => Ok {| llm.Embedding := bytes_of s |};
     Decode := fun _ => unsupported |}.
#[local] Existing Instance json_OllamaResponse.

Definition hits : list vector.SearchHit :=
  [ {| vector.hit_ID := VInt 1; vector.hit_Score := 93;
       vector.hit_Payload :=
         <[ "id" := VString "kb-1" ]>
         (<[ "module" := VString "Leave" ]>
         (<[ "topic" := VString "Requests" ]>
         (<[ "text" := VString "Open Leave, then New request." ]> ∅))) |};
    {| vector.hit_ID := VInt 2; vector.hit_Score := 88;
       vector.hit_Payload := <[ "module" := VInt 7 ]> ∅ |};
    {| vector.hit_ID := VInt 3; vector.hit_Score := 75;
       vector.hit_Payload :=
         <[ "id" := VString "kb-3" ]>
         (<[ "module" := VString "Payroll" ]>
         (<[ "topic" := VString "Payslips" ]>
         (<[ "text" := VString "Payslips are under Payroll." ]> ∅))) |} ].

Definition json_searchResp : JSON vector.searchResp :=
  {| Marshal := fun _ => unsupported;
     Unmarshal := fun _ => unsupported;
     Decode := fun b =>
       if String.eqb (data b) "hits" then Ok {| vector.Result := hits |}
       else if String.eqb (data b) "none" then Ok {| vector.Result := [] |}
       else Err "invalid character" |}.
#[local] Existing Instance json_searchResp.

Definition json_ChatRequest : JSON llm.ChatRequest :=
  {| Marshal := fun r =>
       Ok ((if llm.Stream r then "stream:" else "full:")
           +:+ Join (map llm.Content (llm.Messages r)) nl);
     Unmarshal := fun _ => unsupported;
     Decode := fun _ => unsupported |}.
#[local] Existing Instance json_ChatRequest.

Definition json_ChatResponse : JSON llm.ChatResponse :=
  {| Marshal := fun _ => unsupported;
     Unmarshal := fun _ => unsupported;
     Decode := fun b =>
       if String.eqb (data b) "" then Ok {| llm.resp_ID := "r0"; llm.Choices := [] |}
       else Ok {| llm.resp_ID := "r1";
                  llm.Choices :=
                    [ {| llm.choice_Message :=
                           {| llm.Role := "assistant"; llm.Content := data b |};
                         llm.FinishReason := "stop" |} ] |} |}.
#[local] Existing Instance json_ChatResponse.

(** A chunk is its content between braces. *)
Definition json_StreamDelta : JSON llm.StreamDelta :=
  {| Marshal := fun _ => unsupported;
     Unmarshal := fun s =>
       if HasPrefix s "{" then
         Ok {| llm.delta_ID := "d";
               llm.delta_Choices :=
                 [ {| llm.Delta_Content := String.substring 1 (String.length s - 2) s;
                      llm.delta_FinishReason := "" |} ] |}
       else Err "invalid character";
     Decode := fun _ => unsupported |}.
#[local] Existing Instance json_StreamDelta.

(** An entry per line: the line is the entry's identifier. *)
Definition entry_of (line : string) : ingest.KnowledgeEntry :=
  {| ingest.ID := line; ingest.Module_ := "Leave"; ingest.Topic := "Topic " +:+ line;
     ingest.Roles := ["employee"]; ingest.QueryVariations := ["How?"; "Where?"];
     ingest.Answer := "See " +:+ line |}.

Definition json_entries : JSON (list ingest.KnowledgeEntry) :=
  {| Marshal := fun _ => unsupported;
     Unmarshal := fun s => Ok (map entry_of (split_lines s));
     Decode := fun _ => unsupported |}.
#[local] Existing Instance json_entries.

(** The services: the vector store, the embedding engine and the
    generator. *)
Record store := { present : bool; stored : nat }.

Definition client : vector.Client :=
  {| vector.baseURL := "http://localhost:6333";
     vector.collectionName := "knowledge_base";
     vector.vectorSize := 768 |}.

Definition ok (text : string) : Response :=
  {| StatusCode := 200; resp_Body := {| data := text; read_error := None |} |}.

Definition status (code : Z) : Response :=
  {| StatusCode := code; resp_Body := {| data := ""; read_error := None |} |}.

Definition stream_text : string :=
  Join [ "data: {Hel}"; ": keep-alive"; "data: oops"; "data: {lo}"; "data: [DONE]";
         "data: {never}" ] nl.

Definition serve (req : Request) (st : store) : result Response * store :=
  if String.eqb (url req) llm.ollamaEmbeddingURL then (Ok (ok "abc"), st)
  else if String.eqb (url req) llm.groqAPIURL then
    if HasPrefix (body req) "stream:" then (Ok (ok stream_text), st)
    else (Ok (ok "Open Leave, then New request."), st)
  else if String.eqb (url req) (vector.collectionURL client) then
    if String.eqb (method req) "GET" then
      (Ok (status (if present st then 200 else 404)), st)
    else if present st then (Ok (status 409), st)
    else (Ok (status 200), {| present := true; stored := 0 |})
  else if String.eqb (url req) (vector.collectionURL client +:+ "/points?wait=true") then
    if present st then
      (Ok (status 200), {| present := true; stored := S (stored st) |})
    else (Ok (status 404), st)
  else if String.eqb (url req) (vector.collectionURL client +:+ "/points/search") then
    (Ok (ok (if (0 <? stored st)%nat then "hits" else "none")), st)
  else (Err "dial tcp: connection refused", st).

(** A corpus of 23 entries. *)
Definition corpus : string :=
  Join (map (fun k => "kb-" +:+ fmt_d (Z.of_nat k)) (seq 1 23)) nl.

Definition remote : Remote store :=
  {| http_Do := serve;
     os_ReadFile := fun path st =>
       if String.eqb path "Knowledgebase.json" then (Ok corpus, st)
       else (Err ("open " +:+ path +:+ ": no such file or directory"), st) |}.
#[local] Existing Instance remote.

Definition world (st : store) : World store :=
  {| services := st; sent := []; logged := [] |}.

(** Nothing provisioned yet; provisioned and empty; provisioned and filled. *)
Definition fresh : World store := world {| present := false; stored := 0 |}.
Definition empty : World store := world {| present := true; stored := 0 |}.
Definition filled : World store := world {| present := true; stored := 3 |}.

Definition ingester : ingest.Service :=
  ingest.NewService (llm.NewEmbedder "") client.

Definition service : rag.Service :=
  rag.NewService (llm.NewClient "key") (llm.NewEmbedder "") client.

End demo.


(** * The rest of the program *)

(** ** Package vector: construction *)

Section VectorClient.
Context {St : Type} `{RM : Remote St}.




End VectorClient.

(** ** Package config *)

Module config.


End config.

(** ** Command ingest *)

Module cmd_ingest.
Section Main.
Context `{FL : Floats} `{FM : !Fmt} `{NU : NetURL}.
Context {St : Type} `{RM : Remote St}.
Context `{JOQ : JSON llm.OllamaRequest} `{JOR : JSON llm.OllamaResponse}.
Context `{JM : JSON (gmap string Value)} `{JE : JSON (list ingest.KnowledgeEntry)}.



End Main.
End cmd_ingest.

(** ** Command server *)

(** The double quote. *)
Definition dq : string := String "034"%char EmptyString.

Module server.

(** *** net/http on the serving side *)

(** [http.Header]: [Set] replaces the values of the key, [Get] gives the
    value, or the empty string. *)
Definition Header := list (string * string).

Definition Set_ (h : Header) (k v : string) : Header :=
  (filter (fun kv : string * string => kv.1 <> k) h ++ [(k, v)])%list.

Definition Get_ (h : Header) (k : string) : string :=
  match filter (fun kv : string * string => kv.1 = k) h with
  | kv :: _ => kv.2
  | [] => ""
  end.

(** [http.ResponseWriter], by what the client gets: the header map the
    handler works on; the status and the header as they went out, once they
    did; the bytes of the body so far; the number of flushes. The writer may
    be no [http.Flusher], and the connection may break after a number of
    writes. *)
Record ResponseWriter := {
  header : Header;
  wrote : option (Z * Header);
  written : string;
  flushes : nat;
  is_Flusher : bool;
  writes_left : option nat;
}.

(** [w.Header().Set(k, v)] *)
Definition Header_Set (w : ResponseWriter) (k v : string) : ResponseWriter :=
  {| header := Set_ (header w) k v; wrote := wrote w; written := written w;
     flushes := flushes w; is_Flusher := is_Flusher w; writes_left := writes_left w |}.

(** [w.WriteHeader(code)]: the first call sends the status and the header as
    it stands; later calls change nothing. *)
Definition WriteHeader (w : ResponseWriter) (code : Z) : ResponseWriter :=
  match wrote w with
  | Some _ => w
  | None =>
      {| header := header w; wrote := Some (code, header w); written := written w;
         flushes := flushes w; is_Flusher := is_Flusher w;
         writes_left := writes_left w |}
  end.

(** [w.Write(p)]: sends the header with status 200 if it has not gone out,
    then the bytes, unless the connection is broken. *)
Definition Write_ (w : ResponseWriter) (p : string) : option string * ResponseWriter :=
  let w := WriteHeader w StatusOK in
  match writes_left w with
  | Some O => (Some "write: broken pipe", w)
  | budget =>
      (None,
       {| header := header w; wrote := wrote w; written := written w +:+ p;
          flushes := flushes w; is_Flusher := is_Flusher w;
          writes_left := Nat.pred <$> budget |})
  end.

(** [f.Flush()] *)
Definition Flush (w : ResponseWriter) : ResponseWriter :=
  let w := WriteHeader w StatusOK in
  {| header := header w; wrote := wrote w; written := written w;
     flushes := S (flushes w); is_Flusher := is_Flusher w;
     writes_left := writes_left w |}.

(** [http.Error(w, error, code)] *)
Definition Error (w : ResponseWriter) (error : string) (code : Z) : ResponseWriter :=
  let w := Header_Set w "Content-Type" "text/plain; charset=utf-8" in
  let w := Header_Set w "X-Content-Type-Options" "nosniff" in
  let w := WriteHeader w code in
  (Write_ w (error +:+ nl)).2.

(** What the client gets when the handler has returned: the status and the
    header that went out, or, if the handler sent none, status 200 with the
    header as the handler left it. *)
Definition status (w : ResponseWriter) : Z :=
  match wrote w with
  | Some (code, _) => code
  | None => StatusOK
  end.

Definition sent_header (w : ResponseWriter) : Header :=
  match wrote w with
  | Some (_, h) => h
  | None => header w
  end.

(** [w'] is [w] after an error response went out on it: the status, the
    plain-text content type and the message on a line of its own. *)
Definition error_response (w w' : ResponseWriter) (code : Z) (msg : string) : Prop :=
  status w' = code
  /\ Get_ (sent_header w') "Content-Type" = "text/plain; charset=utf-8"
  /\ written w' = written w +:+ msg +:+ nl
  /\ flushes w' = flushes w.

(** The headers [corsMiddleware] sets. *)
Definition cors (h : Header) : Prop :=
  Get_ h "Access-Control-Allow-Origin" = "*"
  /\ Get_ h "Access-Control-Allow-Methods" = "GET, POST, OPTIONS"
  /\ Get_ h "Access-Control-Allow-Headers" = "Content-Type, Authorization".

Definition StatusBadRequest : Z := 400.
Definition StatusMethodNotAllowed : Z := 405.
Definition StatusInternalServerError : Z := 500.

(** An incoming request. *)
Record Request := { Method : string; Path : string; req_Body : Body }.

Section Handlers.
Context `{FL : Floats} `{FM : !Fmt} `{NU : NetURL} `{BF : Bufio}.
Context {St : Type} `{RM : Remote St}.
Context `{JOQ : JSON llm.OllamaRequest} `{JOR : JSON llm.OllamaResponse}.
Context `{JM : JSON (gmap string Value)} `{JS : JSON vector.searchResp}.
Context `{JCQ : JSON llm.ChatRequest} `{JCR : JSON llm.ChatResponse}.
Context `{JSD : JSON llm.StreamDelta}.

(** ChatRequest represents an incoming chat request. *)
Record ChatRequest := { Query : string; Stream : bool }.

(** Source is a simplified source reference. *)
Record Source := {
  ID : string;
  Module_ : string;
  Topic : string;
  Score : float32;
}.

(** ChatResponse represents the response. *)
Record ChatResponse := { Answer : string; Sources : list Source }.

Context `{JQ : JSON ChatRequest} `{JR : JSON ChatResponse}.

(** [json.NewEncoder(w).Encode(v)], its error dropped: the marshalled value
    and a line break are written, or nothing if the value does not marshal. *)
Definition Encode (w : ResponseWriter) (v : ChatResponse) : ResponseWriter :=
  match Marshal v with
  | Ok b => (Write_ w (b +:+ nl)).2
  | Err _ => w
  end.

(** flushWriter wraps a ResponseWriter and Flusher for streaming. *)
Definition flushWriter : Writer ResponseWriter :=
  {| Write := fun w p => let (err, w') := Write_ w p in (err, Flush w') |}.

Definition Handler : Type := ResponseWriter -> Request -> World St -> ResponseWriter * World St.

(** Health check endpoint *)
Definition healthHandler : Handler :=
  fun w r world =>
    let w := WriteHeader w StatusOK in
    ((Write_ w ("{" +:+ dq +:+ "status" +:+ dq +:+ ":" +:+ dq +:+ "ok" +:+ dq +:+ "}")).2,
     world).

Definition zeroSource : Source :=
  {| ID := ""; Module_ := ""; Topic := ""; Score := float32_zero |}.

(** Chat endpoint *)
Definition chatHandler (ragService : rag.Service) : Handler :=
  fun w r world =>
    if negb (String.eqb (Method r) "POST") then
      (Error w "Method not allowed" StatusMethodNotAllowed, world)
    else
      match Decode (A:=ChatRequest) (req_Body r) with
      | Err _ => (Error w "Invalid request body" StatusBadRequest, world)
      | Ok req =>
          if String.eqb (Query req) "" then
            (Error w "Query is required" StatusBadRequest, world)
          else if Stream req then
            (* Streaming response *)
            let w := Header_Set w "Content-Type" "text/event-stream" in
            let w := Header_Set w "Cache-Control" "no-cache" in
            let w := Header_Set w "Connection" "keep-alive" in
            if negb (is_Flusher w) then
              (Error w "Streaming not supported" StatusInternalServerError, world)
            else
              (* Create a writer that flushes after each write *)
              match rag.StreamQuery (WR:=flushWriter) ragService (Query req) w world with
              | ((Err e, w'), world') =>
                  (w', (log_Printf ("Stream error: " +:+ e) world').2)
              | ((Ok _, w'), world') => (w', world')
              end
          else
            (* Non-streaming response *)
            match rag.Query ragService (Query req) world with
            | (Err e, world') =>
                (Error w "Internal server error" StatusInternalServerError,
                 (log_Printf ("Query error: " +:+ e) world').2)
            | (Ok result, world') =>
                let sources :=
                  fill zeroSource
                       (fun _ s => {| ID := rag.src_ID s; Module_ := rag.src_Module s;
                                      Topic := rag.src_Topic s; Score := rag.src_Score s |})
                       (rag.Sources result) in
                let resp := {| Answer := rag.Answer result; Sources := sources |} in
                let w := Header_Set w "Content-Type" "application/json" in
                (Encode w resp, world')
            end
      end.

(** The sources of a result, as the response carries them. *)
Definition toSource (s : rag.Source) : Source :=
  {| ID := rag.src_ID s; Module_ := rag.src_Module s;
     Topic := rag.src_Topic s; Score := rag.src_Score s |}.

(** corsMiddleware adds CORS headers. *)
Definition corsMiddleware (next : Handler) : Handler :=
  fun w r world =>
    let w := Header_Set w "Access-Control-Allow-Origin" "*" in
    let w := Header_Set w "Access-Control-Allow-Methods" "GET, POST, OPTIONS" in
    let w := Header_Set w "Access-Control-Allow-Headers" "Content-Type, Authorization" in
    if String.eqb (Method r) "OPTIONS" then (WriteHeader w StatusOK, world)
    else next w r world.

End Handlers.
End server.

(** ** More requests *)

Section MoreCalls.
Context `{FL : Floats}.
Context {St : Type}.

(** The request that asks the embedding engine for a vector, [body] being
    the marshalled request. *)
Definition embedCall (body : string) : Request :=
  {| method := "POST";
     url := llm.ollamaEmbeddingURL;
     header := [("Content-Type", "application/json")];
     body := body |}.

(** The request that searches the collection of [c]. *)
Definition searchCall (c : vector.Client) (body : string) : Request :=
  {| method := "POST";
     url := vector.collectionURL c +:+ "/points/search";
     header := [("Content-Type", "application/json")];
     body := body |}.

(** The request of a text, as the embedder marshals it. *)
Definition embedRequest (e : llm.Embedder) (text : string) : llm.OllamaRequest :=
  {| llm.or_Model := llm.embedder_model e; llm.Prompt := llm.truncate text |}.

End MoreCalls.

(** ** What a computation sends *)

Section Sends.
Context {St : Type}.

(** [m] sends nothing but requests that satisfy [Q], whatever its outcome. *)
Definition sends_only {A} (Q : Request -> Prop) (m : M St A) : Prop :=
  forall w, exists l, sent (m w).2 = (sent w ++ l)%list /\ Forall Q l.

End Sends.



(** The inverse of the FNV prime modulo [2^64]. *)
Definition fnv_inverse_prime64 : Z := 14886173955864302971.


(** ** The test double, continued *)

(** The services of the test double behind a connection that carries a
    number of exchanges and then fails, as it does once the context is
    cancelled. *)
Module faulty.

Definition serve (req : Request) (st : nat * demo.store)
  : result Response * (nat * demo.store) :=
  match st.1 with
  | O => (Err "context canceled", st)
  | S n => let (r, s') := demo.serve req st.2 in (r, (n, s'))
  end.

Definition remote : Remote (nat * demo.store) :=
  {| http_Do := serve;
     os_ReadFile := fun path st =>
       if String.eqb path "Knowledgebase.json" then (Ok demo.corpus, st)
       else (Err ("open " +:+ path +:+ ": no such file or directory"), st) |}.

(** A provisioned store behind a connection that carries [n] exchanges. *)
Definition world (n stored : nat) : World (nat * demo.store) :=
  {| services := (n, {| demo.present := true; demo.stored := stored |});
     sent := []; logged := [] |}.

End faulty.

(** The server's side of the test double. *)
Module demo_server.

(** A chat request is its query after "query:" or, to be streamed, after
    "stream:". *)
Definition json_ChatRequest : JSON server.ChatRequest :=
  {| Marshal := fun _ => demo.unsupported;
     Unmarshal := fun _ => demo.unsupported;
     Decode := fun b =>
       if HasPrefix (data b) "query:"
       then Ok {| server.Query := TrimPrefix (data b) "query:"; server.Stream := false |}
       else if HasPrefix (data b) "stream:"
       then Ok {| server.Query := TrimPrefix (data b) "stream:"; server.Stream := true |}
       else Err "invalid character" |}.

(** A chat response is marshalled as its answer and the identifiers of its
    sources. *)
Definition json_ChatResponse : JSON (@server.ChatResponse demo.floats) :=
  {| Marshal := fun r =>
       Ok (server.Answer r +:+ " [" +:+ Join (map server.ID (server.Sources r)) "," +:+ "]");
     Unmarshal := fun _ => demo.unsupported;
     Decode := fun _ => demo.unsupported |}.

(** A response that has not started, on a connection that flushes and
    stays open. *)
Definition recorder : server.ResponseWriter :=
  {| server.header := []; server.wrote := None; server.written := "";
     server.flushes := 0; server.is_Flusher := true; server.writes_left := None |}.


(** The same on a connection that cannot flush. *)
Definition plain : server.ResponseWriter :=
  {| server.header := []; server.wrote := None; server.written := "";
     server.flushes := 0; server.is_Flusher := false; server.writes_left := None |}.

Definition post (text : string) : server.Request :=
  {| server.Method := "POST"; server.Path := "/chat";
     server.req_Body := {| data := text; read_error := None |} |}.

End demo_server.



(** * Properties *)

Local Open Scope list_scope.

(** ** The slice idiom *)

Lemma fill_from {A B : Type} (zero : B) (f : nat -> A -> B) (l : list A) :
  forall done : list B,
    fold_left (fun out ix => <[ix.1 := f ix.1 ix.2]> out)
              (imap (fun n x => (length done + n, x)%nat) l)
              (done ++ replicate (length l) zero)
    = done ++ imap (fun n => f (length done + n)%nat) l.
Proof.
  induction l as [|x l IH]; intros done; [reflexivity|].
  cbn [imap fold_left length replicate fst snd].
  rewrite insert_app_r. cbn [list_insert insert].
  replace (done ++ f (length done + 0)%nat x :: replicate (length l) zero)
    with ((done ++ [f (length done + 0)%nat x]) ++ replicate (length l) zero)
    by (rewrite <- app_assoc; reflexivity).
  specialize (IH (done ++ [f (length done + 0)%nat x])).
  rewrite length_app in IH. cbn [length] in IH.
  erewrite imap_ext; [rewrite IH|].
  - rewrite <- app_assoc. cbn [app]. f_equal. f_equal.
    apply imap_ext. intros i y _. cbn. f_equal. lia.
  - intros i y _. cbn. f_equal. lia.
Qed.

Lemma fill_imap {A B : Type} (zero : B) (f : nat -> A -> B) (l : list A) :
  fill zero f l = imap f l.
Proof.
  unfold fill. exact (fill_from zero f l []).
Qed.

Lemma fill_map {A B : Type} (zero : B) (f : A -> B) (l : list A) :
  fill zero (fun _ x => f x) l = map f l.
Proof.
  rewrite fill_imap. induction l as [|x l IH]; [reflexivity|].
  cbn. f_equal. exact IH.
Qed.

(** ** The numeric identifier of a string *)

Lemma fnv_Write_snoc (s : fnv.sum64a) (bs : list Z) (b : Z) :
  fnv.Write s (bs ++ [b]) = fnv.wrap64 (Z.lxor (fnv.Write s bs) b * fnv.prime64).
Proof.
  unfold fnv.Write. rewrite fold_left_app. reflexivity.
Qed.

Lemma fnv_Write_sound (bs : list Z) : fnv1a64 bs (fnv.Write fnv.New64a bs).
Proof.
  induction bs as [|b bs IH] using rev_ind.
  - exact fnv1a64_empty.
  - rewrite fnv_Write_snoc. exact (fnv1a64_snoc bs b _ IH).
Qed.

Lemma fnv_Write_complete (bs : list Z) (h : Z) :
  fnv1a64 bs h -> h = fnv.Write fnv.New64a bs.
Proof.
  induction 1 as [|bs b h _ IH].
  - reflexivity.
  - rewrite fnv_Write_snoc, <- IH. reflexivity.
Qed.

Lemma fnv_Write_range (bs : list Z) :
  0 <= fnv.Write fnv.New64a bs < 2 ^ 64.
Proof.
  induction bs as [|b bs _] using rev_ind.
  - cbv. split; [discriminate | reflexivity].
  - rewrite fnv_Write_snoc. unfold fnv.wrap64. apply Z.mod_pos_bound. lia.
Qed.

(** C1. [stringToNumericID] is a function of the bytes of its argument alone:
    its value is the FNV-1a 64-bit hash of those bytes, the one number the
    definition of FNV-1a relates to them, and it fits an unsigned 64-bit
    integer. *)
Theorem stringToNumericID_is_fnv1a64 (s : string) :
  fnv1a64 (bytes_of s) (stringToNumericID s)
  /\ (forall h, fnv1a64 (bytes_of s) h <-> h = stringToNumericID s)
  /\ 0 <= stringToNumericID s < 2 ^ 64.
Proof.
  unfold stringToNumericID, fnv.Sum64. cbv zeta.
  split; [apply fnv_Write_sound|]. split; [|apply fnv_Write_range].
  intros h. split.
  - apply fnv_Write_complete.
  - intros ->. apply fnv_Write_sound.
Qed.

Example stringToNumericID_empty : stringToNumericID "" = 0xcbf29ce484222325.
Proof. reflexivity. Qed.

Example stringToNumericID_a : stringToNumericID "a" = 0xaf63dc4c8601ec8c.
Proof. reflexivity. Qed.

Example stringToNumericID_foobar : stringToNumericID "foobar" = 0x85944171f73967e8.
Proof. reflexivity. Qed.

(** ** Batch embedding *)

Section EmbedProperties.
Context `{FL : Floats} `{NU : NetURL} `{BF : Bufio}.
Context {St : Type} `{RM : Remote St}.
Context `{JOQ : JSON llm.OllamaRequest} `{JOR : JSON llm.OllamaResponse}.

Lemma Embed_loop_cons (e : llm.Embedder) total text rest i embeddings (w : World St) :
  llm.Embed_loop e total (text :: rest) i embeddings w
  = match llm.embedSingle e text w with
    | (Ok emb, w1) =>
        llm.Embed_loop e total rest (S i) (<[i := emb]> embeddings)
                       (after_item total i w1)
    | (Err msg, w1) => (Err (wrap_err ("embed text " +:+ fmt_d (Z.of_nat i)) msg), w1)
    end.
Proof.
  cbn [llm.Embed_loop]. unfold bind at 1, wrap.
  destruct (llm.embedSingle e text w) as [[emb|msg] w1]; [|reflexivity].
  unfold bind, after_item.
  destruct ((Z.of_nat i + 1) mod 10 =? 0); reflexivity.
Qed.

(** The loop fills the slots from [i] on and leaves the earlier ones. *)
Lemma Embed_loop_ok (e : llm.Embedder) total rest :
  forall (done : list (list float32)) (w : World St) embs w',
    llm.Embed_loop e total rest (length done)
                   (done ++ replicate (length rest) []) w = (Ok embs, w')
    <-> exists tail, embs = done ++ tail
                     /\ embedded e total (length done) rest w tail w'.
Proof.
  induction rest as [|text rest IH]; intros done w embs w'.
  - cbn. unfold ret. rewrite app_nil_r. split.
    + intros [= <- <-]. exists []. rewrite app_nil_r. split; [reflexivity|constructor].
    + intros (tail & -> & Hrel). inversion Hrel; subst. now rewrite app_nil_r.
  - rewrite Embed_loop_cons.
    destruct (llm.embedSingle e text w) as [[emb|msg] w1] eqn:Hone.
    + cbn [length replicate].
      replace (length done) with (length done + 0)%nat at 2 by lia.
      rewrite insert_app_r. cbn [list_insert insert].
      replace (done ++ emb :: replicate (length rest) [])
        with ((done ++ [emb]) ++ replicate (length rest) [])
        by (rewrite <- app_assoc; reflexivity).
      replace (S (length done)) with (length (done ++ [emb]))
        by (rewrite length_app; cbn; lia).
      rewrite IH. split.
      * intros (tail & -> & Hrel). exists (emb :: tail).
        rewrite <- app_assoc. split; [reflexivity|].
        econstructor; [exact Hone|].
        rewrite length_app in Hrel. cbn in Hrel.
        now replace (length done + 1)%nat with (S (length done)) in Hrel by lia.
      * intros (tail & -> & Hrel). inversion Hrel; subst.
        match goal with H : llm.embedSingle _ _ _ = (Ok _, _) |- _ =>
          rewrite Hone in H; injection H as <- <- end.
        eexists. rewrite <- app_assoc. split; [reflexivity|].
        rewrite length_app. cbn.
        now replace (length done + 1)%nat with (S (length done)) by lia.
    + split; [discriminate|].
      intros (tail & _ & Hrel). inversion Hrel; subst. congruence.
Qed.

Lemma Embed_ok (e : llm.Embedder) (texts : list string) (w : World St) embs w' :
  llm.Embed e texts w = (Ok embs, w')
  <-> embedded e (length texts) 0 texts w embs w'.
Proof.
  unfold llm.Embed.
  rewrite (Embed_loop_ok e (length texts) texts [] w embs w'). cbn. split.
  - now intros (tail & -> & H).
  - intros H. now exists embs.
Qed.

Lemma embedded_length (e : llm.Embedder) total i texts (w : World St) embs w' :
  embedded e total i texts w embs w' -> length embs = length texts.
Proof.
  induction 1; cbn; congruence.
Qed.

(** Output position [k] holds the vector of the single-text call made for
    input text [k]. *)
Lemma embedded_lookup (e : llm.Embedder) total i texts (w : World St) embs w' :
  embedded e total i texts w embs w' ->
  forall k text, texts !! k = Some text ->
    exists emb wk wk', embs !! k = Some emb
                       /\ llm.embedSingle e text wk = (Ok emb, wk').
Proof.
  induction 1 as [|i text0 rest w emb w1 embs w2 Hone _ IH]; intros k text Hk.
  - destruct k; discriminate.
  - destruct k as [|k]; cbn in Hk.
    + injection Hk as <-. now exists emb, w, w1.
    + destruct (IH k text Hk) as (emb' & wk & wk' & ? & ?). now exists emb', wk, wk'.
Qed.

(** The loop fails exactly when some item's call fails after the calls of
    all the items before it succeeded, and reports that item's index. *)
Lemma Embed_loop_err (e : llm.Embedder) total rest :
  forall (done : list (list float32)) (w : World St) msg w',
    llm.Embed_loop e total rest (length done)
                   (done ++ replicate (length rest) []) w = (Err msg, w')
    <-> exists k text before wk msg0,
          rest !! k = Some text
          /\ embedded e total (length done) (take k rest) w before wk
          /\ llm.embedSingle e text wk = (Err msg0, w')
          /\ msg = wrap_err ("embed text " +:+ fmt_d (Z.of_nat (length done + k))) msg0.
Proof.
  induction rest as [|text rest IH]; intros done w msg w'.
  - cbn. unfold ret. split; [discriminate|].
    intros (k & text & _ & _ & _ & Hk & _). destruct k; discriminate.
  - rewrite Embed_loop_cons.
    destruct (llm.embedSingle e text w) as [[emb|msg1] w1] eqn:Hone.
    + cbn [length replicate].
      replace (length done) with (length done + 0)%nat at 2 by lia.
      rewrite insert_app_r. cbn [list_insert insert].
      replace (done ++ emb :: replicate (length rest) [])
        with ((done ++ [emb]) ++ replicate (length rest) [])
        by (rewrite <- app_assoc; reflexivity).
      replace (S (length done)) with (length (done ++ [emb]))
        by (rewrite length_app; cbn; lia).
      rewrite IH. rewrite length_app. cbn [length]. split.
      * intros (k & t & before & wk & msg0 & Hk & Hrel & Hfail & ->).
        exists (S k), t, (emb :: before), wk, msg0. cbn [take lookup list_lookup].
        repeat split; [exact Hk| |exact Hfail|do 4 f_equal; lia].
        econstructor; [exact Hone|].
        now replace (S (length done)) with (length done + 1)%nat by lia.
      * intros (k & t & before & wk & msg0 & Hk & Hrel & Hfail & ->).
        destruct k as [|k]; cbn in Hk, Hrel.
        -- inversion Hrel; subst. congruence.
        -- inversion Hrel; subst.
           match goal with H : llm.embedSingle _ _ _ = (Ok _, _) |- _ =>
             rewrite Hone in H; injection H as <- <- end.
           exists k, t, embs, wk, msg0.
           repeat split; [exact Hk| |exact Hfail|do 4 f_equal; lia].
           now replace (length done + 1)%nat with (S (length done)) by lia.
    + split.
      * intros [= <- <-]. exists 0%nat, text, [], w, msg1. cbn.
        repeat split; [constructor|exact Hone|].
        now replace (length done + 0)%nat with (length done) by lia.
      * intros (k & t & before & wk & msg0 & Hk & Hrel & Hfail & ->).
        destruct k as [|k]; cbn in Hk, Hrel.
        -- inversion Hrel; subst. injection Hk as <-.
           rewrite Hone in Hfail. injection Hfail as <- <-.
           now replace (length done + 0)%nat with (length done) by lia.
        -- inversion Hrel; subst. congruence.
Qed.

Lemma Embed_err (e : llm.Embedder) (texts : list string) (w : World St) msg w' :
  llm.Embed e texts w = (Err msg, w')
  <-> exists k text before wk msg0,
        texts !! k = Some text
        /\ embedded e (length texts) 0 (take k texts) w before wk
        /\ llm.embedSingle e text wk = (Err msg0, w')
        /\ msg = wrap_err ("embed text " +:+ fmt_d (Z.of_nat k)) msg0.
Proof.
  unfold llm.Embed.
  exact (Embed_loop_err e (length texts) texts [] w msg w').
Qed.

(** C5. Batch embedding succeeds exactly when every text, taken in order, is
    embedded by its own successful single-text call; it then returns one
    vector per text, the vector at position [k] being the one returned for
    text [k]. It fails exactly when the call for some text fails after the
    calls for the texts before it succeeded; the outcome is then that error,
    tagged with the index of the text, and carries no vector at all. *)
Theorem Embed_one_vector_per_text_or_error (e : llm.Embedder) (texts : list string)
    (w : World St) :
  (forall embs w',
      llm.Embed e texts w = (Ok embs, w')
      <-> embedded e (length texts) 0 texts w embs w')
  /\ (forall embs w',
        llm.Embed e texts w = (Ok embs, w') ->
        length embs = length texts
        /\ forall k text, texts !! k = Some text ->
             exists emb wk wk', embs !! k = Some emb
                                /\ llm.embedSingle e text wk = (Ok emb, wk'))
  /\ (forall msg w',
        llm.Embed e texts w = (Err msg, w')
        <-> exists k text before wk msg0,
              texts !! k = Some text
              /\ embedded e (length texts) 0 (take k texts) w before wk
              /\ llm.embedSingle e text wk = (Err msg0, w')
              /\ msg = wrap_err ("embed text " +:+ fmt_d (Z.of_nat k)) msg0).
Proof.
  split; [|split].
  - intros embs w'. apply Embed_ok.
  - intros embs w' H. apply Embed_ok in H. split.
    + exact (embedded_length _ _ _ _ _ _ _ H).
    + exact (embedded_lookup _ _ _ _ _ _ _ H).
  - intros msg w'. apply Embed_err.
Qed.

End EmbedProperties.

(** ** Tactics for the monadic code *)

(** Runs the monadic code of a goal or hypothesis down to its cases. *)
Ltac munfold :=
  unfold bind, wrap, lift, ret, fail, log_Printf in *; cbn beta iota zeta in *.

Ltac no_inner_case x :=
  lazymatch x with
  | context [match _ with Ok _ => _ | Err _ => _ end] => fail
  | context [match _ with (_, _) => _ end] => fail
  | context [match _ with Some _ => _ | None => _ end] => fail
  | context [if _ then _ else _] => fail
  | _ => idtac
  end.

Ltac mcase :=
  match goal with
  | |- context [match ?x with Ok _ => _ | Err _ => _ end] =>
      no_inner_case x; let E := fresh "E" in destruct x eqn:E
  | |- context [match ?x with (_, _) => _ end] =>
      no_inner_case x; let E := fresh "E" in destruct x eqn:E
  | |- context [if ?x then _ else _] =>
      no_inner_case x; let E := fresh "E" in destruct x eqn:E
  | |- context [match ?x with Some _ => _ | None => _ end] =>
      no_inner_case x; let E := fresh "E" in destruct x eqn:E
  end; cbn beta iota zeta.

(** ** Truncation before embedding *)

Section TruncateProperties.
Context `{FL : Floats} `{NU : NetURL} `{BF : Bufio}.
Context {St : Type} `{RM : Remote St}.
Context `{JOQ : JSON llm.OllamaRequest} `{JOR : JSON llm.OllamaResponse}.

Lemma str_take_length (n : nat) (s : string) :
  (n <= String.length s)%nat -> String.length (str_take n s) = n.
Proof.
  revert s. induction n as [|n IH]; intros [|c s] Hn; cbn in *; try lia.
  f_equal. apply IH. lia.
Qed.

Lemma str_take_prefix (n : nat) (s : string) :
  exists rest, s = str_take n s +:+ rest.
Proof.
  revert s. induction n as [|n IH]; intros s.
  - exists s. now destruct s.
  - destruct s as [|c s]; [now exists ""|].
    destruct (IH s) as [rest Hrest]. exists rest.
    change (String c s = String c (str_take n s +:+ rest)). now rewrite <- Hrest.
Qed.

(** A single-text call sends at most one request, a POST to the embedding
    engine whose body is the marshalled request with the truncated text as
    prompt. *)
Lemma embedSingle_sent (e : llm.Embedder) (text : string) (w : World St) r w' :
  llm.embedSingle e text w = (r, w') ->
  exists new,
    sent w' = sent w ++ new /\ logged w' = logged w /\ (length new <= 1)%nat
    /\ forall req, In req new ->
         method req = "POST" /\ url req = llm.ollamaEmbeddingURL
         /\ Marshal {| llm.or_Model := llm.embedder_model e;
                       llm.Prompt := llm.truncate text |} = Ok (body req).
Proof.
  unfold llm.embedSingle. munfold. unfold NewRequestWithContext, Do.
  repeat mcase; intros [= <- <-]; cbn.
  all: first
    [ solve [exists []; rewrite app_nil_r; split_and!;
             [reflexivity | reflexivity | cbn; lia | intros ? []]]
    | eexists [_]; split_and!;
      [reflexivity | reflexivity | cbn; lia
      | intros req [<-|[]]; cbn; split_and!; congruence] ].
Qed.

Lemma truncate_long (text : string) :
  8000 < Z.of_nat (String.length text) ->
  llm.truncate text = str_take (Z.to_nat 8000) text
  /\ Z.of_nat (String.length (llm.truncate text)) = 8000
  /\ exists rest, text = llm.truncate text +:+ rest.
Proof.
  intros Hlen. unfold llm.truncate.
  destruct (Z.ltb_spec 8000 (Z.of_nat (String.length text))) as [_|]; [|lia].
  split_and!.
  - reflexivity.
  - rewrite str_take_length; lia.
  - apply str_take_prefix.
Qed.

Lemma truncate_short (text : string) :
  Z.of_nat (String.length text) <= 8000 -> llm.truncate text = text.
Proof.
  intros Hlen. unfold llm.truncate.
  destruct (Z.ltb_spec 8000 (Z.of_nat (String.length text))); [lia|reflexivity].
Qed.

(** C6, as the code has it. The budget counts bytes: a text longer than 8000
    bytes is cut to exactly its first 8000 bytes, a text of 8000 bytes or
    fewer is left as it is, and the request a single-text call sends carries
    that text, and no other, as its prompt. *)
Theorem embedSingle_truncates_to_8000_bytes (e : llm.Embedder) (text : string)
    (w : World St) :
  (8000 < Z.of_nat (String.length text) ->
     llm.truncate text = str_take (Z.to_nat 8000) text
     /\ Z.of_nat (String.length (llm.truncate text)) = 8000
     /\ exists rest, text = llm.truncate text +:+ rest)
  /\ (Z.of_nat (String.length text) <= 8000 -> llm.truncate text = text)
  /\ (forall r w',
        llm.embedSingle e text w = (r, w') ->
        exists new,
          sent w' = sent w ++ new /\ (length new <= 1)%nat
          /\ forall req, In req new ->
               method req = "POST" /\ url req = llm.ollamaEmbeddingURL
               /\ Marshal {| llm.or_Model := llm.embedder_model e;
                             llm.Prompt := llm.truncate text |} = Ok (body req)).
Proof.
  split_and!.
  - apply truncate_long.
  - apply truncate_short.
  - intros r w' Hrun.
    destruct (embedSingle_sent e text w r w' Hrun) as (new & ? & _ & ? & ?).
    now exists new.
Qed.

End TruncateProperties.

(** C6, as the specification words it, fails on a text of 4001 two-byte
    characters: it has no more than 8000 characters, and yet it is cut, to its
    first 4000 characters. *)
Lemma truncate_cuts_4001_characters :
  let text := str_repeat 4001 e_acute in
  Z.of_nat (rune_count text) = 4001
  /\ Z.of_nat (rune_count text) <= 8000
  /\ llm.truncate text <> text
  /\ llm.truncate text = str_repeat 4000 e_acute.
Proof.
  cbv zeta. split_and!.
  - vm_compute. reflexivity.
  - vm_compute. discriminate.
  - intros H. apply (f_equal (fun s => Z.of_nat (String.length s))) in H.
    vm_compute in H. discriminate.
  - vm_compute. reflexivity.
Qed.

(** ** The text and the point of an entry *)

Lemma str_app_assoc (a b c : string) : (a +:+ b) +:+ c = a +:+ (b +:+ c).
Proof.
  induction a as [|x a IH]; [reflexivity|].
  change (String x ((a +:+ b) +:+ c) = String x (a +:+ (b +:+ c))).
  f_equal. exact IH.
Qed.

Lemma str_app_nil_r (a : string) : a +:+ "" = a.
Proof.
  induction a as [|x a IH]; [reflexivity|].
  change (String x (a +:+ "") = String x a). f_equal. exact IH.
Qed.

Lemma entryToText_eq (entry : ingest.KnowledgeEntry) :
  ingest.entryToText entry
  = "Module: " +:+ ingest.Module_ entry +:+ nl +:+ "Topic: " +:+ ingest.Topic entry
    +:+ nl +:+ "Questions: " +:+ Join (ingest.QueryVariations entry) "; "
    +:+ nl +:+ "Answer: " +:+ ingest.Answer entry.
Proof.
  unfold ingest.entryToText, WriteString. cbv zeta.
  rewrite !str_app_assoc. reflexivity.
Qed.

Section BatchProperties.
Context `{FL : Floats} `{NU : NetURL} `{BF : Bufio}.
Context {St : Type} `{RM : Remote St}.
Context `{JOQ : JSON llm.OllamaRequest} `{JOR : JSON llm.OllamaResponse}.
Context `{JM : JSON (gmap string Value)} `{JE : JSON (list ingest.KnowledgeEntry)}.

Lemma entryPayload_fields (entry : ingest.KnowledgeEntry) (text : string) :
  let payload := ingest.entryPayload entry text in
  payload !! "id" = Some (VString (ingest.ID entry))
  /\ payload !! "module" = Some (VString (ingest.Module_ entry))
  /\ payload !! "topic" = Some (VString (ingest.Topic entry))
  /\ payload !! "roles" = Some (VStrings (ingest.Roles entry))
  /\ payload !! "query_variations" = Some (VStrings (ingest.QueryVariations entry))
  /\ payload !! "answer" = Some (VString (ingest.Answer entry))
  /\ payload !! "text" = Some (VString text).
Proof.
  cbv zeta. unfold ingest.entryPayload. split_and!; by simplify_map_eq.
Qed.

(** The points of a batch, once the batch is embedded. *)
Lemma batch_points (entries : list ingest.KnowledgeEntry)
    (embeddings : list (list float32)) :
  length embeddings = length entries ->
  fill ingest.zeroPoint
    (fun i entry =>
       {| vector.ID := ingest.ID entry;
          vector.Vector := ingest.index [] embeddings i;
          vector.Payload :=
            ingest.entryPayload entry
              (ingest.index "" (fill "" (fun _ e => ingest.entryToText e) entries) i) |})
    entries
  = zip_with entryPoint entries embeddings.
Proof.
  intros Hlen. rewrite fill_imap, fill_map. apply list_eq. intros i.
  rewrite list_lookup_imap, lookup_zip_with. unfold ingest.index.
  destruct (entries !! i) as [entry|] eqn:Hi; [|reflexivity]. cbn.
  rewrite list_lookup_fmap, Hi. cbn.
  destruct (embeddings !! i) as [emb|] eqn:Hemb; [reflexivity|].
  apply lookup_ge_None in Hemb. apply lookup_lt_Some in Hi. lia.
Qed.

(** [processBatch] embeds the texts of the entries and upserts their
    points. *)
Lemma processBatch_run (s : ingest.Service) (entries : list ingest.KnowledgeEntry)
    (w : World St) :
  ingest.processBatch s entries w
  = match llm.Embed (ingest.embedder s) (map ingest.entryToText entries) w with
    | (Ok embeddings, w1) =>
        wrap "upsert points"
             (vector.UpsertPoints (ingest.vectorClient s)
                                  (zip_with entryPoint entries embeddings)) w1
    | (Err msg, w1) => (Err (wrap_err "embed texts" msg), w1)
    end.
Proof.
  unfold ingest.processBatch. rewrite fill_map. unfold bind at 1. unfold wrap at 1.
  destruct (llm.Embed _ _ w) as [[embeddings|msg] w1] eqn:HE; [|reflexivity].
  apply Embed_ok, embedded_length in HE. rewrite length_map in HE.
  rewrite <- (fill_map "" ingest.entryToText entries).
  now rewrite (batch_points entries embeddings HE).
Qed.

End BatchProperties.

(** ** Batches *)

Lemma batches_prefix {A} (entries : list A) (m : nat) :
  concat (map (fun k => take 10 (drop (10 * k) entries)) (seq 0 m))
  = take (10 * m) entries.
Proof.
  induction m as [|m IH]; [reflexivity|].
  rewrite seq_S, map_app, concat_app, IH. cbn [map concat Nat.add].
  rewrite app_nil_r, take_take_drop. f_equal. lia.
Qed.

Lemma batch_count_covers (n : nat) : (n <= 10 * batch_count n < n + 10)%nat.
Proof.
  unfold batch_count.
  pose proof (Nat.div_mod_eq (n + 9) 10).
  pose proof (Nat.mod_upper_bound (n + 9) 10). lia.
Qed.

Lemma batches_concat {A} (entries : list A) : concat (batches entries) = entries.
Proof.
  unfold batches. rewrite batches_prefix. apply take_ge.
  pose proof (batch_count_covers (length entries)). lia.
Qed.

Lemma batches_length {A} (entries : list A) :
  length (batches entries) = batch_count (length entries).
Proof.
  unfold batches. now rewrite length_map, length_seq.
Qed.

Lemma batches_lookup {A} (entries : list A) (k : nat) :
  (k < batch_count (length entries))%nat ->
  batches entries !! k = Some (take 10 (drop (10 * k) entries)).
Proof.
  intros Hk. unfold batches. rewrite list_lookup_fmap.
  rewrite lookup_seq_lt by exact Hk. reflexivity.
Qed.


Section IngestProperties.
Context `{FL : Floats} `{NU : NetURL} `{BF : Bufio}.
Context {St : Type} `{RM : Remote St}.
Context `{JOQ : JSON llm.OllamaRequest} `{JOR : JSON llm.OllamaResponse}.
Context `{JM : JSON (gmap string Value)} `{JE : JSON (list ingest.KnowledgeEntry)}.

Lemma batch_loop_end (s : ingest.Service) entries (i : nat) (w : World St) :
  (length entries <= i)%nat -> ingest.batch_loop s entries i w = (Ok tt, w).
Proof.
  intros Hi. rewrite ingest.batch_loop_equation_1.
  destruct (decide (i < length entries)%nat) as [Hlt|Hge]; [lia|reflexivity].
Qed.

Lemma batch_loop_step (s : ingest.Service) entries (k : nat) (w : World St) :
  (10 * k < length entries)%nat ->
  ingest.batch_loop s entries (10 * k) w
  = match ingest.processBatch s (take 10 (drop (10 * k) entries)) w with
    | (Ok _, w1) =>
        ingest.batch_loop s entries (10 * S k) (after_batch (length entries) k w1)
    | (Err msg, w1) =>
        (Err (wrap_err ("process batch " +:+ fmt_d (Z.of_nat k)) msg), w1)
    end.
Proof.
  intros Hk. rewrite ingest.batch_loop_equation_1.
  destruct (decide (10 * k < length entries)%nat) as [Hlt|Hge]; [|lia].
  rewrite ingest.batch_loop_clause_1_equation_1. cbv zeta.
  unfold ingest.batchSize, ingest.slice.
  assert (Hslice :
    take ((if (length entries <? 10 * k + 10)%nat then length entries
           else (10 * k + 10)%nat) - 10 * k) (drop (10 * k) entries)
    = take 10 (drop (10 * k) entries)).
  { destruct (Nat.ltb_spec (length entries) (10 * k + 10)).
    - rewrite !take_ge; [reflexivity| |]; rewrite length_drop; lia.
    - f_equal. lia. }
  rewrite Hslice.
  assert (Hdiv : ((10 * k) / 10 = k)%nat)
    by (rewrite Nat.mul_comm; apply Nat.div_mul; lia).
  rewrite Hdiv.
  destruct (ingest.processBatch s _ w) as [[[]|msg] w1]; [|reflexivity].
  unfold bind, log_Printf, after_batch, batch_count.
  replace (length entries + 10 - 1)%nat with (length entries + 9)%nat by lia.
  replace (10 * k + 10)%nat with (10 * S k)%nat by lia.
  reflexivity.
Qed.

Lemma batches_drop_cons {A} (entries : list A) (k : nat) :
  (10 * k < length entries)%nat ->
  drop k (batches entries)
  = take 10 (drop (10 * k) entries) :: drop (S k) (batches entries).
Proof.
  intros Hk.
  assert (Hc : (k < batch_count (length entries))%nat).
  { pose proof (batch_count_covers (length entries)). lia. }
  pose proof (batches_lookup entries k Hc) as Hl.
  now rewrite (drop_S _ _ _ Hl).
Qed.

Lemma batches_drop_nil {A} (entries : list A) (k : nat) :
  (length entries <= 10 * k)%nat -> drop k (batches entries) = [].
Proof.
  intros Hk. apply drop_ge. rewrite batches_length.
  pose proof (batch_count_covers (length entries)). lia.
Qed.

(** The loop, entered at the start of batch [k], succeeds exactly when the
    batches from [k] on are processed in order, each with success. *)
Lemma batch_loop_ok (s : ingest.Service) entries :
  forall (m k : nat) (w w' : World St),
    (batch_count (length entries) - k <= m)%nat ->
    ingest.batch_loop s entries (10 * k) w = (Ok tt, w')
    <-> batches_done s (length entries) k (drop k (batches entries)) w w'.
Proof.
  induction m as [|m IH]; intros k w w' Hm.
  - assert (Hk : (length entries <= 10 * k)%nat).
    { pose proof (batch_count_covers (length entries)). lia. }
    rewrite (batch_loop_end s entries _ w Hk), (batches_drop_nil entries k Hk).
    split.
    + intros [= <-]. constructor.
    + intros H. inversion H; subst. reflexivity.
  - destruct (Nat.lt_ge_cases (10 * k) (length entries)) as [Hk|Hk].
    + rewrite (batch_loop_step s entries k w Hk), (batches_drop_cons entries k Hk).
      generalize (take 10 (drop (10 * k) entries)). intros b0.
      destruct (ingest.processBatch s _ w) as [[[]|msg] w1] eqn:Hb.
      * rewrite (IH (S k)) by lia. split.
        -- intros H. econstructor; eassumption.
        -- intros H. inversion H; subst. congruence.
      * split; [discriminate|]. intros H. inversion H; subst. congruence.
    + rewrite (batch_loop_end s entries _ w Hk), (batches_drop_nil entries k Hk).
      split.
      * intros [= <-]. constructor.
      * intros H. inversion H; subst. reflexivity.
Qed.


(** *** The requests of a run *)

Lemma after_item_sent total i (w : World St) :
  sent (after_item total i w) = sent w.
Proof.
  unfold after_item. now destruct (_ =? _).
Qed.

Lemma embedded_posts (e : llm.Embedder) total i texts (w : World St) embs w' :
  embedded e total i texts w embs w' ->
  exists new, sent w' = sent w ++ new /\ Forall (fun r => method r = "POST") new.
Proof.
  induction 1 as [i w|i text rest w emb w1 embs w2 Hone _ IH].
  - exists []. now rewrite app_nil_r.
  - destruct (embedSingle_sent e text w _ _ Hone) as (new1 & Hs1 & _ & _ & Hposts).
    destruct IH as (new2 & Hs2 & Hall). rewrite after_item_sent in Hs2.
    exists (new1 ++ new2). split.
    + now rewrite Hs2, Hs1, app_assoc.
    + apply Forall_app. split; [|exact Hall].
      apply Forall_forall. intros r Hr. apply list_elem_of_In in Hr.
      now destruct (Hposts r Hr).
Qed.

Lemma UpsertPoints_sent (c : vector.Client) (points : list vector.Point)
    (w : World St) r w' :
  vector.UpsertPoints c points w = (r, w') ->
  exists new, sent w' = sent w ++ new
              /\ (new = [] \/ new = [upsertCall c points])
              /\ (r = Ok tt -> new = [upsertCall c points]).
Proof.
  unfold vector.UpsertPoints. munfold. unfold NewRequestWithContext, Do.
  repeat mcase; intros [= <- <-]; cbn.
  all: first
    [ solve [exists []; rewrite app_nil_r; split_and!;
             [reflexivity | now left | discriminate]]
    | eexists [_]; split_and!; [reflexivity | now right | reflexivity] ].
Qed.

Lemma filter_posts (c : vector.Client) (reqs : list Request) :
  Forall (fun r => method r = "POST") reqs ->
  filter (fun r => is_upsert c r = true) reqs = [].
Proof.
  induction 1 as [|r reqs Hr _ IH]; [reflexivity|].
  rewrite filter_cons_False; [exact IH|].
  unfold is_upsert. rewrite Hr. discriminate.
Qed.

Lemma filter_upsertCall (c : vector.Client) (points : list vector.Point) :
  filter (fun r => is_upsert c r = true) [upsertCall c points]
  = [upsertCall c points].
Proof.
  rewrite filter_cons_True; [reflexivity|].
  unfold is_upsert. cbn [method url upsertCall].
  rewrite !String.eqb_refl. reflexivity.
Qed.

(** A batch processed with success makes exactly one upsert call, which
    carries the points of the entries of the batch. *)
Lemma processBatch_upsert (s : ingest.Service) (b : list ingest.KnowledgeEntry)
    (w w1 : World St) :
  ingest.processBatch s b w = (Ok tt, w1) ->
  exists vecs new,
    length vecs = length b
    /\ sent w1 = sent w ++ new
    /\ filter (fun r => is_upsert (ingest.vectorClient s) r = true) new
       = [upsertCall (ingest.vectorClient s) (zip_with entryPoint b vecs)].
Proof.
  rewrite processBatch_run.
  destruct (llm.Embed _ _ w) as [[vecs|msg] w0] eqn:HE; [|discriminate].
  apply Embed_ok in HE.
  pose proof (embedded_length _ _ _ _ _ _ _ HE) as Hlen. rewrite length_map in Hlen.
  destruct (embedded_posts _ _ _ _ _ _ _ HE) as (posts & Hs0 & Hposts).
  unfold wrap.
  destruct (vector.UpsertPoints _ _ w0) as [[[]|msg] w2] eqn:HU; [|discriminate].
  intros [= <-].
  destruct (UpsertPoints_sent _ _ _ _ _ HU) as (new & Hs2 & _ & Hnew).
  rewrite (Hnew eq_refl) in Hs2.
  exists vecs, (posts ++ [upsertCall (ingest.vectorClient s) (zip_with entryPoint b vecs)]).
  split_and!; [exact Hlen|now rewrite Hs2, Hs0, app_assoc|].
  rewrite filter_app, (filter_posts _ _ Hposts), filter_upsertCall. reflexivity.
Qed.

(** The upsert calls of batches processed with success: one per batch, in
    the order of the batches. *)
Lemma batches_done_upserts (s : ingest.Service) n k bs (w w' : World St) :
  batches_done s n k bs w w' ->
  exists vecss new,
    Forall2 (fun b vecs => length vecs = length b) bs vecss
    /\ sent w' = sent w ++ new
    /\ filter (fun r => is_upsert (ingest.vectorClient s) r = true) new
       = zip_with (fun b vecs =>
                     upsertCall (ingest.vectorClient s) (zip_with entryPoint b vecs))
                  bs vecss.
Proof.
  induction 1 as [k w|k b rest w w1 w2 Hb _ IH].
  - exists [], []. rewrite app_nil_r. split_and!; [constructor|reflexivity|reflexivity].
  - destruct (processBatch_upsert s b w w1 Hb) as (vecs & new1 & Hlen & Hs1 & Hf1).
    destruct IH as (vecss & new2 & Hall & Hs2 & Hf2). cbn [after_batch sent] in Hs2.
    exists (vecs :: vecss), (new1 ++ new2). split_and!.
    + now constructor.
    + now rewrite Hs2, Hs1, app_assoc.
    + rewrite filter_app, Hf1, Hf2. reflexivity.
Qed.

Lemma sent_since_app (w w' : World St) (new : list Request) :
  sent w' = sent w ++ new -> sent_since w w' = new.
Proof.
  intros H. unfold sent_since. rewrite H. apply drop_app_length.
Qed.

Lemma IngestJSONFile_run (s : ingest.Service) (filePath : string)
    (w w0 : World St) data entries :
  ReadFile filePath w = (Ok data, w0) ->
  Unmarshal data = Ok entries ->
  ingest.IngestJSONFile s filePath w
  = ingest.batch_loop s entries 0 (after_load (length entries) filePath w0).
Proof.
  intros Hread Hparse. unfold ingest.IngestJSONFile. munfold.
  rewrite Hread, Hparse. reflexivity.
Qed.


(** C8. The text of an entry is "Module: ", the module, a line break,
    "Topic: ", the topic, a line break, "Questions: ", the query variations
    joined, a line break, "Answer: " and the answer. A batch is processed by
    embedding the texts of its entries and upserting, for each entry and its
    vector, a point with the entry's identifier, whose payload holds the
    entry's id, module, topic, roles, query variations and answer, and that
    text. *)
Theorem entry_text_and_point (s : ingest.Service)
    (entries : list ingest.KnowledgeEntry) (w : World St) :
  (forall entry,
      ingest.entryToText entry
      = "Module: " +:+ ingest.Module_ entry +:+ nl +:+ "Topic: " +:+ ingest.Topic entry
        +:+ nl +:+ "Questions: " +:+ Join (ingest.QueryVariations entry) "; "
        +:+ nl +:+ "Answer: " +:+ ingest.Answer entry)
  /\ ingest.processBatch s entries w
     = match llm.Embed (ingest.embedder s) (map ingest.entryToText entries) w with
       | (Ok embeddings, w1) =>
           wrap "upsert points"
                (vector.UpsertPoints (ingest.vectorClient s)
                                     (zip_with entryPoint entries embeddings)) w1
       | (Err msg, w1) => (Err (wrap_err "embed texts" msg), w1)
       end
  /\ (forall entry vec,
        let p := entryPoint entry vec in
        vector.ID p = ingest.ID entry
        /\ vector.Vector p = vec
        /\ vector.Payload p !! "id" = Some (VString (ingest.ID entry))
        /\ vector.Payload p !! "module" = Some (VString (ingest.Module_ entry))
        /\ vector.Payload p !! "topic" = Some (VString (ingest.Topic entry))
        /\ vector.Payload p !! "roles" = Some (VStrings (ingest.Roles entry))
        /\ vector.Payload p !! "query_variations"
           = Some (VStrings (ingest.QueryVariations entry))
        /\ vector.Payload p !! "answer" = Some (VString (ingest.Answer entry))
        /\ vector.Payload p !! "text" = Some (VString (ingest.entryToText entry))
        /\ vector.qdrantPoint p !! "payload" = Some (VMap (vector.Payload p))).
Proof.
  split_and!.
  - apply entryToText_eq.
  - apply processBatch_run.
  - intros entry vec p.
    split; [reflexivity|]. split; [reflexivity|].
    pose proof (entryPayload_fields entry (ingest.entryToText entry)) as H.
    cbv zeta in H. destruct H as (? & ? & ? & ? & ? & ? & ?).
    split_and!; try assumption.
    unfold vector.qdrantPoint. by simplify_map_eq.
Qed.

End IngestProperties.

(** ** Streaming generation *)

Section StreamProperties.
Context `{FL : Floats} `{NU : NetURL} `{BF : Bufio}.
Context {St : Type} `{RM : Remote St}.
Context `{JCQ : JSON llm.ChatRequest} `{JSD : JSON llm.StreamDelta}.

Section AnyWriter.
Context {W : Type} `{WR : Writer W}.

Lemma deliver_app (a b : list string) (wr : W) :
  deliver (a ++ b) wr
  = match deliver a wr with
    | (Ok _, wr') => deliver b wr'
    | (Err e, wr') => (Err e, wr')
    end.
Proof.
  revert wr. induction a as [|frag a IH]; intros wr; [reflexivity|].
  cbn. destruct (Write wr frag) as [[e|] wr']; [reflexivity|apply IH].
Qed.

Lemma write_choices_deliver (choices : list llm.DeltaChoice) (wr : W) :
  llm.write_choices choices wr
  = deliver (filter (fun content => content <> "")
                    (map llm.Delta_Content choices)) wr.
Proof.
  revert wr. induction choices as [|choice choices IH]; intros wr; [reflexivity|].
  cbn [llm.write_choices map].
  destruct (String.eqb_spec (llm.Delta_Content choice) "") as [Heq|Hne]; cbn [negb].
  - rewrite filter_cons_False by (intros Hc; now apply Hc). apply IH.
  - rewrite filter_cons_True by exact Hne. cbn [deliver].
    destruct (Write wr (llm.Delta_Content choice)) as [[e|] wr']; [reflexivity|apply IH].
Qed.

(** The loop writes the fragments of the stream in arrival order, and
    returns the error of the first failed write, if any, and the
    scanner's error otherwise. *)
Lemma scan_loop_deliver (sc : Scanner) (wr : W) :
  llm.scan_loop sc wr
  = match deliver (fragments (scanner_lines sc)) wr with
    | (Ok _, wr') => (llm.scanner_Err (end_err sc), wr')
    | (Err e, wr') => (Err e, wr')
    end.
Proof.
  revert wr. induction sc as [err|text err rest IH]; intros wr; [reflexivity|].
  cbn [llm.scan_loop scanner_lines end_err]. unfold fragments, event_data in *.
  destruct (HasPrefix text "data: ") eqn:Hp; cbn [negb andb].
  - rewrite filter_cons_True by exact Hp. cbn [map before_done].
    destruct (String.eqb (TrimPrefix text "data: ") "[DONE]") eqn:Hd; [reflexivity|].
    cbn [map concat]. rewrite deliver_app. unfold chunk_fragments at 1.
    destruct (Unmarshal (TrimPrefix text "data: ")) as [delta|e]; [|apply IH].
    rewrite write_choices_deliver.
    destruct (deliver _ wr) as [[[]|e] wr']; [apply IH|reflexivity].
  - rewrite filter_cons_False by (rewrite Hp; discriminate). apply IH.
Qed.

End AnyWriter.

Lemma deliver_buffer (frags : list string) (buf : string) :
  deliver (WR:=buffer_Writer) frags buf = (Ok tt, buf +:+ str_concat frags).
Proof.
  revert buf. induction frags as [|frag frags IH]; intros buf; cbn.
  - now rewrite str_app_nil_r.
  - rewrite IH, str_app_assoc. reflexivity.
Qed.

Lemma scanner_lines_stream_of (lines : list string) final :
  scanner_lines (stream_of lines final) = lines.
Proof.
  induction lines as [|text lines IH]; [reflexivity|].
  change (text :: scanner_lines (stream_of lines final) = text :: lines).
  f_equal. exact IH.
Qed.

Lemma scan_loop_stops_at_sentinel {W : Type} `{WR : Writer W}
    (before after : list string) final (wr : W) :
  llm.scan_loop (stream_of (before ++ "data: [DONE]" :: after) final) wr
  = llm.scan_loop (stream_of before None) wr.
Proof.
  revert wr. induction before as [|text before IH]; intros wr; [reflexivity|].
  change (stream_of ((text :: before) ++ "data: [DONE]" :: after) final)
    with (Line text None (stream_of (before ++ "data: [DONE]" :: after) final)).
  change (stream_of (text :: before) None)
    with (Line text None (stream_of before None)).
  cbn [llm.scan_loop].
  destruct (negb (HasPrefix text "data: ")); [apply IH|].
  destruct (String.eqb _ "[DONE]"); [reflexivity|].
  destruct (Unmarshal _) as [delta|e]; [|apply IH].
  destruct (llm.write_choices _ wr) as [[[]|e] wr']; [apply IH|reflexivity].
Qed.

Lemma scan_loop_skips {W : Type} `{WR : Writer W}
    (before after : list string) (text : string) final (wr : W) :
  skipped_line text ->
  llm.scan_loop (stream_of (before ++ text :: after) final) wr
  = llm.scan_loop (stream_of (before ++ after) final) wr.
Proof.
  intros Hskip. revert wr. induction before as [|text0 before IH]; intros wr.
  - change (stream_of ([] ++ text :: after) final)
      with (Line text None (stream_of after final)).
    cbn [llm.scan_loop app].
    destruct Hskip as [Hp|[Hd [e He]]].
    + now rewrite Hp.
    + destruct (negb (HasPrefix text "data: ")); [reflexivity|].
      apply String.eqb_neq in Hd. now rewrite Hd, He.
  - change (stream_of ((text0 :: before) ++ text :: after) final)
      with (Line text0 None (stream_of (before ++ text :: after) final)).
    change (stream_of ((text0 :: before) ++ after) final)
      with (Line text0 None (stream_of (before ++ after) final)).
    cbn [llm.scan_loop].
    destruct (negb (HasPrefix text0 "data: ")); [apply IH|].
    destruct (String.eqb _ "[DONE]"); [reflexivity|].
    destruct (Unmarshal _) as [delta|e]; [|apply IH].
    destruct (llm.write_choices _ wr) as [[[]|e] wr']; [apply IH|reflexivity].
Qed.

(** C7. Once the response has arrived, streaming generation reads the
    stream line by line and writes the fragments of the stream, which are the
    non-empty contents of the chunks that parse and come before the sentinel,
    to the writer in arrival order; on a writer that keeps what is written,
    the output grows by exactly the concatenation of the fragments. Reading
    stops at the sentinel as it does at the end of the stream, and a line
    that is no event, or whose data does not parse, changes nothing: the call
    behaves as if the line were not there. *)
Theorem StreamChatCompletion_streams_fragments (c : llm.Client)
    (messages : list llm.Message) (maxTokens : Z) :
  (forall (W : Type) (WR : Writer W) (writer : W) (w w1 : World St) resp,
      llm.send c messages maxTokens true w = (Ok resp, w1) ->
      llm.StreamChatCompletion c messages maxTokens writer w
      = (llm.scan_loop (NewScanner (resp_Body resp)) writer, w1))
  /\ (forall (W : Type) (WR : Writer W) (sc : Scanner) (wr : W),
        llm.scan_loop sc wr
        = match deliver (fragments (scanner_lines sc)) wr with
          | (Ok _, wr') => (llm.scanner_Err (end_err sc), wr')
          | (Err e, wr') => (Err e, wr')
          end)
  /\ (forall (sc : Scanner) (buf : string),
        llm.scan_loop (WR:=buffer_Writer) sc buf
        = (llm.scanner_Err (end_err sc),
           buf +:+ str_concat (fragments (scanner_lines sc))))
  /\ (forall (W : Type) (WR : Writer W) before after final (wr : W),
        llm.scan_loop (stream_of (before ++ "data: [DONE]" :: after) final) wr
        = llm.scan_loop (stream_of before None) wr)
  /\ (forall (W : Type) (WR : Writer W) before after text final (wr : W),
        skipped_line text ->
        llm.scan_loop (stream_of (before ++ text :: after) final) wr
        = llm.scan_loop (stream_of (before ++ after) final) wr).
Proof.
  split_and!.
  - intros W WR writer w w1 resp Hsend.
    unfold llm.StreamChatCompletion. now rewrite Hsend.
  - intros W WR sc wr. apply scan_loop_deliver.
  - intros sc buf. rewrite scan_loop_deliver, deliver_buffer. reflexivity.
  - intros W WR before after final wr. apply scan_loop_stops_at_sentinel.
  - intros W WR before after text final wr. apply scan_loop_skips.
Qed.

End StreamProperties.

(** ** Provisioning the collection *)

Section ProvisioningProperties.
Context `{FL : Floats} `{FM : !Fmt} `{NU : NetURL}.
Context {St : Type} `{RM : Remote St}.
Context `{JM : JSON (gmap string Value)}.

Variable c : vector.Client.
Hypothesis url_parses : url_Parse_error (vector.collectionURL c) = None.

Lemma Get_collection (w : World St) :
  Get (vector.collectionURL c) w
  = match http_Do (checkCall c) (services w) with
    | (r, st') => (r, after_exchange (checkCall c) st' w)
    end.
Proof.
  unfold Get, bind, lift, NewRequestWithContext, Do. rewrite url_parses.
  fold (checkCall c). now destruct (http_Do _ _).
Qed.

(** The creation sends the create request; a response with status 200 or
    409 is a success, any other response and a failed exchange are errors. *)
Lemma createCollection_run (w : World St) :
  vector.createCollection c w
  = match http_Do (createCall c) (services w) with
    | (Ok resp, st') =>
        let w1 := after_exchange (createCall c) st' w in
        if (StatusCode resp =? StatusOK) || (StatusCode resp =? StatusConflict)
        then (Ok tt, after_log ("Collection " +:+ vector.collectionName c +:+ " ready") w1)
        else (Err ("create collection failed (status " +:+ fmt_d (StatusCode resp)
                   +:+ "): " +:+ data (resp_Body resp)), w1)
    | (Err msg, st') =>
        (Err (wrap_err "create collection" msg), after_exchange (createCall c) st' w)
    end.
Proof.
  unfold vector.createCollection. munfold. unfold NewRequestWithContext, Do.
  rewrite url_parses. cbn. fold (createCall c).
  destruct (http_Do _ _) as [[resp|msg] st']; [|reflexivity].
  now destruct (_ || _).
Qed.

Lemma EnsureCollection_run (w : World St) :
  vector.EnsureCollection c w
  = match http_Do (checkCall c) (services w) with
    | (Ok resp, st') =>
        let w1 := after_exchange (checkCall c) st' w in
        if StatusCode resp =? StatusOK then
          (Ok tt, after_log ("Collection " +:+ vector.collectionName c
                             +:+ " already exists") w1)
        else if StatusCode resp =? StatusNotFound then
          vector.createCollection c w1
        else
          vector.createCollection c
            (after_log ("Collection check returned status "
                        +:+ fmt_d (StatusCode resp) +:+ ": "
                        +:+ data (resp_Body resp) +:+ ", attempting to create") w1)
    | (Err msg, st') =>
        (Err (wrap_err "check collection" msg), after_exchange (checkCall c) st' w)
    end.
Proof.
  unfold vector.EnsureCollection. unfold bind at 1. unfold wrap.
  rewrite Get_collection.
  destruct (http_Do _ _) as [[resp|msg] st']; [|reflexivity].
  cbv zeta.
  destruct (StatusCode resp =? StatusOK); [reflexivity|].
  destruct (StatusCode resp =? StatusNotFound); reflexivity.
Qed.

Lemma createCollection_outcome (w : World St) :
  sent (vector.createCollection c w).2 = sent w ++ [createCall c]
  /\ match http_Do (createCall c) (services w) with
     | (Ok resp, st') =>
         services (vector.createCollection c w).2 = st'
         /\ (StatusCode resp = StatusOK \/ StatusCode resp = StatusConflict ->
             (vector.createCollection c w).1 = Ok tt)
         /\ (StatusCode resp <> StatusOK -> StatusCode resp <> StatusConflict ->
             exists msg, (vector.createCollection c w).1 = Err msg)
     | (Err _, _) => exists msg, (vector.createCollection c w).1 = Err msg
     end.
Proof.
  rewrite createCollection_run.
  destruct (http_Do _ _) as [[resp|msg] st']; cbv zeta.
  - destruct (Z.eqb_spec (StatusCode resp) StatusOK) as [H1|H1];
      destruct (Z.eqb_spec (StatusCode resp) StatusConflict) as [H2|H2]; cbn;
      split_and!; try reflexivity; try (intros; reflexivity);
      try (intros; exfalso; tauto); try (intros; eexists; reflexivity).
  - cbn. split; [reflexivity|]. eexists. reflexivity.
Qed.



End ProvisioningProperties.

(** ** The query pipeline *)

Section QueryProperties.
Context `{FL : Floats} `{FM : !Fmt} `{NU : NetURL} `{BF : Bufio}.
Context {St : Type} `{RM : Remote St}.
Context `{JOQ : JSON llm.OllamaRequest} `{JOR : JSON llm.OllamaResponse}.
Context `{JM : JSON (gmap string Value)} `{JS : JSON vector.searchResp}.
Context `{JCQ : JSON llm.ChatRequest} `{JCR : JSON llm.ChatResponse}.
Context `{JSD : JSON llm.StreamDelta}.

Lemma buildContext_from (l : list (nat * vector.SearchResult)) (sb : Builder) :
  fold_left
    (fun (sb : Builder) ir =>
       let i : nat := ir.1 in
       let r : vector.SearchResult := ir.2 in
       match get_string (vector.sr_Payload r) "text" with
       | None => sb
       | Some text =>
           let sb := WriteString sb
                       ("--- Document " +:+ fmt_d (Z.of_nat i + 1) +:+ " (score: "
                        +:+ fmt_2f (vector.Score r) +:+ ") ---" +:+ nl) in
           let sb := WriteString sb text in
           WriteString sb (nl +:+ nl)
       end) l sb
  = sb +:+ str_concat (omap (fun ir => section_of ir.1 ir.2) l).
Proof.
  revert sb. induction l as [|[i r] l IH]; intros sb.
  - cbn. now rewrite str_app_nil_r.
  - cbn [fold_left omap list_omap fst snd]. rewrite IH. unfold section_of.
    cbn [fst snd].
    destruct (get_string (vector.sr_Payload r) "text") as [text|]; [|reflexivity].
    cbn [str_concat foldr]. unfold WriteString. rewrite !str_app_assoc. reflexivity.
Qed.

Lemma buildContext_sections (results : list vector.SearchResult) :
  rag.buildContext results = str_concat (context_sections results).
Proof.
  unfold rag.buildContext, context_sections. now rewrite buildContext_from.
Qed.

(** The sections follow the ranks: a further result adds its section, if it
    has one, after the sections of the results before it. *)
Lemma context_sections_snoc (results : list vector.SearchResult)
    (r : vector.SearchResult) :
  context_sections (results ++ [r])
  = context_sections results
    ++ match section_of (length results) r with
       | Some sec => [sec]
       | None => []
       end.
Proof.
  unfold context_sections. rewrite imap_app, omap_app. f_equal.
  cbn. rewrite Nat.add_0_r. now destruct (section_of (length results) r).
Qed.

Lemma Search_ok (c : vector.Client) (v : list float32) (k : Z)
    (w : World St) results w' :
  vector.Search c v k w = (Ok results, w') ->
  exists hits, results = map vector.toSearchResult hits.
Proof.
  unfold vector.Search. munfold. unfold NewRequestWithContext, Do.
  repeat mcase; intros [= <- <-].
  rewrite fill_map. eexists. reflexivity.
Qed.

(** The steps of [Query], one after the other. *)
Lemma Query_run (s : rag.Service) (userQuery : string) (w : World St) :
  rag.Query s userQuery w
  = match llm.EmbedSingle (rag.embedder s) userQuery w with
    | (Err e, w1) => (Err (wrap_err "embed query" e), w1)
    | (Ok queryEmbedding, w1) =>
        match vector.Search (rag.vectorClient s) queryEmbedding (rag.topK s) w1 with
        | (Err e, w2) => (Err (wrap_err "search" e), w2)
        | (Ok results, w2) =>
            match llm.CreateChatCompletion (rag.llmClient s)
                    (rag.messages (rag.buildContext results) userQuery) 1024 w2 with
            | (Err e, w3) => (Err (wrap_err "llm completion" e), w3)
            | (Ok resp, w3) =>
                match llm.Choices resp with
                | [] => (Err "no response from LLM", w3)
                | choice0 :: _ =>
                    (Ok {| rag.Answer := llm.Content (llm.choice_Message choice0);
                           rag.Sources := map rag.toSource results |}, w3)
                end
            end
        end
    end.
Proof.
  unfold rag.Query. unfold bind at 1. unfold wrap at 1.
  destruct (llm.EmbedSingle _ _ w) as [[emb|e] w1]; [|reflexivity].
  unfold bind at 1. unfold wrap at 1.
  destruct (vector.Search _ _ _ w1) as [[results|e] w2]; [|reflexivity].
  cbv zeta. unfold bind at 1. unfold wrap at 1.
  destruct (llm.CreateChatCompletion _ _ _ w2) as [[resp|e] w3]; [|reflexivity].
  destruct (llm.Choices resp) as [|choice0 ?]; [reflexivity|].
  unfold ret. now rewrite fill_map.
Qed.

Lemma Query_ok (s : rag.Service) (userQuery : string) (w : World St) qr w' :
  rag.Query s userQuery w = (Ok qr, w') ->
  exists queryEmbedding w1 results w2 resp,
    llm.EmbedSingle (rag.embedder s) userQuery w = (Ok queryEmbedding, w1)
    /\ vector.Search (rag.vectorClient s) queryEmbedding (rag.topK s) w1
       = (Ok results, w2)
    /\ llm.CreateChatCompletion (rag.llmClient s)
         (rag.messages (rag.buildContext results) userQuery) 1024 w2 = (Ok resp, w')
    /\ rag.Sources qr = map rag.toSource results.
Proof.
  rewrite Query_run.
  destruct (llm.EmbedSingle _ _ w) as [[emb|e] w1] eqn:He; [|discriminate].
  destruct (vector.Search _ _ _ w1) as [[results|e] w2] eqn:Hs; [|discriminate].
  destruct (llm.CreateChatCompletion _ _ _ w2) as [[resp|e] w3] eqn:Hc; [|discriminate].
  destruct (llm.Choices resp) as [|choice0 ?]; [discriminate|].
  intros [= <- <-]. exists emb, w1, results, w2, resp.
  split_and!; [reflexivity|exact Hs|exact Hc|reflexivity].
Qed.

(** C2. The context block is the concatenation, in rank order, of the
    sections of the results that have a string under "text" in their
    payload: the label "--- Document i (score: s.ss) ---", a line break,
    the text and two line breaks, [i] being the rank of the result; a
    result without such a text has no section. The sources of a successful
    query are drawn from all the results of the search, one per result and
    in the same order, whether or not the result has a text. *)
Theorem Query_context_and_sources (s : rag.Service) (userQuery : string)
    (w : World St) :
  (forall results, rag.buildContext results = str_concat (context_sections results))
  /\ (context_sections [] = []
      /\ forall results r,
           context_sections (results ++ [r])
           = context_sections results
             ++ match section_of (length results) r with
                | Some sec => [sec]
                | None => []
                end)
  /\ (forall i r,
        (get_string (vector.sr_Payload r) "text" = None -> section_of i r = None)
        /\ (forall text,
              get_string (vector.sr_Payload r) "text" = Some text ->
              section_of i r
              = Some ("--- Document " +:+ fmt_d (Z.of_nat i + 1) +:+ " (score: "
                      +:+ fmt_2f (vector.Score r) +:+ ") ---" +:+ nl
                      +:+ text +:+ nl +:+ nl)))
  /\ (forall qr w',
        rag.Query s userQuery w = (Ok qr, w') ->
        exists queryEmbedding w1 results w2 resp,
          llm.EmbedSingle (rag.embedder s) userQuery w = (Ok queryEmbedding, w1)
          /\ vector.Search (rag.vectorClient s) queryEmbedding (rag.topK s) w1
             = (Ok results, w2)
          /\ llm.CreateChatCompletion (rag.llmClient s)
               (rag.messages (rag.buildContext results) userQuery) 1024 w2
             = (Ok resp, w')
          /\ length (rag.Sources qr) = length results
          /\ forall i r, results !! i = Some r ->
               exists src, rag.Sources qr !! i = Some src
                           /\ src = rag.toSource r
                           /\ rag.src_Score src = vector.Score r).
Proof.
  split_and!.
  - apply buildContext_sections.
  - reflexivity.
  - apply context_sections_snoc.
  - intros i r. unfold section_of. split.
    + now intros ->.
    + now intros text ->.
  - intros qr w' Hq.
    destruct (Query_ok s userQuery w qr w' Hq)
      as (emb & w1 & results & w2 & resp & He & Hs & Hc & Hsrc).
    exists emb, w1, results, w2, resp.
    split_and!; [exact He|exact Hs|exact Hc|now rewrite Hsrc, length_map|].
    intros i r Hi. exists (rag.toSource r).
    rewrite Hsrc, list_lookup_fmap, Hi. now split_and!.
Qed.

(** C9. The source built for a result reads the identifier, the module and
    the topic from the strings stored under "id", "module" and "topic" in
    the payload, and takes the empty string for each that is missing or is
    not a string. The identifier of the search result itself, which falls
    back to the formatted raw identifier when the payload has no string
    "id", plays no part in it: for such a result the source's identifier is
    empty. This holds for every source of a successful query. *)
Theorem Query_sources_default_to_empty (s : rag.Service) (userQuery : string)
    (w : World St) :
  (forall r : vector.SearchResult,
      (get_string (vector.sr_Payload r) "id" = None -> rag.src_ID (rag.toSource r) = "")
      /\ (get_string (vector.sr_Payload r) "module" = None ->
            rag.src_Module (rag.toSource r) = "")
      /\ (get_string (vector.sr_Payload r) "topic" = None ->
            rag.src_Topic (rag.toSource r) = ""))
  /\ (forall hit : vector.SearchHit,
        rag.src_ID (rag.toSource (vector.toSearchResult hit))
        = get_string_or_zero (vector.hit_Payload hit) "id"
        /\ (get_string (vector.hit_Payload hit) "id" = None ->
              vector.sr_ID (vector.toSearchResult hit) = fmt_v (vector.hit_ID hit)
              /\ rag.src_ID (rag.toSource (vector.toSearchResult hit)) = ""))
  /\ (forall qr w',
        rag.Query s userQuery w = (Ok qr, w') ->
        exists queryEmbedding w1 results w2 hits,
          llm.EmbedSingle (rag.embedder s) userQuery w = (Ok queryEmbedding, w1)
          /\ vector.Search (rag.vectorClient s) queryEmbedding (rag.topK s) w1
             = (Ok results, w2)
          /\ results = map vector.toSearchResult hits
          /\ rag.Sources qr = map (fun hit => rag.toSource (vector.toSearchResult hit)) hits).
Proof.
  split_and!.
  - intros r. unfold rag.toSource, get_string_or_zero. cbn.
    split_and!; now intros ->.
  - intros hit. unfold rag.toSource, vector.toSearchResult, get_string_or_zero. cbn.
    split; [reflexivity|]. now intros ->.
  - intros qr w' Hq.
    destruct (Query_ok s userQuery w qr w' Hq)
      as (emb & w1 & results & w2 & resp & He & Hs & Hc & Hsrc).
    destruct (Search_ok _ _ _ _ _ _ Hs) as (hits & Hhits).
    exists emb, w1, results, w2, hits.
    split_and!; [exact He|exact Hs|exact Hhits|].
    rewrite Hsrc, Hhits, map_map. reflexivity.
Qed.

Lemma send_sent (c : llm.Client) (messages : list llm.Message) (maxTokens : Z)
    (stream : bool) (w : World St) (body : string) :
  Marshal {| llm.cr_Model := llm.model c; llm.Messages := messages;
             llm.MaxTokens := maxTokens; llm.Temperature := float64_0_7;
             llm.Stream := stream |} = Ok body ->
  url_Parse_error llm.groqAPIURL = None ->
  sent (llm.send c messages maxTokens stream w).2 = sent w ++ [chatCall c body].
Proof.
  intros Hm Hu. unfold llm.send. munfold. unfold NewRequestWithContext, Do.
  rewrite Hm, Hu. cbn.
  destruct (http_Do _ _) as [[resp|e] st']; cbn; [|reflexivity].
  now destruct (negb _).
Qed.

Lemma CreateChatCompletion_sent (c : llm.Client) (messages : list llm.Message)
    (maxTokens : Z) (w : World St) (body : string) :
  Marshal {| llm.cr_Model := llm.model c; llm.Messages := messages;
             llm.MaxTokens := maxTokens; llm.Temperature := float64_0_7;
             llm.Stream := false |} = Ok body ->
  url_Parse_error llm.groqAPIURL = None ->
  sent (llm.CreateChatCompletion c messages maxTokens w).2
  = sent w ++ [chatCall c body].
Proof.
  intros Hm Hu. rewrite <- (send_sent c messages maxTokens false w body Hm Hu).
  unfold llm.CreateChatCompletion, bind, wrap, lift.
  destruct (llm.send c messages maxTokens false w) as [[resp|e] w1]; [|reflexivity].
  now destruct (Decode _).
Qed.

(** C10. When the search returns no result, the context block is empty, and
    the query goes on: the generator is called with the two messages, the
    system instruction and the user message made of the empty context and
    the query, and its outcome decides the outcome of the query; with at
    least one choice in the response, the query succeeds, with the first
    choice's text as answer and no sources. *)
Theorem Query_without_results (s : rag.Service) (userQuery : string)
    (w w1 w2 : World St) (queryEmbedding : list float32) :
  llm.EmbedSingle (rag.embedder s) userQuery w = (Ok queryEmbedding, w1) ->
  vector.Search (rag.vectorClient s) queryEmbedding (rag.topK s) w1 = (Ok [], w2) ->
  let messages :=
    [ {| llm.Role := "system"; llm.Content := rag.systemPrompt |};
      {| llm.Role := "user";
         llm.Content := "Context from SyntraFlow Knowledge Base:" +:+ nl +:+ ""
                        +:+ nl +:+ nl +:+ "User Question: " +:+ userQuery |} ] in
  rag.buildContext [] = ""
  /\ rag.Query s userQuery w
     = match llm.CreateChatCompletion (rag.llmClient s) messages 1024 w2 with
       | (Err e, w3) => (Err (wrap_err "llm completion" e), w3)
       | (Ok resp, w3) =>
           match llm.Choices resp with
           | [] => (Err "no response from LLM", w3)
           | choice0 :: _ =>
               (Ok {| rag.Answer := llm.Content (llm.choice_Message choice0);
                      rag.Sources := [] |}, w3)
           end
       end
  /\ (forall body,
        Marshal {| llm.cr_Model := llm.model (rag.llmClient s);
                   llm.Messages := messages; llm.MaxTokens := 1024;
                   llm.Temperature := float64_0_7; llm.Stream := false |} = Ok body ->
        url_Parse_error llm.groqAPIURL = None ->
        sent (rag.Query s userQuery w).2 = sent w2 ++ [chatCall (rag.llmClient s) body]).
Proof.
  intros He Hs messages.
  assert (Hrun : rag.Query s userQuery w
     = match llm.CreateChatCompletion (rag.llmClient s) messages 1024 w2 with
       | (Err e, w3) => (Err (wrap_err "llm completion" e), w3)
       | (Ok resp, w3) =>
           match llm.Choices resp with
           | [] => (Err "no response from LLM", w3)
           | choice0 :: _ =>
               (Ok {| rag.Answer := llm.Content (llm.choice_Message choice0);
                      rag.Sources := [] |}, w3)
           end
       end).
  { rewrite Query_run, He, Hs. reflexivity. }
  split_and!.
  - reflexivity.
  - exact Hrun.
  - intros body Hm Hu. rewrite Hrun.
    rewrite <- (CreateChatCompletion_sent (rag.llmClient s) messages 1024 w2 body Hm Hu).
    destruct (llm.CreateChatCompletion _ _ _ w2) as [[resp|e] w3]; [|reflexivity].
    now destruct (llm.Choices resp).
Qed.

End QueryProperties.

(** * Further properties of the code *)

(** ** Identifiers that differ in one byte *)

Lemma lxor_range (h b : Z) :
  0 <= h < 2 ^ 64 -> 0 <= b < 2 ^ 64 -> 0 <= Z.lxor h b < 2 ^ 64.
Proof.
  intros Hh Hb. split; [apply Z.lxor_nonneg; lia|].
  destruct (Z.eq_dec (Z.lxor h b) 0) as [->|Hne]; [lia|].
  assert (0 < Z.lxor h b) by (pose proof (proj2 (Z.lxor_nonneg h b) ltac:(lia)); lia).
  apply Z.log2_lt_pow2; [assumption|].
  pose proof (Z.log2_lxor h b ltac:(lia) ltac:(lia)) as Hlog.
  assert (Z.log2 h < 64).
  { destruct (Z.eq_dec h 0) as [->|]; [cbn; lia|]. apply Z.log2_lt_pow2; lia. }
  assert (Z.log2 b < 64).
  { destruct (Z.eq_dec b 0) as [->|]; [cbn; lia|]. apply Z.log2_lt_pow2; lia. }
  lia.
Qed.

Lemma lxor_cancel_r (h1 h2 b : Z) : Z.lxor h1 b = Z.lxor h2 b -> h1 = h2.
Proof.
  intros H. apply (f_equal (fun x => Z.lxor x b)) in H.
  now rewrite !Z.lxor_assoc, !Z.lxor_nilpotent, !Z.lxor_0_r in H.
Qed.

Lemma lxor_cancel_l (h b1 b2 : Z) : Z.lxor h b1 = Z.lxor h b2 -> b1 = b2.
Proof.
  rewrite (Z.lxor_comm h b1), (Z.lxor_comm h b2). apply lxor_cancel_r.
Qed.

(** Multiplying by the FNV prime modulo [2^64] loses nothing: the prime is
    odd, so it has an inverse. *)
Lemma mul_prime64_inj (x y : Z) :
  0 <= x < 2 ^ 64 -> 0 <= y < 2 ^ 64 ->
  fnv.wrap64 (x * fnv.prime64) = fnv.wrap64 (y * fnv.prime64) -> x = y.
Proof.
  unfold fnv.wrap64. intros Hx Hy H.
  apply (f_equal (fun z => (z * fnv_inverse_prime64) mod 2 ^ 64)) in H.
  rewrite !Z.mul_mod_idemp_l, <- !Z.mul_assoc in H by lia.
  rewrite <- (Z.mul_mod_idemp_r x), <- (Z.mul_mod_idemp_r y) in H by lia.
  change ((fnv.prime64 * fnv_inverse_prime64) mod 2 ^ 64) with 1 in H.
  rewrite !Z.mul_1_r, !Z.mod_small in H by lia. exact H.
Qed.

Lemma fnv_Write_range_from (s : Z) (bs : list Z) :
  0 <= s < 2 ^ 64 -> 0 <= fnv.Write s bs < 2 ^ 64.
Proof.
  intros Hs. induction bs as [|b bs _] using rev_ind; [exact Hs|].
  rewrite fnv_Write_snoc. unfold fnv.wrap64. apply Z.mod_pos_bound. lia.
Qed.

Lemma fnv_Write_cons (s : Z) (b : Z) (bs : list Z) :
  fnv.Write s (b :: bs) = fnv.Write (fnv.wrap64 (Z.lxor s b * fnv.prime64)) bs.
Proof. reflexivity. Qed.

(** From two different sums, the same bytes lead to two different sums. *)
Lemma fnv_Write_inj_state (bs : list Z) :
  Forall (fun b => 0 <= b < 256) bs ->
  forall s1 s2, 0 <= s1 < 2 ^ 64 -> 0 <= s2 < 2 ^ 64 ->
    fnv.Write s1 bs = fnv.Write s2 bs -> s1 = s2.
Proof.
  induction 1 as [|b bs Hb _ IH]; intros s1 s2 H1 H2 Heq; [exact Heq|].
  rewrite !fnv_Write_cons in Heq.
  apply IH in Heq; try (unfold fnv.wrap64; apply Z.mod_pos_bound; lia).
  apply mul_prime64_inj in Heq; try (apply lxor_range; lia).
  exact (lxor_cancel_r _ _ _ Heq).
Qed.

Lemma bytes_of_app (s1 s2 : string) : bytes_of (s1 +:+ s2) = bytes_of s1 ++ bytes_of s2.
Proof.
  induction s1 as [|c s1 IH]; [reflexivity|].
  change (Z.of_N (N_of_ascii c) :: bytes_of (s1 +:+ s2)
          = Z.of_N (N_of_ascii c) :: (bytes_of s1 ++ bytes_of s2)).
  f_equal. exact IH.
Qed.

Lemma bytes_of_range (s : string) : Forall (fun b => 0 <= b < 256) (bytes_of s).
Proof.
  unfold bytes_of. induction s as [|c s IH]; cbn; constructor; [|exact IH].
  pose proof (N_ascii_bounded c). lia.
Qed.

(** X1. Two identifiers of the same length that differ in exactly one byte
    never get the same numeric identifier. *)
Theorem stringToNumericID_separates_one_byte (before after : string) (a b : ascii) :
  a <> b ->
  stringToNumericID (before +:+ String a after)
  <> stringToNumericID (before +:+ String b after).
Proof.
  intros Hab Heq. unfold stringToNumericID, fnv.Sum64 in Heq. cbv zeta in Heq.
  rewrite !bytes_of_app in Heq. unfold fnv.Write in Heq.
  rewrite !fold_left_app in Heq. fold (fnv.Write fnv.New64a (bytes_of before)) in Heq.
  set (s := fnv.Write fnv.New64a (bytes_of before)) in *.
  assert (Hs : 0 <= s < 2 ^ 64) by apply fnv_Write_range.
  change (bytes_of (String a after))
    with (Z.of_N (N_of_ascii a) :: bytes_of after) in Heq.
  change (bytes_of (String b after))
    with (Z.of_N (N_of_ascii b) :: bytes_of after) in Heq.
  pose proof (N_ascii_bounded a) as Ha. pose proof (N_ascii_bounded b) as Hb.
  fold (fnv.Write s (Z.of_N (N_of_ascii a) :: bytes_of after)) in Heq.
  fold (fnv.Write s (Z.of_N (N_of_ascii b) :: bytes_of after)) in Heq.
  rewrite !fnv_Write_cons in Heq.
  apply fnv_Write_inj_state in Heq;
    [|apply bytes_of_range
     |unfold fnv.wrap64; apply Z.mod_pos_bound; lia
     |unfold fnv.wrap64; apply Z.mod_pos_bound; lia].
  apply mul_prime64_inj in Heq; [|apply lxor_range; lia|apply lxor_range; lia].
  apply lxor_cancel_l in Heq. apply Hab.
  apply N2Z.inj in Heq.
  rewrite <- (ascii_N_embedding a), <- (ascii_N_embedding b). now rewrite Heq.
Qed.

(** ** The embedder *)

Section EmbedderMore.
Context `{FL : Floats} `{NU : NetURL} `{BF : Bufio}.
Context {St : Type} `{RM : Remote St}.
Context `{JOQ : JSON llm.OllamaRequest} `{JOR : JSON llm.OllamaResponse}.

Lemma float64ToFloat32_map (inp : list float64) :
  llm.float64ToFloat32 inp = map float32_of_float64 inp.
Proof.
  unfold llm.float64ToFloat32. apply fill_map.
Qed.

(** What a single-text call goes through, step by step. *)
Lemma embedSingle_run (e : llm.Embedder) (text : string) (w : World St) :
  llm.embedSingle e text w
  = match Marshal (embedRequest e text) with
    | Err msg => (Err (wrap_err "marshal request" msg), w)
    | Ok body =>
        match url_Parse_error llm.ollamaEmbeddingURL with
        | Some msg => (Err (wrap_err "create request" msg), w)
        | None =>
            match http_Do (embedCall body) (services w) with
            | (Err msg, st') =>
                (Err (wrap_err "do request" msg), after_exchange (embedCall body) st' w)
            | (Ok resp, st') =>
                let w1 := after_exchange (embedCall body) st' w in
                match read_error (resp_Body resp) with
                | Some msg => (Err (wrap_err "read response" msg), w1)
                | None =>
                    if negb (StatusCode resp =? StatusOK) then
                      (Err ("ollama error: status " +:+ fmt_d (StatusCode resp)
                            +:+ ", body: " +:+ data (resp_Body resp)), w1)
                    else
                      match Unmarshal (A:=llm.OllamaResponse) (data (resp_Body resp)) with
                      | Err msg => (Err (wrap_err "decode response" msg), w1)
                      | Ok ollamaResp =>
                          match llm.Embedding ollamaResp with
                          | [] => (Err "empty embedding returned", w1)
                          | _ :: _ =>
                              (Ok (map float32_of_float64 (llm.Embedding ollamaResp)), w1)
                          end
                      end
                end
            end
        end
    end.
Proof.
  unfold llm.embedSingle, embedRequest. munfold. unfold NewRequestWithContext, Do.
  destruct (Marshal _) as [body|msg]; [|reflexivity].
  destruct (url_Parse_error _) as [msg|]; [reflexivity|].
  cbn. fold (embedCall body).
  destruct (http_Do _ _) as [[resp|msg] st']; [|reflexivity].
  unfold ReadAll, after_exchange.
  destruct (read_error (resp_Body resp)) as [msg|]; [reflexivity|].
  destruct (negb _); [reflexivity|].
  destruct (Unmarshal _) as [ollamaResp|msg]; [|reflexivity].
  rewrite float64ToFloat32_map.
  now destruct (llm.Embedding ollamaResp).
Qed.

Lemma embedSingle_ok_inv (e : llm.Embedder) (text : string) (w : World St) vec w' :
  llm.embedSingle e text w = (Ok vec, w') ->
  exists body resp st' ollamaResp,
    Marshal (embedRequest e text) = Ok body
    /\ url_Parse_error llm.ollamaEmbeddingURL = None
    /\ http_Do (embedCall body) (services w) = (Ok resp, st')
    /\ read_error (resp_Body resp) = None
    /\ StatusCode resp = StatusOK
    /\ Unmarshal (data (resp_Body resp)) = Ok ollamaResp
    /\ llm.Embedding ollamaResp <> []
    /\ vec = map float32_of_float64 (llm.Embedding ollamaResp)
    /\ w' = after_exchange (embedCall body) st' w.
Proof.
  rewrite embedSingle_run.
  destruct (Marshal _) as [body|?]; [|discriminate].
  destruct (url_Parse_error _) as [?|] eqn:Hu; [discriminate|].
  destruct (http_Do _ _) as [[resp|?] st'] eqn:Hdo; [|discriminate]. cbv zeta.
  destruct (read_error _) as [?|] eqn:Hr; [discriminate|].
  destruct (Z.eqb_spec (StatusCode resp) StatusOK) as [Hst|?]; [|discriminate]. cbn [negb].
  destruct (Unmarshal _) as [ollamaResp|?] eqn:Hun; [|discriminate].
  destruct (llm.Embedding ollamaResp) as [|x l] eqn:Hemb; [discriminate|].
  intros [= <- <-]. exists body, resp, st', ollamaResp.
  rewrite Hemb. split_and!; try reflexivity; try assumption. discriminate.
Qed.

(** X2. A single-text call succeeds exactly when the request marshals, the
    engine answers 200 with a body that reads and parses, and the embedding
    in it is not empty. The vector returned is that embedding, converted
    component by component, so it is never empty; exactly one request has
    been sent. *)
Theorem embedSingle_succeeds_iff (e : llm.Embedder) (text : string) (w : World St)
    (vec : list float32) (w' : World St) :
  (llm.embedSingle e text w = (Ok vec, w')
   <-> exists body resp st' ollamaResp,
         Marshal (embedRequest e text) = Ok body
         /\ url_Parse_error llm.ollamaEmbeddingURL = None
         /\ http_Do (embedCall body) (services w) = (Ok resp, st')
         /\ read_error (resp_Body resp) = None
         /\ StatusCode resp = StatusOK
         /\ Unmarshal (data (resp_Body resp)) = Ok ollamaResp
         /\ llm.Embedding ollamaResp <> []
         /\ vec = map float32_of_float64 (llm.Embedding ollamaResp)
         /\ w' = after_exchange (embedCall body) st' w)
  /\ (llm.embedSingle e text w = (Ok vec, w') ->
      vec <> []
      /\ exists body, Marshal (embedRequest e text) = Ok body
                      /\ sent w' = sent w ++ [embedCall body]
                      /\ logged w' = logged w).
Proof.
  split; [split|].
  - apply embedSingle_ok_inv.
  - intros (body & resp & st' & o & Hm & Hu & Hdo & Hr & Hs & Hun & Hne & -> & ->).
    rewrite embedSingle_run, Hm, Hu, Hdo. cbv zeta. rewrite Hr, Hs. cbn.
    rewrite Hun. now destruct (llm.Embedding o).
  - intros H. destruct (embedSingle_ok_inv e text w vec w' H)
      as (body & resp & st' & o & Hm & Hu & Hdo & Hr & Hs & Hun & Hne & -> & ->).
    split.
    + destruct (llm.Embedding o); [contradiction|discriminate].
    + exists body. split_and!; [exact Hm|reflexivity|reflexivity].
Qed.

(** The requests and the log lines of texts embedded with success. *)
Lemma embedded_calls (e : llm.Embedder) total i texts (w : World St) embs w' :
  embedded e total i texts w embs w' ->
  exists bodies,
    Forall2 (fun text body => Marshal (embedRequest e text) = Ok body) texts bodies
    /\ sent w' = sent w ++ map embedCall bodies
    /\ Forall (fun vec => vec <> []) embs
    /\ logged w'
       = logged w
         ++ map (fun j => "Embedded " +:+ fmt_d (Z.of_nat j + 1) +:+ "/"
                          +:+ fmt_d (Z.of_nat total) +:+ " texts")
                (filter (fun j => (Z.of_nat j + 1) mod 10 = 0) (seq i (length texts))).
Proof.
  induction 1 as [i w|i text rest w emb w1 embs w2 Hone _ IH].
  - exists []. cbn. rewrite !app_nil_r. split_and!; constructor.
  - destruct (embedSingle_ok_inv e text w emb w1 Hone)
      as (body & resp & st' & o & Hm & _ & _ & _ & _ & _ & Hne & -> & ->).
    destruct IH as (bodies & Hall & Hsent & Hvecs & Hlog).
    exists (body :: bodies). split_and!.
    + now constructor.
    + rewrite Hsent, after_item_sent. cbn. now rewrite <- app_assoc.
    + constructor; [|exact Hvecs].
      destruct (llm.Embedding o); [contradiction|discriminate].
    + rewrite Hlog. cbn [length seq]. unfold after_item.
      destruct (Z.eqb_spec ((Z.of_nat i + 1) mod 10) 0) as [H0|H0].
      * rewrite filter_cons_True by exact H0. cbn. now rewrite <- app_assoc.
      * rewrite filter_cons_False by exact H0. reflexivity.
Qed.

Lemma tenth_items_count (n : nat) :
  length (filter (fun j => (Z.of_nat j + 1) mod 10 = 0) (seq 0 n)) = (n / 10)%nat.
Proof.
  induction n as [|n IH]; [reflexivity|].
  rewrite seq_S, filter_app, length_app, IH. cbn [Nat.add].
  destruct (Z.eq_dec ((Z.of_nat n + 1) mod 10) 0) as [H0|H0].
  - rewrite filter_cons_True by exact H0. rewrite filter_nil. cbn [length].
    apply Nat2Z.inj. rewrite ?Nat2Z.inj_add, !Nat2Z.inj_div, Nat2Z.inj_succ.
    change (Z.of_nat 10) with 10. change (Z.of_nat 1) with 1.
    pose proof (Nat2Z.is_nonneg n). Z.div_mod_to_equations. lia.
  - rewrite filter_cons_False by exact H0. rewrite filter_nil. cbn [length].
    apply Nat2Z.inj. rewrite ?Nat2Z.inj_add, !Nat2Z.inj_div, Nat2Z.inj_succ.
    change (Z.of_nat 10) with 10. change (Z.of_nat 1) with 1.
    pose proof (Nat2Z.is_nonneg n). Z.div_mod_to_equations. lia.
Qed.

(** X3. A successful batch embedding has sent exactly one request per text,
    in the order of the texts, each carrying its own text (truncated) as
    prompt, and nothing else; no vector it returns is empty; and it has
    logged one progress line after every tenth text, [n / 10] lines for [n]
    texts. *)
Theorem Embed_requests_and_progress (e : llm.Embedder) (texts : list string)
    (w : World St) (embs : list (list float32)) (w' : World St) :
  llm.Embed e texts w = (Ok embs, w') ->
  let n := length texts in
  let tenths := filter (fun j => (Z.of_nat j + 1) mod 10 = 0) (seq 0 n) in
  (exists bodies,
      Forall2 (fun text body => Marshal (embedRequest e text) = Ok body) texts bodies
      /\ sent w' = sent w ++ map embedCall bodies)
  /\ length (sent_since w w') = n
  /\ Forall (fun vec => vec <> []) embs
  /\ logged w'
     = logged w
       ++ map (fun j => "Embedded " +:+ fmt_d (Z.of_nat j + 1) +:+ "/"
                        +:+ fmt_d (Z.of_nat n) +:+ " texts") tenths
  /\ length tenths = (n / 10)%nat.
Proof.
  intros H n tenths. apply Embed_ok in H.
  destruct (embedded_calls _ _ _ _ _ _ _ H) as (bodies & Hall & Hsent & Hvecs & Hlog).
  split_and!.
  - now exists bodies.
  - rewrite (sent_since_app w w' _ Hsent), length_map.
    symmetry. exact (Forall2_length _ _ _ Hall).
  - exact Hvecs.
  - exact Hlog.
  - apply tenth_items_count.
Qed.


End EmbedderMore.

(** ** The vector store client *)

Section VectorMore.
Context `{FL : Floats} `{FM : !Fmt} `{NU : NetURL}.
Context {St : Type} `{RM : Remote St}.
Context `{JM : JSON (gmap string Value)} `{JS : JSON vector.searchResp}.

Lemma UpsertPoints_run (c : vector.Client) (points : list vector.Point) (w : World St) :
  vector.UpsertPoints c points w
  = match url_Parse_error (vector.collectionURL c +:+ "/points?wait=true") with
    | Some msg => (Err (wrap_err "create request" msg), w)
    | None =>
        match http_Do (upsertCall c points) (services w) with
        | (Err msg, st') =>
            (Err (wrap_err "upsert points" msg), after_exchange (upsertCall c points) st' w)
        | (Ok resp, st') =>
            let w1 := after_exchange (upsertCall c points) st' w in
            if StatusCode resp =? StatusOK then
              (Ok tt, after_log ("Upserted " +:+ fmt_d (Z.of_nat (length points))
                                 +:+ " points") w1)
            else
              (Err ("upsert failed (status " +:+ fmt_d (StatusCode resp) +:+ "): "
                    +:+ data (resp_Body resp)), w1)
        end
    end.
Proof.
  unfold vector.UpsertPoints. munfold. unfold NewRequestWithContext, Do.
  destruct (url_Parse_error _) as [msg|]; [reflexivity|].
  cbn. fold (upsertCall c points).
  destruct (http_Do _ _) as [[resp|msg] st']; [|reflexivity].
  now destruct (StatusCode resp =? StatusOK).
Qed.

(** X5. An upsert sends one request for the whole batch, to the points of
    the collection with the synchronous-commit flag, and succeeds exactly
    when the store answers 200; any other answer, and a failed exchange, is an
    error for the whole batch. The request lists one point per input point,
    in order, identified by the numeric identifier of its string identifier,
    with its vector and payload unchanged; an empty batch is sent all the
    same. *)
Theorem UpsertPoints_one_request (c : vector.Client) (points : list vector.Point)
    (w : World St) :
  url_Parse_error (vector.collectionURL c +:+ "/points?wait=true") = None ->
  let run := vector.UpsertPoints c points w in
  sent run.2 = sent w ++ [upsertCall c points]
  /\ (run.1 = Ok tt
      <-> exists resp st',
            http_Do (upsertCall c points) (services w) = (Ok resp, st')
            /\ StatusCode resp = StatusOK)
  /\ vector.upsertReq points !! "points" = Some (VMaps (map vector.qdrantPoint points))
  /\ (forall i p, points !! i = Some p ->
        exists q, map vector.qdrantPoint points !! i = Some q
                  /\ q !! "id" = Some (VInt (stringToNumericID (vector.ID p)))
                  /\ q !! "vector" = Some (VFloats32 (vector.Vector p))
                  /\ q !! "payload" = Some (VMap (vector.Payload p))).
Proof.
  intros Hurl run. subst run. rewrite UpsertPoints_run, Hurl.
  split_and!.
  - destruct (http_Do _ _) as [[resp|msg] st']; [|reflexivity]. cbv zeta.
    now destruct (StatusCode resp =? StatusOK).
  - destruct (http_Do _ _) as [[resp|msg] st']; cbv zeta.
    + destruct (Z.eqb_spec (StatusCode resp) StatusOK) as [Hs|Hs]; cbn; split.
      * intros _. now exists resp, st'.
      * reflexivity.
      * discriminate.
      * intros (resp' & st'' & [= <- <-] & Hs'). contradiction.
    + cbn. split; [discriminate|]. intros (resp' & st'' & [=] & _).
  - unfold vector.upsertReq. cbv zeta. rewrite fill_map. by simplify_map_eq.
  - intros i p Hi. exists (vector.qdrantPoint p).
    rewrite list_lookup_fmap, Hi. unfold vector.qdrantPoint.
    split_and!; by simplify_map_eq.
Qed.

Lemma Search_run (c : vector.Client) (v : list float32) (topK : Z) (w : World St) :
  let call := searchCall c (Marshal_ignoring_error (vector.searchReq v topK)) in
  vector.Search c v topK w
  = match url_Parse_error (vector.collectionURL c +:+ "/points/search") with
    | Some msg => (Err (wrap_err "create request" msg), w)
    | None =>
        match http_Do call (services w) with
        | (Err msg, st') => (Err (wrap_err "search" msg), after_exchange call st' w)
        | (Ok resp, st') =>
            let w1 := after_exchange call st' w in
            if StatusCode resp =? StatusOK then
              match Decode (A:=vector.searchResp) (resp_Body resp) with
              | Ok sr => (Ok (map vector.toSearchResult (vector.Result sr)), w1)
              | Err msg => (Err (wrap_err "decode response" msg), w1)
              end
            else
              (Err ("search failed (status " +:+ fmt_d (StatusCode resp) +:+ "): "
                    +:+ data (resp_Body resp)), w1)
        end
    end.
Proof.
  cbv zeta. unfold vector.Search. munfold. unfold NewRequestWithContext, Do.
  destruct (url_Parse_error _) as [msg|]; [reflexivity|].
  cbn. fold (searchCall c (Marshal_ignoring_error (vector.searchReq v topK))).
  destruct (http_Do _ _) as [[resp|msg] st']; [|reflexivity].
  destruct (StatusCode resp =? StatusOK); [|reflexivity]. cbn.
  destruct (Decode _) as [sr|msg]; [|reflexivity].
  now rewrite fill_map.
Qed.

(** X6. A search sends one request, asking for the [topK] nearest points of
    the query vector with their payloads. It succeeds exactly when the store
    answers 200 with a body that decodes; the results then are the hits of the
    response, one per hit and in the order of the response, each with the
    hit's score and payload, and identified by the string under "id" in the
    payload or, failing that, by the formatted raw identifier. *)
Theorem Search_results_follow_hits (c : vector.Client) (v : list float32) (topK : Z)
    (w : World St) :
  url_Parse_error (vector.collectionURL c +:+ "/points/search") = None ->
  let call := searchCall c (Marshal_ignoring_error (vector.searchReq v topK)) in
  let run := vector.Search c v topK w in
  sent run.2 = sent w ++ [call]
  /\ logged run.2 = logged w
  /\ (vector.searchReq v topK !! "vector" = Some (VFloats32 v)
      /\ vector.searchReq v topK !! "limit" = Some (VInt topK)
      /\ vector.searchReq v topK !! "with_payload" = Some (VBool true))
  /\ (forall results,
        run.1 = Ok results
        <-> exists resp st' sr,
              http_Do call (services w) = (Ok resp, st')
              /\ StatusCode resp = StatusOK
              /\ Decode (resp_Body resp) = Ok sr
              /\ results = map vector.toSearchResult (vector.Result sr))
  /\ (forall hits i hit,
        hits !! i = Some hit ->
        exists r, map vector.toSearchResult hits !! i = Some r
                  /\ vector.Score r = vector.hit_Score hit
                  /\ vector.sr_Payload r = vector.hit_Payload hit
                  /\ vector.sr_ID r
                     = match get_string (vector.hit_Payload hit) "id" with
                       | Some id => id
                       | None => fmt_v (vector.hit_ID hit)
                       end).
Proof.
  intros Hurl call run. subst run.
  pose proof (Search_run c v topK w) as Hrun. cbv zeta in Hrun. fold call in Hrun.
  rewrite Hrun, Hurl. clear Hrun.
  split_and!.
  - destruct (http_Do _ _) as [[resp|msg] st']; [|reflexivity]. cbv zeta.
    destruct (StatusCode resp =? StatusOK); [|reflexivity]. now destruct (Decode _).
  - destruct (http_Do _ _) as [[resp|msg] st']; [|reflexivity]. cbv zeta.
    destruct (StatusCode resp =? StatusOK); [|reflexivity]. now destruct (Decode _).
  - unfold vector.searchReq. by simplify_map_eq.
  - unfold vector.searchReq. by simplify_map_eq.
  - unfold vector.searchReq. by simplify_map_eq.
  - intros results. destruct (http_Do _ _) as [[resp|msg] st']; cbv zeta.
    + destruct (Z.eqb_spec (StatusCode resp) StatusOK) as [Hs|Hs].
      * destruct (Decode (resp_Body resp)) as [sr|msg] eqn:Hd; cbn; split.
        -- intros [= <-]. now exists resp, st', sr.
        -- intros (resp' & st'' & sr' & [= <- <-] & _ & Hd' & ->). congruence.
        -- discriminate.
        -- intros (resp' & st'' & sr' & [= <- <-] & _ & Hd' & _). congruence.
      * cbn. split; [discriminate|].
        intros (resp' & st'' & sr' & [= <- <-] & Hs' & _). contradiction.
    + cbn. split; [discriminate|]. intros (resp' & st'' & sr' & [=] & _).
  - intros hits i hit Hi. exists (vector.toSearchResult hit).
    rewrite list_lookup_fmap, Hi. split_and!; reflexivity.
Qed.

(** X7. Provisioning sends the check and then at most one creation, and
    nothing else; when the check fails in transport, the call fails with that
    error and creates nothing; when the collection's address does not parse,
    it fails before anything is sent. *)
Theorem EnsureCollection_requests (c : vector.Client) (w : World St) :
  let run := vector.EnsureCollection c w in
  (url_Parse_error (vector.collectionURL c) = None ->
     (sent_since w run.2 = [checkCall c]
      \/ sent_since w run.2 = [checkCall c; createCall c])
     /\ (forall msg st',
           http_Do (checkCall c) (services w) = (Err msg, st') ->
           run.1 = Err (wrap_err "check collection" msg)
           /\ sent_since w run.2 = [checkCall c]))
  /\ (forall msg,
        url_Parse_error (vector.collectionURL c) = Some msg ->
        run = (Err (wrap_err "check collection" msg), w)).
Proof.
  cbv zeta. split.
  - intros Hurl. rewrite (EnsureCollection_run c Hurl). split.
    + destruct (http_Do (checkCall c) (services w)) as [[resp|msg] st'] eqn:Hdo.
      * cbv zeta. destruct (StatusCode resp =? StatusOK).
        -- left. unfold sent_since. cbn. apply drop_app_length.
        -- right.
           assert (Hcreate : forall w0 : World St,
                     sent w0 = sent w ++ [checkCall c] ->
                     sent_since w (vector.createCollection c w0).2
                     = [checkCall c; createCall c]).
           { intros w0 Hw0.
             pose proof (createCollection_outcome c Hurl w0) as [Hs _].
             unfold sent_since. rewrite Hs, Hw0, <- app_assoc. apply drop_app_length. }
           destruct (StatusCode resp =? StatusNotFound); apply Hcreate; reflexivity.
      * left. unfold sent_since. cbn. apply drop_app_length.
    + intros msg st' Hdo. rewrite Hdo. cbn. split; [reflexivity|].
      unfold sent_since. cbn. apply drop_app_length.
  - intros msg Hurl. unfold vector.EnsureCollection, Get. munfold.
    unfold NewRequestWithContext. now rewrite Hurl.
Qed.

End VectorMore.

(** ** The ingestion pipeline *)

Section IngestMore.
Context `{FL : Floats} `{NU : NetURL} `{BF : Bufio}.
Context {St : Type} `{RM : Remote St}.
Context `{JOQ : JSON llm.OllamaRequest} `{JOR : JSON llm.OllamaResponse}.
Context `{JM : JSON (gmap string Value)} `{JE : JSON (list ingest.KnowledgeEntry)}.

(** The requests of a batch processed with success: one per entry to the
    embedding engine, then the upsert. *)
Lemma processBatch_ok_requests (s : ingest.Service) (b : list ingest.KnowledgeEntry)
    (w w1 : World St) :
  ingest.processBatch s b w = (Ok tt, w1) ->
  exists bodies vecs,
    Forall2 (fun entry body =>
               Marshal (embedRequest (ingest.embedder s) (ingest.entryToText entry))
               = Ok body) b bodies
    /\ length vecs = length b
    /\ sent w1 = sent w ++ map embedCall bodies
                 ++ [upsertCall (ingest.vectorClient s) (zip_with entryPoint b vecs)].
Proof.
  rewrite processBatch_run.
  destruct (llm.Embed _ _ w) as [[vecs|msg] w0] eqn:HE; [|discriminate].
  apply Embed_ok in HE.
  pose proof (embedded_length _ _ _ _ _ _ _ HE) as Hlen. rewrite length_map in Hlen.
  destruct (embedded_calls _ _ _ _ _ _ _ HE) as (bodies & Hall & Hs0 & _ & _).
  unfold wrap.
  destruct (vector.UpsertPoints _ _ w0) as [[[]|msg] w2] eqn:HU; [|discriminate].
  intros [= <-].
  destruct (UpsertPoints_sent _ _ _ _ _ HU) as (new & Hs2 & _ & Hnew).
  rewrite (Hnew eq_refl) in Hs2.
  exists bodies, vecs. split_and!.
  - apply Forall2_fmap_l in Hall. exact Hall.
  - exact Hlen.
  - now rewrite Hs2, Hs0, <- app_assoc.
Qed.


(** X8. Before the first batch: a file that cannot be read, or whose content
    does not parse, ends the run with that error, and a corpus without entries
    is a success; in all three cases no request is sent. *)
Theorem IngestJSONFile_before_batches (s : ingest.Service) (filePath : string)
    (w : World St) :
  (forall msg w0,
      ReadFile filePath w = (Err msg, w0) ->
      ingest.IngestJSONFile s filePath w = (Err (wrap_err "read file" msg), w0)
      /\ sent w0 = sent w /\ logged w0 = logged w)
  /\ (forall data w0 msg,
        ReadFile filePath w = (Ok data, w0) ->
        Unmarshal (A:=list ingest.KnowledgeEntry) data = Err msg ->
        ingest.IngestJSONFile s filePath w = (Err (wrap_err "unmarshal json" msg), w0)
        /\ sent w0 = sent w /\ logged w0 = logged w)
  /\ (forall data w0,
        ReadFile filePath w = (Ok data, w0) ->
        Unmarshal (A:=list ingest.KnowledgeEntry) data = Ok [] ->
        ingest.IngestJSONFile s filePath w = (Ok tt, after_load 0 filePath w0)
        /\ sent (after_load 0 filePath w0) = sent w).
Proof.
  assert (Hrf : forall r w0, ReadFile filePath w = (r, w0) ->
                             sent w0 = sent w /\ logged w0 = logged w).
  { unfold ReadFile. destruct (os_ReadFile filePath (services w)) as [r0 s0].
    now intros r w0 [= <- <-]. }
  unfold ingest.IngestJSONFile. munfold. split_and!.
  - intros msg w0 Hr. rewrite Hr. split; [reflexivity|]. exact (Hrf _ _ Hr).
  - intros data w0 msg Hr Hu. rewrite Hr, Hu. split; [reflexivity|]. exact (Hrf _ _ Hr).
  - intros data w0 Hr Hu. rewrite Hr, Hu.
    rewrite batch_loop_end by (cbn; lia). split; [reflexivity|].
    cbn. exact (proj1 (Hrf _ _ Hr)).
Qed.

(** The requests of batches processed with success. *)
Lemma batches_done_requests (s : ingest.Service) n k bs (w w' : World St) :
  batches_done s n k bs w w' ->
  exists new bodies,
    sent w' = sent w ++ new
    /\ length new = (length (concat bs) + length bs)%nat
    /\ Forall2 (fun entry body =>
                  Marshal (embedRequest (ingest.embedder s) (ingest.entryToText entry))
                  = Ok body) (concat bs) bodies
    /\ filter (fun r => is_upsert (ingest.vectorClient s) r = false) new
       = map embedCall bodies.
Proof.
  induction 1 as [k w|k b rest w w1 w2 Hb _ IH].
  - exists [], []. rewrite app_nil_r. split_and!; cbn; try reflexivity. constructor.
  - destruct (processBatch_ok_requests s b w w1 Hb) as (bodies & vecs & Hall & _ & Hs1).
    destruct IH as (new & bodies2 & Hs2 & Hlen & Hall2 & Hemb).
    cbn [after_batch sent] in Hs2.
    pose proof (Forall2_length _ _ _ Hall) as Hl.
    eexists. exists (bodies ++ bodies2). split_and!.
    + rewrite Hs2, Hs1, <- !app_assoc. reflexivity.
    + rewrite !length_app, length_map, Hlen. cbn [concat length].
      rewrite length_app. lia.
    + cbn [concat]. now apply Forall2_app.
    + rewrite !filter_app, Hemb, map_app.
      assert (Hf : forall l, filter (fun r => is_upsert (ingest.vectorClient s) r = false)
                                    (map embedCall l) = map embedCall l).
      { intros l. induction l as [|body l IHb]; [reflexivity|].
        cbn [map]. rewrite filter_cons_True by reflexivity. now rewrite IHb. }
      rewrite Hf. f_equal.
      rewrite filter_cons_False, filter_nil; [reflexivity|].
      unfold is_upsert. cbn [method url upsertCall]. rewrite !String.eqb_refl. discriminate.
Qed.

(** X9. A successful ingestion of [n] entries has sent [n] plus [n / 10]
    rounded up requests: one upsert per batch and, apart from them, one
    request to the embedding engine per entry, in the order of the entries,
    each with the text of its entry as prompt. *)
Theorem IngestJSONFile_request_count (s : ingest.Service) (filePath : string)
    (w w0 w' : World St) (data : string) (entries : list ingest.KnowledgeEntry) :
  ReadFile filePath w = (Ok data, w0) ->
  Unmarshal data = Ok entries ->
  ingest.IngestJSONFile s filePath w = (Ok tt, w') ->
  let n := length entries in
  let c := ingest.vectorClient s in
  length (sent_since w w') = (n + batch_count n)%nat
  /\ length (filter (fun r => is_upsert c r = true) (sent_since w w')) = batch_count n
  /\ exists bodies,
       Forall2 (fun entry body =>
                  Marshal (embedRequest (ingest.embedder s) (ingest.entryToText entry))
                  = Ok body) entries bodies
       /\ filter (fun r => is_upsert c r = false) (sent_since w w') = map embedCall bodies.
Proof.
  intros Hread Hparse Hrun n c. subst c.
  rewrite (IngestJSONFile_run s filePath w w0 data entries Hread Hparse) in Hrun.
  apply (batch_loop_ok s entries (batch_count (length entries)) 0) in Hrun; [|lia].
  rewrite drop_0 in Hrun.
  assert (Hw0 : sent (after_load (length entries) filePath w0) = sent w).
  { cbn. unfold ReadFile in Hread. destruct (os_ReadFile filePath (services w)).
    now injection Hread as _ <-. }
  destruct (batches_done_requests s _ _ _ _ _ Hrun) as (new & bodies & Hs & Hlen & Hb & Hemb).
  destruct (batches_done_upserts s _ _ _ _ _ Hrun) as (vecss & new' & Hall & Hs' & Hf).
  rewrite Hw0 in Hs, Hs'.
  assert (new' = new) as -> by (rewrite Hs in Hs'; now apply app_inv_head in Hs').
  rewrite (sent_since_app w w' new Hs).
  rewrite batches_concat in Hlen, Hb. rewrite batches_length in Hlen.
  split_and!.
  - exact Hlen.
  - rewrite Hf, length_zip_with, batches_length.
    apply Forall2_length in Hall. rewrite batches_length in Hall. unfold n. lia.
  - now exists bodies.
Qed.


End IngestMore.

(** ** The query pipeline *)

Section QueryMore.
Context `{FL : Floats} `{FM : !Fmt} `{NU : NetURL} `{BF : Bufio}.
Context {St : Type} `{RM : Remote St}.
Context `{JOQ : JSON llm.OllamaRequest} `{JOR : JSON llm.OllamaResponse}.
Context `{JM : JSON (gmap string Value)} `{JS : JSON vector.searchResp}.
Context `{JCQ : JSON llm.ChatRequest} `{JCR : JSON llm.ChatResponse}.
Context `{JSD : JSON llm.StreamDelta}.

Lemma send_run (c : llm.Client) (messages : list llm.Message) (maxTokens : Z)
    (stream : bool) (w : World St) :
  llm.send c messages maxTokens stream w
  = match Marshal {| llm.cr_Model := llm.model c; llm.Messages := messages;
                     llm.MaxTokens := maxTokens; llm.Temperature := float64_0_7;
                     llm.Stream := stream |} with
    | Err msg => (Err (wrap_err "marshal request" msg), w)
    | Ok body =>
        match url_Parse_error llm.groqAPIURL with
        | Some msg => (Err (wrap_err "create request" msg), w)
        | None =>
            match http_Do (chatCall c body) (services w) with
            | (Err msg, st') =>
                (Err (wrap_err "do request" msg), after_exchange (chatCall c body) st' w)
            | (Ok resp, st') =>
                let w1 := after_exchange (chatCall c body) st' w in
                if StatusCode resp =? StatusOK then (Ok resp, w1)
                else (Err ("groq error: status " +:+ fmt_d (StatusCode resp)
                           +:+ ", body: " +:+ data (resp_Body resp)), w1)
            end
        end
    end.
Proof.
  unfold llm.send. munfold. unfold NewRequestWithContext, Do.
  destruct (Marshal _) as [body|msg]; [|reflexivity].
  destruct (url_Parse_error _) as [msg|]; [reflexivity|].
  cbn. fold (chatCall c body).
  destruct (http_Do _ _) as [[resp|msg] st']; [|reflexivity].
  now destruct (StatusCode resp =? StatusOK).
Qed.

(** Each step sends its one request, or fails before sending it. *)
Lemma embedSingle_step (e : llm.Embedder) (text : string) (w : World St) r w' :
  llm.embedSingle e text w = (r, w') ->
  exists body l,
    sent w' = sent w ++ l /\ logged w' = logged w
    /\ l `prefix_of` [embedCall body]
    /\ (forall vec, r = Ok vec ->
          l = [embedCall body] /\ Marshal (embedRequest e text) = Ok body).
Proof.
  rewrite embedSingle_run.
  destruct (Marshal _) as [body|msg] eqn:Hm;
    [|intros [= <- <-]; exists "", []; rewrite app_nil_r;
      split_and!; [reflexivity|reflexivity|apply prefix_nil|discriminate]].
  destruct (url_Parse_error _) as [msg|];
    [intros [= <- <-]; exists "", []; rewrite app_nil_r;
     split_and!; [reflexivity|reflexivity|apply prefix_nil|discriminate]|].
  intros H. exists body, [embedCall body].
  destruct (http_Do _ _) as [[resp|msg] st']; cbv zeta in H.
  - assert (sent w' = sent w ++ [embedCall body] /\ logged w' = logged w) as [? ?].
    { destruct (read_error _); [now injection H as _ <-|].
      destruct (negb _); [now injection H as _ <-|].
      destruct (Unmarshal _) as [o|?]; [|now injection H as _ <-].
      destruct (llm.Embedding o); now injection H as _ <-. }
    split_and!; try assumption; try reflexivity. intros _ _. now split.
  - injection H as <- <-. split_and!; try reflexivity. discriminate.
Qed.

Lemma Search_step (c : vector.Client) (v : list float32) (topK : Z) (w : World St) r w' :
  vector.Search c v topK w = (r, w') ->
  exists l,
    sent w' = sent w ++ l /\ logged w' = logged w
    /\ l `prefix_of` [searchCall c (Marshal_ignoring_error (vector.searchReq v topK))]
    /\ (forall results, r = Ok results ->
          l = [searchCall c (Marshal_ignoring_error (vector.searchReq v topK))]).
Proof.
  pose proof (Search_run c v topK w) as Hrun. cbv zeta in Hrun. rewrite Hrun. clear Hrun.
  destruct (url_Parse_error _) as [msg|];
    [intros [= <- <-]; exists []; rewrite app_nil_r;
     split_and!; [reflexivity|reflexivity|apply prefix_nil|discriminate]|].
  intros H. eexists [_].
  destruct (http_Do _ _) as [[resp|msg] st']; cbv zeta in H.
  - destruct (StatusCode resp =? StatusOK).
    + destruct (Decode _); injection H as _ <-; split_and!; reflexivity.
    + injection H as _ <-. split_and!; reflexivity.
  - injection H as _ <-. split_and!; reflexivity.
Qed.

Lemma send_step (c : llm.Client) (messages : list llm.Message) (maxTokens : Z)
    (stream : bool) (w : World St) r w' :
  llm.send c messages maxTokens stream w = (r, w') ->
  exists body l,
    sent w' = sent w ++ l /\ logged w' = logged w
    /\ l `prefix_of` [chatCall c body]
    /\ (forall resp, r = Ok resp ->
          l = [chatCall c body] /\ StatusCode resp = StatusOK
          /\ Marshal {| llm.cr_Model := llm.model c; llm.Messages := messages;
                        llm.MaxTokens := maxTokens; llm.Temperature := float64_0_7;
                        llm.Stream := stream |} = Ok body).
Proof.
  rewrite send_run.
  destruct (Marshal _) as [body|msg];
    [|intros [= <- <-]; exists "", []; rewrite app_nil_r;
      split_and!; [reflexivity|reflexivity|apply prefix_nil|discriminate]].
  destruct (url_Parse_error _) as [msg|];
    [intros [= <- <-]; exists "", []; rewrite app_nil_r;
     split_and!; [reflexivity|reflexivity|apply prefix_nil|discriminate]|].
  intros H. exists body, [chatCall c body].
  destruct (http_Do _ _) as [[resp|msg] st']; cbv zeta in H.
  - destruct (Z.eqb_spec (StatusCode resp) StatusOK); injection H as <- <-;
      split_and!; try reflexivity; try discriminate.
    intros ? [= <-]. now split_and!.
  - injection H as <- <-. split_and!; try reflexivity. discriminate.
Qed.



Lemma StreamQuery_run {W : Type} `{WR : Writer W} (s : rag.Service)
    (userQuery : string) (writer : W) (w : World St) :
  rag.StreamQuery s userQuery writer w
  = match llm.EmbedSingle (rag.embedder s) userQuery w with
    | (Err e, w1) => ((Err (wrap_err "embed query" e), writer), w1)
    | (Ok queryEmbedding, w1) =>
        match vector.Search (rag.vectorClient s) queryEmbedding (rag.topK s) w1 with
        | (Err e, w2) => ((Err (wrap_err "search" e), writer), w2)
        | (Ok results, w2) =>
            match llm.send (rag.llmClient s)
                    (rag.messages (rag.buildContext results) userQuery) 1024 true w2 with
            | (Err e, w3) => ((Err e, writer), w3)
            | (Ok resp, w3) =>
                (llm.scan_loop (NewScanner (resp_Body resp)) writer, w3)
            end
        end
    end.
Proof.
  unfold rag.StreamQuery. unfold wrap at 1.
  destruct (llm.EmbedSingle _ _ w) as [[emb|e] w1]; [|reflexivity].
  unfold wrap at 1.
  destruct (vector.Search _ _ _ w1) as [[results|e] w2]; reflexivity.
Qed.

(** X12. The streaming query sends the same chain as the plain one, its
    completion request marshalled with [Stream] set: at most the embedding
    of the question, the search and the completion request, in this order.
    It logs nothing. Unless all three were sent, the call fails and the
    writer is as it was given; a call that succeeds has sent all three. *)
Theorem StreamQuery_request_chain {W : Type} `{WR : Writer W} (s : rag.Service)
    (userQuery : string) (writer : W) (w : World St) :
  let run := rag.StreamQuery s userQuery writer w in
  exists embedBody searchBody chatBody,
    let chain := [embedCall embedBody;
                  searchCall (rag.vectorClient s) searchBody;
                  chatCall (rag.llmClient s) chatBody] in
    sent_since w run.2 `prefix_of` chain
    /\ logged run.2 = logged w
    /\ (sent_since w run.2 <> chain ->
          run.1.2 = writer /\ exists msg, run.1.1 = Err msg)
    /\ (run.1.1 = Ok tt ->
          sent_since w run.2 = chain
          /\ Marshal (embedRequest (rag.embedder s) userQuery) = Ok embedBody
          /\ exists results,
               Marshal {| llm.cr_Model := llm.model (rag.llmClient s);
                          llm.Messages := rag.messages (rag.buildContext results) userQuery;
                          llm.MaxTokens := 1024;
                          llm.Temperature := float64_0_7;
                          llm.Stream := true |} = Ok chatBody).
Proof.
  cbv zeta. rewrite StreamQuery_run. unfold llm.EmbedSingle.
  destruct (llm.embedSingle _ _ w) as [[emb|e] w1] eqn:He.
  - destruct (embedSingle_step _ _ _ _ _ He) as (b1 & l1 & Hs1 & Hl1 & _ & Hok1).
    destruct (Hok1 emb eq_refl) as [-> Hm1]. clear Hok1.
    destruct (vector.Search _ _ _ w1) as [[results|e] w2] eqn:Hse.
    + destruct (Search_step _ _ _ _ _ _ Hse) as (l2 & Hs2 & Hl2 & _ & Hok2).
      rewrite (Hok2 results eq_refl) in Hs2. clear Hok2.
      destruct (llm.send _ _ _ _ w2) as [[resp|e] w3] eqn:Hc.
      * destruct (send_step _ _ _ _ _ _ _ Hc) as (b3 & l3 & Hs3 & Hl3 & _ & Hok3).
        destruct (Hok3 resp eq_refl) as (-> & _ & Hm). clear Hok3.
        exists b1, (Marshal_ignoring_error (vector.searchReq emb (rag.topK s))), b3.
        assert (Hall : sent w3 = sent w ++ [embedCall b1;
                   searchCall (rag.vectorClient s)
                     (Marshal_ignoring_error (vector.searchReq emb (rag.topK s)));
                   chatCall (rag.llmClient s) b3])
          by (rewrite Hs3, Hs2, Hs1, <- !app_assoc; reflexivity).
        cbn [fst snd]. rewrite (sent_since_app _ _ _ Hall).
        split_and!; [reflexivity|congruence|intros Hne; now destruct Hne|].
        intros _. split_and!; [reflexivity|exact Hm1|]. exists results. exact Hm.
      * destruct (send_step _ _ _ _ _ _ _ Hc) as (b3 & l3 & Hs3 & Hl3 & Hp3 & _).
        exists b1, (Marshal_ignoring_error (vector.searchReq emb (rag.topK s))), b3.
        assert (Hall : sent w3 = sent w ++ [embedCall b1;
                   searchCall (rag.vectorClient s)
                     (Marshal_ignoring_error (vector.searchReq emb (rag.topK s)))] ++ l3)
          by (rewrite Hs3, Hs2, Hs1, <- !app_assoc; reflexivity).
        cbn [fst snd]. rewrite (sent_since_app _ _ _ Hall).
        split_and!; [|congruence| |discriminate].
        -- exact (prefix_app [embedCall b1; searchCall (rag.vectorClient s)
                 (Marshal_ignoring_error (vector.searchReq emb (rag.topK s)))] _ _ Hp3).
        -- intros _. split; [reflexivity|]. now exists e.
    + destruct (Search_step _ _ _ _ _ _ Hse) as (l2 & Hs2 & Hl2 & Hp2 & _).
      exists b1, (Marshal_ignoring_error (vector.searchReq emb (rag.topK s))), "".
      assert (Hall : sent w2 = sent w ++ [embedCall b1] ++ l2)
        by (rewrite Hs2, Hs1, <- !app_assoc; reflexivity).
      cbn [fst snd]. rewrite (sent_since_app _ _ _ Hall).
      split_and!; [|congruence| |discriminate].
      * etransitivity; [exact (prefix_app [embedCall b1] _ _ Hp2)|].
        cbn. now exists [chatCall (rag.llmClient s) ""].
      * intros _. split; [reflexivity|]. now eexists.
  - destruct (embedSingle_step _ _ _ _ _ He) as (b1 & l1 & Hs1 & Hl1 & Hp1 & _).
    exists b1, "", "". cbn [fst snd]. rewrite (sent_since_app _ _ _ Hs1).
    split_and!; [|exact Hl1| |discriminate].
    + etransitivity; [exact Hp1|]. now eexists [_; _].
    + intros _. split; [reflexivity|]. now eexists.
Qed.

(** What the streaming query does to a writer, it does by writing to it. *)
Lemma deliver_invariant {W : Type} `{WR : Writer W} (P : W -> Prop) :
  (forall wr p, P wr -> P (Write wr p).2) ->
  forall frags wr, P wr -> P (deliver frags wr).2.
Proof.
  intros HW frags. induction frags as [|frag frags IH]; intros wr HP; [exact HP|].
  cbn [deliver]. specialize (HW wr frag HP).
  destruct (Write wr frag) as [[e|] wr']; [exact HW|]. apply IH. exact HW.
Qed.

Lemma scan_loop_invariant {W : Type} `{WR : Writer W} (P : W -> Prop) :
  (forall wr p, P wr -> P (Write wr p).2) ->
  forall sc wr, P wr -> P (llm.scan_loop sc wr).2.
Proof.
  intros HW sc wr HP. rewrite scan_loop_deliver.
  pose proof (deliver_invariant P HW (fragments (scanner_lines sc)) wr HP) as H.
  now destruct (deliver _ wr) as [[[]|e] wr'].
Qed.

Lemma StreamQuery_invariant {W : Type} `{WR : Writer W} (P : W -> Prop)
    (s : rag.Service) (userQuery : string) (writer : W) (w : World St) :
  (forall wr p, P wr -> P (Write wr p).2) ->
  P writer -> P (rag.StreamQuery s userQuery writer w).1.2.
Proof.
  intros HW HP. rewrite StreamQuery_run.
  destruct (llm.EmbedSingle _ _ w) as [[emb|e] w1]; [|exact HP].
  destruct (vector.Search _ _ _ w1) as [[results|e] w2]; [|exact HP].
  destruct (llm.send _ _ _ _ w2) as [[resp|e] w3]; [|exact HP].
  exact (scan_loop_invariant P HW _ _ HP).
Qed.

(** The sections of a context are not empty. *)
Lemma str_app_eq_nil (a b : string) : a +:+ b = "" -> a = "" /\ b = "".
Proof. destruct a; [intros H; split; [reflexivity|exact H]|discriminate]. Qed.

Lemma str_concat_nil (l : list string) :
  Forall (fun x => x <> "") l -> str_concat l = "" -> l = [].
Proof.
  destruct l as [|x l]; [reflexivity|].
  intros HF H. cbn in H. apply str_app_eq_nil in H as [Hx _].
  inversion HF; subst. contradiction.
Qed.

Lemma section_of_nonempty i r sec : section_of i r = Some sec -> sec <> "".
Proof.
  unfold section_of. destruct (get_string _ _); [|discriminate].
  intros [= <-]. discriminate.
Qed.

(** X13. The context is empty exactly when no result carries a stored text
    (a string under the payload key "text"); in particular when there is no
    result. *)
Theorem buildContext_empty_iff (results : list vector.SearchResult) :
  rag.buildContext results = ""
  <-> forall r, r ∈ results -> get_string (vector.sr_Payload r) "text" = None.
Proof.
  rewrite buildContext_sections. unfold context_sections. split.
  - intros H.
    apply str_concat_nil in H.
    + intros r Hr. apply list_elem_of_lookup in Hr as [i Hi].
      destruct (get_string (vector.sr_Payload r) "text") as [text|] eqn:Ht; [|reflexivity].
      assert (Hin : ("--- Document " +:+ fmt_d (Z.of_nat i + 1) +:+ " (score: "
            +:+ fmt_2f (vector.Score r) +:+ ") ---" +:+ nl +:+ text +:+ nl +:+ nl)
            ∈ omap (fun ir => section_of ir.1 ir.2) (imap pair results)).
      { apply list_elem_of_omap. exists (i, r). split.
        - apply list_elem_of_lookup. exists i. rewrite list_lookup_imap, Hi. reflexivity.
        - unfold section_of. cbn. now rewrite Ht. }
      rewrite H in Hin. now apply elem_of_nil in Hin.
    + apply Forall_forall. intros sec Hsec.
      apply list_elem_of_omap in Hsec as ([i r] & _ & Hs).
      now apply section_of_nonempty in Hs.
  - intros H.
    assert (Hnil : omap (fun ir => section_of ir.1 ir.2) (imap pair results) = []).
    { destruct (omap _ _) as [|sec l] eqn:Ho; [reflexivity|].
      assert (Hsec : sec ∈ omap (fun ir => section_of ir.1 ir.2) (imap pair results))
        by (rewrite Ho; left).
      apply list_elem_of_omap in Hsec as ([i r] & Hir & Hs).
      apply list_elem_of_lookup in Hir as [j Hj].
      rewrite list_lookup_imap in Hj.
      destruct (results !! j) as [r'|] eqn:Hr; [|discriminate].
      injection Hj as <- <-.
      unfold section_of in Hs. cbn in Hs.
      rewrite (H r') in Hs by (apply list_elem_of_lookup; now exists j). discriminate. }
    now rewrite Hnil.
Qed.


End QueryMore.

(** ** The server's handlers *)

Section ServerProperties.
Context `{FL : Floats} `{FM : !Fmt} `{NU : NetURL} `{BF : Bufio}.
Context {St : Type} `{RM : Remote St}.
Context `{JOQ : JSON llm.OllamaRequest} `{JOR : JSON llm.OllamaResponse}.
Context `{JM : JSON (gmap string Value)} `{JS : JSON vector.searchResp}.
Context `{JCQ : JSON llm.ChatRequest} `{JCR : JSON llm.ChatResponse}.
Context `{JSD : JSON llm.StreamDelta}.
Context `{JQ : JSON server.ChatRequest} `{JR : JSON server.ChatResponse}.

Lemma Get_Set_eq (h : server.Header) (k v : string) :
  server.Get_ (server.Set_ h k v) k = v.
Proof.
  unfold server.Get_, server.Set_, server.Header in *. rewrite filter_app.
  replace (filter (fun kv : string * string => kv.1 = k)
             (filter (fun kv : string * string => kv.1 <> k) h)) with (@nil (string * string)).
  - rewrite filter_cons_True by reflexivity. reflexivity.
  - symmetry. induction h as [|[k0 v0] h IH]; [reflexivity|].
    destruct (decide (k0 = k)) as [->|Hne].
    + rewrite filter_cons_False by (cbn; intros Hc; now apply Hc). exact IH.
    + rewrite filter_cons_True by exact Hne.
      rewrite filter_cons_False by exact Hne. exact IH.
Qed.

Lemma Get_Set_ne (h : server.Header) (k k' v : string) :
  k <> k' -> server.Get_ (server.Set_ h k v) k' = server.Get_ h k'.
Proof.
  intros Hne. unfold server.Get_, server.Set_, server.Header in *. rewrite filter_app.
  rewrite filter_cons_False by exact Hne. rewrite filter_nil, app_nil_r.
  replace (filter (fun kv : string * string => kv.1 = k')
             (filter (fun kv : string * string => kv.1 <> k) h))
    with (filter (fun kv : string * string => kv.1 = k') h); [reflexivity|].
  induction h as [|[k0 v0] h IH]; [reflexivity|].
  destruct (decide (k0 = k')) as [->|Hne'].
  - rewrite filter_cons_True by reflexivity.
    rewrite (filter_cons_True (fun kv : string * string => kv.1 <> k))
      by (cbn; congruence).
    rewrite filter_cons_True by reflexivity. now f_equal.
  - rewrite filter_cons_False by exact Hne'.
    destruct (decide (k0 = k)) as [->|Hne''].
    + rewrite (filter_cons_False (fun kv : string * string => kv.1 <> k))
        by (cbn; intros Hc; now apply Hc). exact IH.
    + rewrite (filter_cons_True (fun kv : string * string => kv.1 <> k)) by exact Hne''.
      rewrite filter_cons_False by exact Hne'. exact IH.
Qed.

(** The fields of a response under the operations of the writer. *)
Lemma WriteHeader_fields (wr : server.ResponseWriter) (code : Z) :
  server.written (server.WriteHeader wr code) = server.written wr
  /\ server.flushes (server.WriteHeader wr code) = server.flushes wr
  /\ server.writes_left (server.WriteHeader wr code) = server.writes_left wr.
Proof. unfold server.WriteHeader. now destruct (server.wrote wr). Qed.

Lemma WriteHeader_wrote (wr : server.ResponseWriter) (code : Z) :
  server.wrote (server.WriteHeader wr code)
  = Some (default (code, server.header wr) (server.wrote wr)).
Proof. unfold server.WriteHeader. now destruct (server.wrote wr) eqn:H. Qed.

Lemma Write_wrote (wr : server.ResponseWriter) (p : string) :
  server.wrote (server.Write_ wr p).2
  = Some (default (StatusOK, server.header wr) (server.wrote wr)).
Proof.
  rewrite <- WriteHeader_wrote. unfold server.Write_.
  now destruct (server.writes_left _) as [[|k]|].
Qed.

Lemma Write_written (wr : server.ResponseWriter) (p : string) :
  server.writes_left wr <> Some 0%nat ->
  server.written (server.Write_ wr p).2 = server.written wr +:+ p
  /\ server.flushes (server.Write_ wr p).2 = server.flushes wr.
Proof.
  intros Hopen. unfold server.Write_, server.WriteHeader.
  destruct (server.wrote wr); destruct (server.writes_left wr) as [[|k]|] eqn:Hb;
    try contradiction; cbn; rewrite ?Hb; now split.
Qed.

(** [http.Error] on a response that has not started and a connection that
    is open. *)
Lemma Error_response (w : server.ResponseWriter) (msg : string) (code : Z) :
  server.wrote w = None -> server.writes_left w <> Some 0%nat ->
  server.error_response w (server.Error w msg code) code msg.
Proof.
  intros Hfresh Hopen. unfold server.error_response, server.Error. cbv zeta.
  set (w1 := server.Header_Set (server.Header_Set w "Content-Type"
               "text/plain; charset=utf-8") "X-Content-Type-Options" "nosniff").
  assert (Hw : server.wrote (server.Write_ (server.WriteHeader w1 code) (msg +:+ nl)).2
               = Some (code, server.header w1)).
  { rewrite Write_wrote, WriteHeader_wrote.
    change (server.wrote w1) with (server.wrote w). now rewrite Hfresh. }
  destruct (Write_written (server.WriteHeader w1 code) (msg +:+ nl)) as [Hwr Hf].
  { destruct (WriteHeader_fields w1 code) as (_ & _ & ->). exact Hopen. }
  destruct (WriteHeader_fields w1 code) as (F1 & F2 & _).
  unfold server.status, server.sent_header. rewrite Hw, Hwr, Hf, F1, F2.
  split_and!; [reflexivity| |reflexivity|reflexivity].
  change (server.header w1)
    with (server.Set_ (server.Set_ (server.header w) "Content-Type"
            "text/plain; charset=utf-8") "X-Content-Type-Options" "nosniff").
  rewrite Get_Set_ne by discriminate. apply Get_Set_eq.
Qed.

(** X15. The chat endpoint turns away what it cannot serve before it asks
    any service: another method than POST with status 405, a body that does
    not decode and an empty query with status 400, and a streaming request
    on a connection that cannot flush with status 500. Each time the
    response is the plain-text message on a line, no request is sent and
    nothing is logged. *)
Theorem chatHandler_rejections (ragService : rag.Service) (w : server.ResponseWriter)
    (r : server.Request) (world : World St) :
  server.wrote w = None -> server.writes_left w <> Some 0%nat ->
  let out := server.chatHandler ragService w r world in
  (server.Method r <> "POST" ->
     out.2 = world
     /\ server.error_response w out.1 server.StatusMethodNotAllowed "Method not allowed")
  /\ (server.Method r = "POST" ->
      forall e, Decode (A:=server.ChatRequest) (server.req_Body r) = Err e ->
        out.2 = world
        /\ server.error_response w out.1 server.StatusBadRequest "Invalid request body")
  /\ (server.Method r = "POST" ->
      forall req, Decode (server.req_Body r) = Ok req -> server.Query req = "" ->
        out.2 = world
        /\ server.error_response w out.1 server.StatusBadRequest "Query is required")
  /\ (server.Method r = "POST" ->
      forall req, Decode (server.req_Body r) = Ok req -> server.Query req <> "" ->
        server.Stream req = true -> server.is_Flusher w = false ->
        out.2 = world
        /\ server.error_response w out.1 server.StatusInternalServerError
             "Streaming not supported").
Proof.
  intros Hfresh Hopen. cbv zeta. unfold server.chatHandler. split_and!.
  - intros Hm. destruct (String.eqb_spec (server.Method r) "POST"); [contradiction|].
    cbn [negb fst snd]. split; [reflexivity|]. now apply Error_response.
  - intros -> e ->. cbn [String.eqb negb fst snd].
    change ("POST" =? "POST")%string with true. cbn [negb fst snd].
    split; [reflexivity|]. now apply Error_response.
  - intros -> req -> Hq. change ("POST" =? "POST")%string with true. cbn [negb].
    rewrite Hq. change ("" =? "")%string with true. cbn [fst snd].
    split; [reflexivity|]. now apply Error_response.
  - intros -> req -> Hq Hs Hf. change ("POST" =? "POST")%string with true. cbn [negb].
    destruct (String.eqb_spec (server.Query req) ""); [contradiction|].
    rewrite Hs. cbn [server.is_Flusher server.Header_Set]. rewrite Hf. cbn [negb fst snd].
    split; [reflexivity|].
    pose proof (Error_response
      (server.Header_Set (server.Header_Set (server.Header_Set w
         "Content-Type" "text/event-stream") "Cache-Control" "no-cache")
         "Connection" "keep-alive") "Streaming not supported"
      server.StatusInternalServerError Hfresh Hopen) as H.
    exact H.
Qed.

(** The handler's way to the two modes. *)
Lemma chatHandler_serves (ragService : rag.Service) (w : server.ResponseWriter)
    (r : server.Request) (world : World St) req :
  server.Method r = "POST" -> Decode (server.req_Body r) = Ok req ->
  server.Query req <> "" ->
  server.chatHandler ragService w r world
  = if server.Stream req then
      let w0 := server.Header_Set (server.Header_Set (server.Header_Set w
                  "Content-Type" "text/event-stream") "Cache-Control" "no-cache")
                  "Connection" "keep-alive" in
      if negb (server.is_Flusher w0) then
        (server.Error w0 "Streaming not supported" server.StatusInternalServerError, world)
      else
        match rag.StreamQuery (WR:=server.flushWriter) ragService (server.Query req) w0 world with
        | ((Err e, w'), world') => (w', after_log ("Stream error: " +:+ e) world')
        | ((Ok _, w'), world') => (w', world')
        end
    else
      match rag.Query ragService (server.Query req) world with
      | (Err e, world') =>
          (server.Error w "Internal server error" server.StatusInternalServerError,
           after_log ("Query error: " +:+ e) world')
      | (Ok result, world') =>
          (server.Encode (server.Header_Set w "Content-Type" "application/json")
             {| server.Answer := rag.Answer result;
                server.Sources := map server.toSource (rag.Sources result) |}, world')
      end.
Proof.
  intros Hm Hd Hq. unfold server.chatHandler. rewrite Hm, Hd.
  change ("POST" =? "POST")%string with true. cbn [negb].
  destruct (String.eqb_spec (server.Query req) ""); [contradiction|].
  destruct (server.Stream req).
  - cbv zeta. destruct (negb _); [reflexivity|].
    now destruct (rag.StreamQuery _ _ _ _) as [[[[]|e] w'] world'].
  - destruct (rag.Query _ _ _) as [[result|e] world']; [|reflexivity].
    cbv zeta. rewrite fill_map. reflexivity.
Qed.

(** X16. A query that fails is answered with status 500 and the fixed line
    "Internal server error": the response does not depend on the error, which
    goes to the log only, as "Query error: " and the error. *)
Theorem chatHandler_hides_query_errors (ragService : rag.Service)
    (w : server.ResponseWriter) (r : server.Request) (world world' : World St) req e :
  server.wrote w = None -> server.writes_left w <> Some 0%nat ->
  server.Method r = "POST" -> Decode (server.req_Body r) = Ok req ->
  server.Query req <> "" -> server.Stream req = false ->
  rag.Query ragService (server.Query req) world = (Err e, world') ->
  let out := server.chatHandler ragService w r world in
  out.1 = server.Error w "Internal server error" server.StatusInternalServerError
  /\ server.error_response w out.1 server.StatusInternalServerError "Internal server error"
  /\ out.2 = after_log ("Query error: " +:+ e) world'.
Proof.
  intros Hfresh Hopen Hm Hd Hq Hs Hrun. cbv zeta.
  rewrite (chatHandler_serves _ _ _ _ _ Hm Hd Hq), Hs, Hrun. cbn [fst snd].
  split_and!; [reflexivity|now apply Error_response|reflexivity].
Qed.

(** X17. A query that succeeds is answered with status 200 and content type
    application/json; the body is the marshalled response on a line, made of
    the answer and of the result's sources, one for one and in order. A
    response that does not marshal leaves the body empty, the status still
    being 200. Nothing is logged. *)
Theorem chatHandler_answers_json (ragService : rag.Service)
    (w : server.ResponseWriter) (r : server.Request) (world world' : World St)
    req result :
  server.wrote w = None -> server.writes_left w <> Some 0%nat ->
  server.Method r = "POST" -> Decode (server.req_Body r) = Ok req ->
  server.Query req <> "" -> server.Stream req = false ->
  rag.Query ragService (server.Query req) world = (Ok result, world') ->
  let out := server.chatHandler ragService w r world in
  let resp := {| server.Answer := rag.Answer result;
                 server.Sources := map server.toSource (rag.Sources result) |} in
  out.2 = world'
  /\ server.status out.1 = StatusOK
  /\ server.Get_ (server.sent_header out.1) "Content-Type" = "application/json"
  /\ (forall b, Marshal resp = Ok b -> server.written out.1 = server.written w +:+ b +:+ nl)
  /\ (forall e, Marshal resp = Err e -> server.written out.1 = server.written w).
Proof.
  intros Hfresh Hopen Hm Hd Hq Hs Hrun. cbv zeta.
  rewrite (chatHandler_serves _ _ _ _ _ Hm Hd Hq), Hs, Hrun. cbn [fst snd].
  unfold server.Encode.
  destruct (Marshal _) as [b|e0].
  - unfold server.status, server.sent_header, server.Write_, server.WriteHeader,
      server.Header_Set.
    cbn -[server.Get_ server.Set_ String.append]. rewrite Hfresh.
    cbn -[server.Get_ server.Set_ String.append].
    destruct (server.writes_left w) as [[|k]|]; [contradiction| |];
      cbn -[server.Get_ server.Set_ String.append];
      (split_and!; [reflexivity|reflexivity|apply Get_Set_eq| |discriminate]);
      now intros ? [= <-].
  - unfold server.status, server.sent_header, server.Header_Set.
    cbn -[server.Get_ server.Set_ String.append]. rewrite Hfresh.
    split_and!; [reflexivity|reflexivity|apply Get_Set_eq|discriminate|reflexivity].
Qed.








(** What the handlers do to a response keeps the CORS headers, in the header
    map and in the header that went out. *)
Lemma cors_Set (h : server.Header) (k v : string) :
  k <> "Access-Control-Allow-Origin" -> k <> "Access-Control-Allow-Methods" ->
  k <> "Access-Control-Allow-Headers" ->
  server.cors h -> server.cors (server.Set_ h k v).
Proof.
  intros H1 H2 H3 (C1 & C2 & C3). unfold server.cors.
  rewrite !Get_Set_ne by assumption. now split_and!.
Qed.

Lemma cors_kept_Header_Set (wr : server.ResponseWriter) (k v : string) :
  k <> "Access-Control-Allow-Origin" -> k <> "Access-Control-Allow-Methods" ->
  k <> "Access-Control-Allow-Headers" ->
  server.cors (server.header wr) /\ server.cors (server.sent_header wr) ->
  server.cors (server.header (server.Header_Set wr k v))
  /\ server.cors (server.sent_header (server.Header_Set wr k v)).
Proof.
  intros H1 H2 H3 [Ch Cs]. unfold server.sent_header, server.Header_Set in *.
  cbn -[server.Set_]. destruct (server.wrote wr) as [[code h]|].
  - split; [now apply cors_Set|exact Cs].
  - split; now apply cors_Set.
Qed.

Lemma cors_kept_WriteHeader (wr : server.ResponseWriter) (code : Z) :
  server.cors (server.header wr) /\ server.cors (server.sent_header wr) ->
  server.cors (server.header (server.WriteHeader wr code))
  /\ server.cors (server.sent_header (server.WriteHeader wr code)).
Proof.
  intros [Ch Cs]. unfold server.sent_header, server.WriteHeader in *.
  destruct (server.wrote wr) as [[code0 h]|] eqn:Hw; cbn; rewrite ?Hw; now split.
Qed.

Lemma cors_kept_Write (wr : server.ResponseWriter) (p : string) :
  server.cors (server.header wr) /\ server.cors (server.sent_header wr) ->
  server.cors (server.header (server.Write_ wr p).2)
  /\ server.cors (server.sent_header (server.Write_ wr p).2).
Proof.
  intros H. apply (cors_kept_WriteHeader wr StatusOK) in H.
  unfold server.Write_. unfold server.sent_header in *.
  destruct (server.writes_left _) as [[|k]|]; exact H.
Qed.

Lemma cors_kept_Flush (wr : server.ResponseWriter) :
  server.cors (server.header wr) /\ server.cors (server.sent_header wr) ->
  server.cors (server.header (server.Flush wr))
  /\ server.cors (server.sent_header (server.Flush wr)).
Proof.
  intros H. apply (cors_kept_WriteHeader wr StatusOK) in H. exact H.
Qed.

Lemma cors_kept_flushWriter (wr : server.ResponseWriter) (p : string) :
  server.cors (server.header wr) /\ server.cors (server.sent_header wr) ->
  server.cors (server.header (Write (Writer:=server.flushWriter) wr p).2)
  /\ server.cors (server.sent_header (Write (Writer:=server.flushWriter) wr p).2).
Proof.
  intros H. apply (cors_kept_Write wr p) in H.
  unfold Write, server.flushWriter.
  destruct (server.Write_ wr p) as [err wr']. now apply cors_kept_Flush.
Qed.

Lemma cors_kept_Error (wr : server.ResponseWriter) (msg : string) (code : Z) :
  server.cors (server.header wr) /\ server.cors (server.sent_header wr) ->
  server.cors (server.header (server.Error wr msg code))
  /\ server.cors (server.sent_header (server.Error wr msg code)).
Proof.
  intros H. unfold server.Error. cbv zeta.
  apply cors_kept_Write, cors_kept_WriteHeader.
  apply cors_kept_Header_Set; [discriminate..|].
  apply cors_kept_Header_Set; [discriminate..|]. exact H.
Qed.

Lemma cors_kept_chatHandler (ragService : rag.Service) (wr : server.ResponseWriter)
    (r : server.Request) (world : World St) :
  server.cors (server.header wr) /\ server.cors (server.sent_header wr) ->
  server.cors (server.header (server.chatHandler ragService wr r world).1)
  /\ server.cors (server.sent_header (server.chatHandler ragService wr r world).1).
Proof.
  intros H. unfold server.chatHandler.
  destruct (negb _); [now apply cors_kept_Error|].
  destruct (Decode _) as [req|e]; [|now apply cors_kept_Error].
  destruct (String.eqb _ ""); [now apply cors_kept_Error|].
  destruct (server.Stream req).
  - cbv zeta.
    assert (H0 : server.cors (server.header (server.Header_Set (server.Header_Set
                   (server.Header_Set wr "Content-Type" "text/event-stream")
                   "Cache-Control" "no-cache") "Connection" "keep-alive"))
                 /\ server.cors (server.sent_header (server.Header_Set (server.Header_Set
                   (server.Header_Set wr "Content-Type" "text/event-stream")
                   "Cache-Control" "no-cache") "Connection" "keep-alive"))).
    { do 3 (apply cors_kept_Header_Set; [discriminate..|]). exact H. }
    destruct (negb _); [now apply cors_kept_Error|].
    pose proof (StreamQuery_invariant (WR:=server.flushWriter)
      (fun x => server.cors (server.header x) /\ server.cors (server.sent_header x))
      ragService (server.Query req) _ world
      (fun x p Hx => cors_kept_flushWriter x p Hx) H0) as Hinv.
    revert Hinv.
    destruct (rag.StreamQuery _ _ _ _) as [[[[]|e] w'] world']; exact id.
  - destruct (rag.Query _ _ _) as [[result|e] world']; [|now apply cors_kept_Error].
    cbv zeta. cbn [fst]. unfold server.Encode.
    destruct (Marshal _).
    + apply cors_kept_Write. apply cors_kept_Header_Set; [discriminate..|]. exact H.
    + apply cors_kept_Header_Set; [discriminate..|]. exact H.
Qed.

(** X20. Behind the CORS middleware every response of the chat endpoint,
    the error responses included, goes out with the three CORS headers. A
    preflight request (method OPTIONS) is answered by the middleware itself
    with status 200 and an empty body: the handler behind it is not called,
    whatever it is. *)
Theorem corsMiddleware_headers (ragService : rag.Service) (next : server.Handler)
    (w : server.ResponseWriter) (r : server.Request) (world : World St) :
  server.wrote w = None ->
  server.cors (server.sent_header
                 (server.corsMiddleware (server.chatHandler ragService) w r world).1)
  /\ (server.Method r = "OPTIONS" ->
        let out := server.corsMiddleware next w r world in
        out.2 = world
        /\ server.status out.1 = StatusOK /\ server.wrote out.1 <> None
        /\ server.cors (server.sent_header out.1)
        /\ server.written out.1 = server.written w)
  /\ (server.Method r <> "OPTIONS" ->
        server.corsMiddleware next w r world
        = next (server.Header_Set (server.Header_Set (server.Header_Set w
                  "Access-Control-Allow-Origin" "*")
                  "Access-Control-Allow-Methods" "GET, POST, OPTIONS")
                  "Access-Control-Allow-Headers" "Content-Type, Authorization") r world).
Proof.
  intros Hfresh.
  assert (H0 : server.cors (server.header (server.Header_Set (server.Header_Set
                  (server.Header_Set w "Access-Control-Allow-Origin" "*")
                  "Access-Control-Allow-Methods" "GET, POST, OPTIONS")
                  "Access-Control-Allow-Headers" "Content-Type, Authorization"))).
  { unfold server.Header_Set. cbn -[server.Get_ server.Set_]. unfold server.cors.
    split_and!.
    - rewrite !Get_Set_ne by discriminate. apply Get_Set_eq.
    - rewrite Get_Set_ne by discriminate. apply Get_Set_eq.
    - apply Get_Set_eq. }
  assert (H1 : server.sent_header (server.Header_Set (server.Header_Set
                  (server.Header_Set w "Access-Control-Allow-Origin" "*")
                  "Access-Control-Allow-Methods" "GET, POST, OPTIONS")
                  "Access-Control-Allow-Headers" "Content-Type, Authorization")
               = server.header (server.Header_Set (server.Header_Set
                  (server.Header_Set w "Access-Control-Allow-Origin" "*")
                  "Access-Control-Allow-Methods" "GET, POST, OPTIONS")
                  "Access-Control-Allow-Headers" "Content-Type, Authorization")).
  { unfold server.sent_header, server.Header_Set. cbn -[server.Set_].
    now rewrite Hfresh. }
  split_and!.
  - unfold server.corsMiddleware. cbv zeta.
    destruct (String.eqb _ "OPTIONS").
    + cbn [fst]. apply cors_kept_WriteHeader. rewrite H1. now split.
    + apply cors_kept_chatHandler. rewrite H1. now split.
  - intros Hm. cbv zeta. unfold server.corsMiddleware. rewrite Hm.
    change ("OPTIONS" =? "OPTIONS")%string with true. cbn [fst snd].
    split_and!; [reflexivity| | | |].
    + unfold server.status, server.WriteHeader, server.Header_Set. cbn.
      now rewrite Hfresh.
    + unfold server.WriteHeader, server.Header_Set. cbn. now rewrite Hfresh.
    + apply cors_kept_WriteHeader. rewrite H1. now split.
    + unfold server.WriteHeader, server.Header_Set. cbn. now rewrite Hfresh.
  - intros Hm. unfold server.corsMiddleware. cbv zeta.
    destruct (String.eqb_spec (server.Method r) "OPTIONS"); [contradiction|reflexivity].
Qed.

End ServerProperties.

(** ** The ingestion command *)

Section MainProperties.
Context `{FL : Floats} `{FM : !Fmt} `{NU : NetURL}.
Context {St : Type} `{RM : Remote St}.
Context `{JOQ : JSON llm.OllamaRequest} `{JOR : JSON llm.OllamaResponse}.
Context `{JM : JSON (gmap string Value)} `{JE : JSON (list ingest.KnowledgeEntry)}.











Lemma sends_only_cases {A B} (Q : Request -> Prop) (m : M St A)
    (k : result A -> M St B) :
  sends_only Q m -> (forall r, sends_only Q (k r)) ->
  sends_only Q (fun w => match m w with (r, w1) => k r w1 end).
Proof.
  intros Hm Hk w. destruct (Hm w) as (l & Hl & HQ).
  destruct (m w) as [r w1]; cbn [snd] in Hl.
  destruct (Hk r w1) as (l' & Hl' & HQ'). exists (l ++ l').
  rewrite Hl', Hl, app_assoc. split; [reflexivity|]. now apply Forall_app.
Qed.

Lemma sends_only_since {A} (Q : Request -> Prop) (m : M St A) (w : World St) :
  sends_only Q m -> Forall Q (sent_since w (m w).2).
Proof.
  intros H. destruct (H w) as (l & Hl & HQ).
  now rewrite (sent_since_app _ _ _ Hl).
Qed.

Section Requests.
Variable Q : Request -> Prop.
Variable c : vector.Client.
Hypothesis Q_embed : forall body, Q (embedCall body).
Hypothesis Q_check : Q (checkCall c).
Hypothesis Q_create : Q (createCall c).
Hypothesis Q_upsert : forall points, Q (upsertCall c points).









End Requests.









End MainProperties.

(** * The program at work on the test double *)

#[local] Existing Instances demo.floats demo.fmt demo.net_url demo.bufio demo.remote.
#[local] Existing Instances demo.json_map demo.json_OllamaRequest demo.json_OllamaResponse.
#[local] Existing Instances demo.json_searchResp demo.json_ChatRequest.
#[local] Existing Instances demo.json_ChatResponse demo.json_StreamDelta demo.json_entries.

(** Three results, the second without a stored text: the context block has
    the sections of the first and the third, the sources are three. *)
Lemma Query_context_and_sources_witness :
  rag.buildContext (map vector.toSearchResult demo.hits)
  = "--- Document 1 (score: 0.93) ---" +:+ nl +:+ "Open Leave, then New request."
    +:+ nl +:+ nl
    +:+ "--- Document 3 (score: 0.75) ---" +:+ nl +:+ "Payslips are under Payroll."
    +:+ nl +:+ nl
  /\ exists qr,
      (rag.Query demo.service "How do I request leave?" demo.filled).1 = Ok qr
      /\ length (rag.Sources qr) = 3%nat.
Proof.
  destruct (Query_context_and_sources demo.service "How do I request leave?" demo.filled)
    as (Hctx & _ & _ & Hq).
  split.
  - rewrite Hctx. vm_compute. reflexivity.
  - eexists. split; [vm_compute; reflexivity|]. reflexivity.
Defined.



(** Two texts, two vectors, in order. *)
Lemma Embed_one_vector_per_text_or_error_witness :
  let run := llm.Embed (llm.NewEmbedder "") ["first"; "second"] demo.empty in
  run.1 = Ok [[97; 98; 99]; [97; 98; 99]]
  /\ forall embs, run.1 = Ok embs -> length embs = 2%nat.
Proof.
  cbv zeta. split; [vm_compute; reflexivity|]. intros embs Hrun.
  destruct (Embed_one_vector_per_text_or_error (llm.NewEmbedder "")
              ["first"; "second"] demo.empty) as (_ & Hok & _).
  destruct (llm.Embed (llm.NewEmbedder "") ["first"; "second"] demo.empty) as [r w'].
  cbn in Hrun. subst r. destruct (Hok embs w' eq_refl) as (Hlen & _). exact Hlen.
Defined.

(** A text of 8002 bytes is cut to 8000. *)
Lemma embedSingle_truncates_to_8000_bytes_witness :
  8000 < Z.of_nat (String.length (str_repeat 4001 e_acute))
  /\ Z.of_nat (String.length (llm.truncate (str_repeat 4001 e_acute))) = 8000.
Proof.
  assert (Hlen : 8000 < Z.of_nat (String.length (str_repeat 4001 e_acute)))
    by (vm_compute; reflexivity).
  split; [exact Hlen|].
  exact (proj1 (proj2 (proj1 (embedSingle_truncates_to_8000_bytes
                                (llm.NewEmbedder "") (str_repeat 4001 e_acute)
                                demo.empty) Hlen))).
Defined.

(** The stream with the fragments "Hel" and "lo", a comment line and a chunk
    that does not parse before the sentinel, and one more chunk after it. *)
Lemma StreamChatCompletion_streams_fragments_witness :
  fragments (demo.split_lines demo.stream_text) = ["Hel"; "lo"]
  /\ llm.scan_loop (WR:=buffer_Writer)
       (stream_of (demo.split_lines demo.stream_text) None) ""
     = (Ok tt, "Hello")
  /\ (llm.StreamChatCompletion (WR:=buffer_Writer) (llm.NewClient "key")
        (rag.messages "" "Hi") 1024 "" demo.empty).1
     = (Ok tt, "Hello").
Proof.
  destruct (StreamChatCompletion_streams_fragments (llm.NewClient "key")
              (rag.messages "" "Hi") 1024) as (Hsend & _ & Hbuf & _ & _).
  split; [vm_compute; reflexivity|]. split.
  - rewrite Hbuf. vm_compute. reflexivity.
  - vm_compute. reflexivity.
Defined.

(** The point of the first entry of the corpus. *)
Lemma entry_text_and_point_witness :
  ingest.entryToText (demo.entry_of "kb-1")
  = "Module: Leave" +:+ nl +:+ "Topic: Topic kb-1" +:+ nl
    +:+ "Questions: How?; Where?" +:+ nl +:+ "Answer: See kb-1"
  /\ vector.Payload (entryPoint (demo.entry_of "kb-1") [1; 2; 3]) !! "text"
     = Some (VString (ingest.entryToText (demo.entry_of "kb-1"))).
Proof.
  destruct (entry_text_and_point demo.ingester [demo.entry_of "kb-1"] demo.empty)
    as (Htext & _ & Hpoint).
  split.
  - rewrite Htext. reflexivity.
  - destruct (Hpoint (demo.entry_of "kb-1") [1; 2; 3])
      as (_ & _ & _ & _ & _ & _ & _ & _ & H & _).
    exact H.
Defined.

(** The second result has no string "id": its source has an empty
    identifier, though the result itself is identified as "2". *)
Lemma Query_sources_default_to_empty_witness :
  (exists qr src,
      (rag.Query demo.service "How do I request leave?" demo.filled).1 = Ok qr
      /\ rag.Sources qr !! 1%nat = Some src
      /\ rag.src_ID src = "" /\ rag.src_Module src = "" /\ rag.src_Topic src = "")
  /\ forall hit, demo.hits !! 1%nat = Some hit ->
       vector.sr_ID (vector.toSearchResult hit) = "2"
       /\ rag.src_ID (rag.toSource (vector.toSearchResult hit)) = "".
Proof.
  destruct (Query_sources_default_to_empty demo.service "How do I request leave?"
              demo.filled) as (_ & Hhit & _).
  split.
  - eexists. eexists. split; [vm_compute; reflexivity|]. split_and!; reflexivity.
  - intros hit [= <-].
    match goal with
    | |- vector.sr_ID (vector.toSearchResult ?h) = _ /\ _ =>
        destruct (Hhit h) as (_ & Hnone)
    end.
    exact (Hnone eq_refl).
Defined.

(** A query against the empty collection. *)
Lemma Query_without_results_witness :
  let w1 := (llm.EmbedSingle (rag.embedder demo.service) "Hi" demo.empty).2 in
  let w2 := (vector.Search (rag.vectorClient demo.service) [97; 98; 99]
               (rag.topK demo.service) w1).2 in
  llm.EmbedSingle (rag.embedder demo.service) "Hi" demo.empty = (Ok [97; 98; 99], w1)
  /\ vector.Search (rag.vectorClient demo.service) [97; 98; 99]
       (rag.topK demo.service) w1 = (Ok [], w2)
  /\ (rag.Query demo.service "Hi" demo.empty).1
     = Ok {| rag.Answer := "Open Leave, then New request."; rag.Sources := [] |}
  /\ length (sent (rag.Query demo.service "Hi" demo.empty).2) = 3%nat.
Proof.
  intros w1 w2.
  assert (He : llm.EmbedSingle (rag.embedder demo.service) "Hi" demo.empty
               = (Ok [97; 98; 99], w1)) by (vm_compute; reflexivity).
  assert (Hs : vector.Search (rag.vectorClient demo.service) [97; 98; 99]
                 (rag.topK demo.service) w1 = (Ok [], w2))
    by (vm_compute; reflexivity).
  destruct (Query_without_results demo.service "Hi" _ _ _ _ He Hs) as (_ & Hrun & _).
  split; [exact He|]. split; [exact Hs|].
  rewrite Hrun. split; vm_compute; reflexivity.
Defined.

(** ** More of the program at work *)

#[local] Existing Instances demo_server.json_ChatRequest demo_server.json_ChatResponse.

(** Two identifiers of the corpus that differ in their last byte. *)
Lemma stringToNumericID_separates_one_byte_witness :
  stringToNumericID "kb-1" <> stringToNumericID "kb-2".
Proof.
  apply (stringToNumericID_separates_one_byte "kb-" "" "1" "2"). discriminate.
Defined.

(** Twelve texts: twelve requests, and one progress line, after the tenth. *)
Lemma Embed_requests_and_progress_witness :
  let texts := map (fun k => "text " +:+ fmt_d (Z.of_nat k)) (seq 1 12) in
  let run := llm.Embed (llm.NewEmbedder "") texts demo.empty in
  run.1 = Ok (replicate 12 [97; 98; 99])
  /\ length (sent_since demo.empty run.2) = 12%nat
  /\ logged run.2 = ["Embedded 10/12 texts"].
Proof.
  cbv zeta.
  set (texts := map (fun k => "text " +:+ fmt_d (Z.of_nat k)) (seq 1 12)).
  assert (H : llm.Embed (llm.NewEmbedder "") texts demo.empty
              = (Ok (replicate 12 [97; 98; 99]),
                 (llm.Embed (llm.NewEmbedder "") texts demo.empty).2))
    by (vm_compute; reflexivity).
  destruct (Embed_requests_and_progress _ _ _ _ _ H) as (_ & Hlen & _ & Hlog & _).
  split_and!; [vm_compute; reflexivity|exact Hlen|].
  rewrite Hlog. vm_compute. reflexivity.
Defined.


(** One point upserted into the provisioned store. *)
Lemma UpsertPoints_one_request_witness :
  let points := [entryPoint (demo.entry_of "kb-1") [1; 2; 3]] in
  let run := vector.UpsertPoints demo.client points demo.empty in
  url_Parse_error (vector.collectionURL demo.client +:+ "/points?wait=true") = None
  /\ run.1 = Ok tt
  /\ sent run.2 = [upsertCall demo.client points].
Proof.
  cbv zeta.
  assert (Hurl : url_Parse_error (vector.collectionURL demo.client +:+ "/points?wait=true")
                 = None) by reflexivity.
  destruct (UpsertPoints_one_request (FL:=demo.floats) demo.client
              [entryPoint (FL:=demo.floats) (demo.entry_of "kb-1") [1; 2; 3]]
              demo.empty Hurl)
    as (Hsent & _ & _ & _).
  split_and!; [exact Hurl|vm_compute; reflexivity|exact Hsent].
Defined.

(** A search in the filled store: three hits, three results, the second
    identified by its raw identifier. *)
Lemma Search_results_follow_hits_witness :
  let run := vector.Search demo.client [97; 98; 99] 5 demo.filled in
  url_Parse_error (vector.collectionURL demo.client +:+ "/points/search") = None
  /\ run.1 = Ok (map vector.toSearchResult demo.hits)
  /\ map vector.sr_ID (map vector.toSearchResult demo.hits) = ["kb-1"; "2"; "kb-3"]
  /\ length (sent run.2) = 1%nat.
Proof.
  cbv zeta.
  assert (Hurl : url_Parse_error (vector.collectionURL demo.client +:+ "/points/search")
                 = None) by reflexivity.
  destruct (Search_results_follow_hits (FL:=demo.floats) demo.client [97; 98; 99] 5 demo.filled Hurl)
    as (Hsent & _ & _ & Hok & _).
  split_and!; [exact Hurl| |vm_compute; reflexivity|rewrite Hsent; reflexivity].
  apply Hok. eexists _, _, _. split_and!; reflexivity.
Defined.

(** The corpus of 23 entries: 23 requests to the embedding engine and 3
    upserts. *)
Lemma IngestJSONFile_request_count_witness :
  let run := ingest.IngestJSONFile demo.ingester "Knowledgebase.json" demo.empty in
  run.1 = Ok tt
  /\ length (sent_since demo.empty run.2) = 26%nat
  /\ length (filter (fun r => is_upsert demo.client r = true)
                    (sent_since demo.empty run.2)) = 3%nat.
Proof.
  cbv zeta.
  assert (Hread : ReadFile "Knowledgebase.json" demo.empty = (Ok demo.corpus, demo.empty))
    by reflexivity.
  assert (Hparse : Unmarshal demo.corpus
                   = Ok (map demo.entry_of (demo.split_lines demo.corpus)))
    by reflexivity.
  assert (Hrun : ingest.IngestJSONFile demo.ingester "Knowledgebase.json" demo.empty
                 = (Ok tt, (ingest.IngestJSONFile demo.ingester "Knowledgebase.json"
                              demo.empty).2))
    by (vm_compute; reflexivity).
  destruct (IngestJSONFile_request_count demo.ingester "Knowledgebase.json"
              demo.empty demo.empty _ demo.corpus _ Hread Hparse Hrun)
    as (Hlen & Hups & _).
  split_and!; [vm_compute; reflexivity|exact Hlen|exact Hups].
Defined.



(** A GET on the chat endpoint, and a streaming request on a connection
    that cannot flush. *)
Lemma chatHandler_rejections_witness :
  let get := {| server.Method := "GET"; server.Path := "/chat";
                server.req_Body := {| data := ""; read_error := None |} |} in
  let out := server.chatHandler demo.service demo_server.recorder get demo.filled in
  let out' := server.chatHandler demo.service demo_server.plain
                (demo_server.post "stream:How do I request leave?") demo.filled in
  (out.2 = demo.filled
   /\ server.status out.1 = 405
   /\ server.written out.1 = "Method not allowed" +:+ nl)
  /\ (out'.2 = demo.filled
      /\ server.status out'.1 = 500
      /\ server.written out'.1 = "Streaming not supported" +:+ nl).
Proof.
  cbv zeta. split.
  - destruct (chatHandler_rejections demo.service demo_server.recorder
                {| server.Method := "GET"; server.Path := "/chat";
                   server.req_Body := {| data := ""; read_error := None |} |}
                demo.filled eq_refl ltac:(discriminate)) as (H & _).
    destruct (H ltac:(discriminate)) as (Hw & Hs & _ & Hb & _).
    split_and!; [exact Hw|exact Hs|exact Hb].
  - destruct (chatHandler_rejections demo.service demo_server.plain
                (demo_server.post "stream:How do I request leave?")
                demo.filled eq_refl ltac:(discriminate)) as (_ & _ & _ & H).
    destruct (H eq_refl {| server.Query := "How do I request leave?";
                           server.Stream := true |}
                eq_refl ltac:(discriminate) eq_refl eq_refl) as (Hw & Hs & _ & Hb & _).
    split_and!; [exact Hw|exact Hs|exact Hb].
Defined.

(** A query on a connection that carries one exchange: the search fails,
    the client is told "Internal server error" and the log has the cause. *)
Lemma chatHandler_hides_query_errors_witness :
  let out := server.chatHandler (RM:=faulty.remote) demo.service demo_server.recorder
               (demo_server.post "query:How do I request leave?") (faulty.world 1 3) in
  server.status out.1 = 500
  /\ server.written out.1 = "Internal server error" +:+ nl
  /\ logged out.2 = ["Query error: search: search: context canceled"].
Proof.
  cbv zeta.
  assert (Hrun : rag.Query (RM:=faulty.remote) demo.service "How do I request leave?"
                   (faulty.world 1 3)
                 = (Err "search: search: context canceled",
                    (rag.Query (RM:=faulty.remote) demo.service "How do I request leave?"
                       (faulty.world 1 3)).2))
    by (vm_compute; reflexivity).
  destruct (chatHandler_hides_query_errors (RM:=faulty.remote) demo.service
              demo_server.recorder (demo_server.post "query:How do I request leave?")
              (faulty.world 1 3) _
              {| server.Query := "How do I request leave?"; server.Stream := false |}
              _ eq_refl ltac:(discriminate) eq_refl eq_refl ltac:(discriminate)
              eq_refl Hrun) as (_ & (Hs & _ & Hb & _) & Hw).
  split_and!; [exact Hs|exact Hb|]. rewrite Hw. vm_compute. reflexivity.
Defined.

(** A query on the filled store: the answer and the identifiers of the
    three sources, as JSON. *)
Lemma chatHandler_answers_json_witness :
  let out := server.chatHandler demo.service demo_server.recorder
               (demo_server.post "query:How do I request leave?") demo.filled in
  server.status out.1 = 200
  /\ server.Get_ (server.sent_header out.1) "Content-Type" = "application/json"
  /\ server.written out.1 = "Open Leave, then New request. [kb-1,,kb-3]" +:+ nl.
Proof.
  cbv zeta.
  assert (Hrun : rag.Query demo.service "How do I request leave?" demo.filled
                 = ((rag.Query demo.service "How do I request leave?" demo.filled).1,
                    (rag.Query demo.service "How do I request leave?" demo.filled).2))
    by apply surjective_pairing.
  assert (Hok : (rag.Query demo.service "How do I request leave?" demo.filled).1
                = Ok {| rag.Answer := "Open Leave, then New request.";
                        rag.Sources := map rag.toSource
                                         (map vector.toSearchResult demo.hits) |})
    by (vm_compute; reflexivity).
  rewrite Hok in Hrun.
  destruct (chatHandler_answers_json demo.service
              demo_server.recorder (demo_server.post "query:How do I request leave?")
              demo.filled _
              {| server.Query := "How do I request leave?"; server.Stream := false |}
              _ eq_refl ltac:(discriminate) eq_refl eq_refl ltac:(discriminate)
              eq_refl Hrun) as (_ & Hs & Hct & Hb & _).
  split_and!; [exact Hs|exact Hct|].
  assert (Hm : Marshal {| server.Answer := "Open Leave, then New request.";
                          server.Sources := map server.toSource
                            (map rag.toSource (map vector.toSearchResult demo.hits)) |}
               = Ok "Open Leave, then New request. [kb-1,,kb-3]")
    by (vm_compute; reflexivity).
  exact (Hb _ Hm).
Defined.



(** A preflight request, and a query behind the middleware. *)
Lemma corsMiddleware_headers_witness :
  let preflight := {| server.Method := "OPTIONS"; server.Path := "/chat";
                      server.req_Body := {| data := ""; read_error := None |} |} in
  let out := server.corsMiddleware (server.chatHandler demo.service)
               demo_server.recorder preflight demo.filled in
  let out' := server.corsMiddleware (server.chatHandler demo.service)
                demo_server.recorder (demo_server.post "query:How do I request leave?")
                demo.filled in
  (out.2 = demo.filled /\ server.status out.1 = 200 /\ server.written out.1 = "")
  /\ server.Get_ (server.sent_header out'.1) "Access-Control-Allow-Origin" = "*".
Proof.
  cbv zeta. split.
  - destruct (corsMiddleware_headers demo.service (server.chatHandler demo.service)
                demo_server.recorder
                {| server.Method := "OPTIONS"; server.Path := "/chat";
                   server.req_Body := {| data := ""; read_error := None |} |}
                demo.filled eq_refl) as (_ & H & _).
    destruct (H eq_refl) as (Hw & Hs & _ & _ & Hb).
    split_and!; [exact Hw|exact Hs|exact Hb].
  - destruct (corsMiddleware_headers demo.service (server.chatHandler demo.service)
                demo_server.recorder (demo_server.post "query:How do I request leave?")
                demo.filled eq_refl) as ((H & _ & _) & _ & _).
    exact H.
Defined.

(** One text embedded by the test double. *)
Lemma embedSingle_succeeds_iff_witness :
  let run := llm.embedSingle (llm.NewEmbedder "") "Hi" demo.empty in
  run.1 = Ok [97; 98; 99]
  /\ exists body, Marshal (embedRequest (llm.NewEmbedder "") "Hi") = Ok body
                  /\ sent run.2 = sent demo.empty ++ [embedCall body]
                  /\ logged run.2 = logged demo.empty.
Proof.
  cbv zeta. split; [vm_compute; reflexivity|].
  refine (proj2 (proj2 (embedSingle_succeeds_iff (llm.NewEmbedder "") "Hi" demo.empty
                          [97; 98; 99] _) _)).
  vm_compute. reflexivity.
Defined.

(** Provisioning from scratch: the check, then the creation. *)
Lemma EnsureCollection_requests_witness :
  let run := vector.EnsureCollection demo.client demo.fresh in
  run.1 = Ok tt
  /\ (sent_since demo.fresh run.2 = [checkCall demo.client]
      \/ sent_since demo.fresh run.2 = [checkCall demo.client; createCall demo.client]).
Proof.
  cbv zeta. split; [vm_compute; reflexivity|].
  exact (proj1 (proj1 (EnsureCollection_requests demo.client demo.fresh) eq_refl)).
Defined.

(** A file that is not there. *)
Lemma IngestJSONFile_before_batches_witness :
  let run := ingest.IngestJSONFile demo.ingester "missing.json" demo.empty in
  run = (Err (wrap_err "read file" "open missing.json: no such file or directory"),
         demo.empty).
Proof.
  cbv zeta.
  exact (proj1 (proj1 (IngestJSONFile_before_batches demo.ingester "missing.json"
                         demo.empty) _ _ eq_refl)).
Defined.


(** The same question, streamed into a buffer. *)
Lemma StreamQuery_request_chain_witness :
  let run := rag.StreamQuery (WR:=buffer_Writer) demo.service
               "How do I request leave?" "" demo.filled in
  run.1 = (Ok tt, "Hello")
  /\ exists embedBody searchBody chatBody,
       sent_since demo.filled run.2
       = [embedCall embedBody;
          searchCall (rag.vectorClient demo.service) searchBody;
          chatCall (rag.llmClient demo.service) chatBody].
Proof.
  cbv zeta. split; [vm_compute; reflexivity|].
  destruct (StreamQuery_request_chain (WR:=buffer_Writer) demo.service
              "How do I request leave?" "" demo.filled)
    as (b1 & b2 & b3 & _ & _ & _ & Hok).
  exists b1, b2, b3.
  refine (proj1 (Hok _)). vm_compute. reflexivity.
Defined.

(** The second hit of the test double has no stored text: alone, it makes
    an empty context. *)
Lemma buildContext_empty_iff_witness :
  let r := vector.toSearchResult
             {| vector.hit_ID := VInt 2; vector.hit_Score := 88;
                vector.hit_Payload := <[ "module" := VInt 7 ]> ∅ |} in
  rag.buildContext [r] = "".
Proof.
  cbv zeta. apply (proj2 (buildContext_empty_iff _)).
  intros r Hr. apply list_elem_of_singleton in Hr. subst r. reflexivity.
Defined.


